(* ===== verification/_CoqProject ===== *)
-Q . S2P
Prelude.v
PyValue.v
Normalize.v
TiltController.v
Stats.v
Calibration.v
Analysis.v
Motion.v
System.v
Sprites.v
PyFormat.v
GameLoop.v
Collision.v
Hud.v
Main.v
SA.v
