(* ===== verification/Prelude.v ===== *)
(** * Sky Fighter: a verification development of the tilt-controlled game

    ** The program

    [src/Game.py] is a pygame shooter steered by a phone's orientation.  A
    daemon thread, [iottalk_listener], polls [DAN.pull('Dummy_Control')]
    every 20 ms, extracts one orientation value from the JSON sample,
    applies a dead zone, a scale factor and a clamp to [[-10, 10]], and
    writes the result to the global [current_tilt].  The game thread reads
    [current_tilt] once per frame: [Player.update] moves and banks the
    ship, the main menu moves a preview plane, the HUD draws a gauge.  The
    frame loop of [main] also fires bullets, moves enemies, stars and
    particles, resolves collisions and keeps the score.
    [src/test_tilt_data.py] is the calibration script: it pulls the same
    samples through five timed phases, keeps statistics and suggests the
    constants the listener uses.  [src/SA.py] is the IoTtalk device
    description with two printing callbacks.

    ** The files

    - [Prelude] (this file): Python exceptions and the [res] error monad
      with its [let?] notation in [sky_scope]; [try/except] as [catch];
      Python's [min]/[max] on rationals ([py_min], [py_max], [clamp]) with
      their [Proper] instances for [Qeq]; the tactics [qcase], [qabs_elim],
      [clamp_cases]; the hint databases [sky] and [sky_rw].
    - [PyValue]: the JSON value a pull returns ([pyval]) and CPython's
      [float()] on it, with a parser for the float grammar ([parse_float]).
    - [Normalize]: the two sample extractors, [Listener.iottalk_gamma]
      (Game.py 36-60) and [TiltTest.tilt_test_extract] (test_tilt_data.py
      133-229), with every [try/except] as a [res] value.
    - [TiltController]: one pass of [iottalk_listener] (Game.py 23-97) as
      the ordered list of its writes to [current_tilt] and its pause
      ([listener_writes]); [tilt_of_gamma] is the value a pass leaves.
    - [Stats], [Calibration], [Analysis]: the calibration script:
      [print_statistics], the phase loop as a state machine ([cal_tick],
      [run_session], one pass per pull, the clock as input) and the final
      report with the suggested constants ([analyze], [derive]).
    - [Motion]: [Player.update] (Game.py 187-214) with pygame's truncation
      of float coordinates ([q_trunc]) and [Rect.clamp_ip]; the menu
      preview; the HUD gauge.
    - [System]: the two threads as a step relation [sys_step] on the
      shared [current_tilt], the pending writes of the listener's pass and
      the state of the game thread, which is a parameter (a frame
      relation); [reachable] states and invariants by rule induction.
    - [Sprites]: [Particle], [Star], [Enemy] and [Bullet] (Game.py 114-153,
      216-269); [kill()] is an [option] result.
    - [GameLoop]: the game state of [main] and one frame of its loop
      ([frame], Game.py 447-491) composed from [Motion] and [Sprites], with
      pygame's [groupcollide] and [spritecollide].
    - [Collision]: what pygame's [Rect.colliderect] and the sprite
      collision calls of [GameLoop] mean on pixels: two rects collide iff
      they share a pixel ([in_rect]); the closed form of
      [pygame.sprite.groupcollide(mobs, bullets, True, True)] on the group
      and the bullets as the call found them ([taken], [untouched_by]); a
      frame ends the game iff the moved ship shares a pixel with a mob.
    - [PyFormat]: the format specifications the program prints numbers
      with: [.2f] ([format_2f]), [0<w>d] ([format_0d]) and [str] of an
      [int], on one decimal printer, and their readings back by [float()].
    - [Hud]: the texts of [draw_hud], of the game-over screen and of the
      menu, and the menu's tilt marker.
    - [Main]: [main_menu]'s event loop and [main()] as one game thread
      ([main_frame]: menu, quit or launch, frames, game over), run beside
      the listener as an instance of [System].
    - [SA]: [Dummy_Control] and [on_register] of [src/SA.py] as the lines
      they print.

    ** The theorems

    - The controller's range: [tilt_of_gamma_range], [run_listener_range],
      and under every interleaving of the threads
      [tilt_range_between_passes]; [unclamped_read_reachable] shows that a
      frame can read the unclamped value between the two assignments of
      lines 89 and 91.  [tilt_zero_or_large]: every value a frame reads is
      [0] or beyond the listener's own dead band, so the frame's band of
      [0.3] never decides.
    - The listener: a pass writes the single value [0] exactly when the
      sample is unusable (no non-empty list, or [float()] rejects the
      element read) or its reading is in the dead zone, and a pull of
      [None] writes nothing ([listener_writes_zero]); the only exception
      escaping either extractor is [OverflowError]; the calibration
      extractor's nesting, label lexicon and fallback to the first axis.
    - The ship: at most seven pixels per frame ([steer_speed_bound]), on
      screen under every interleaving ([ship_invariant]), and two defects:
      the bank angle never recentres ([bank_never_recenters]) and slow
      tilts are asymmetric ([slow_tilt_asymmetry]).
    - [main()] under every interleaving with the listener: preview on
      screen, the game's invariant, a final score made of hundreds
      ([main_invariant]); the menu decides on its first [QUIT] or space
      key ([menu_choice_first]).
    - The game: six mobs of the enemy shape and a score made of hundreds
      through any run ([game_invariant]), every hundred points costing a
      bullet ([score_costs_bullets]), every enemy back above the screen
      within 254 frames ([enemy_comes_back]), bullets living exactly
      [y / 12] frames ([bullet_lifetime]).
    - Collisions: [groupcollide] in closed form: it keeps exactly the
      bullets no mob touches, and kills a mob exactly when it touches a
      bullet no earlier mob of the group touches ([groupcollide_spec]);
      a running
      frame ends the game exactly when the ship, after its
      [Player.update], overlaps a mob of the new group
      ([frame_ends_on_contact]).
    - Calibration: the session invariant, phase advance and completion,
      the window of the last ten readings, sound statistics, and the
      suggested constants refining the controller
      ([suggested_params_refine]); the report's groups hold exactly the
      points of their label in recording order ([group_by_phase_lookup]),
      and the overall statistics count every recorded point once and
      bound every phase block's extremes ([final_report_overall]).
    - Printing: every line [Dummy_Control] prints is its prefix and the
      first item in [.2f], which [float()] reads back within [1/200], or
      the whole sample ([Dummy_Control_prints]); the HUD's five-digit
      score, the final score and the [m:ss] time read back exactly
      ([hud_score_roundtrip], [hud_time_roundtrip]); the menu's marker
      stays on its track while [current_tilt] is in range
      ([menu_marker_on_track]).

    ** Modelling choices and bounds

    Python floats are exact rationals [Q] compared with [Qeq]: rounding,
    infinities and NaN are not modelled (the spec's constants and the
    sensor readings are far from the float limits; the overflow of
    [float()] on huge integers is modelled).  pygame [Rect] coordinates
    are integers, and assigning a float truncates toward zero as pygame's
    C code does.  Random draws, the clock and events are inputs of each
    step, so each theorem holds for every value the calls can return.
    A step of the game thread reads [current_tilt] once, while the source
    reads it up to four times in a frame ([Player.update], the menu, the
    HUD): the listener's writes interleave between whole frames only; the
    theorems under interleaving bound every value [current_tilt] can
    hold, so they hold of each of those reads as well.  A calibration pass
    reads the clock once: the next phase starts at that time, where the
    source calls [time.time()] again at line 296, a few instructions
    later.
    [dec_digits] takes [log2 n + 1] as fuel, which bounds the number of
    decimal digits of [n]; every other recursion is structural.  The sizes
    of rotated images are a parameter ([rot_size]), bounded where a
    theorem needs it.  Not modelled: the DAN library (registration and
    transport; a pull is one of its possible results), pygame's drawing,
    fonts, window and clock ([time.sleep], [clock.tick]: they change no
    state of the program), the image rotation of [draw_ship] (only the
    resulting size enters, as [rot_size]), console output other than the
    statistics and the callbacks' lines, and the configuration constants
    of [SA.py]. *)

From Stdlib Require Import QArith Qabs Lqa Psatz ZArith Lia List Bool.
From Stdlib Require Import Morphisms.
Import ListNotations.

(** ** Python exceptions and results *)

(** The exception classes the modelled code raises or catches. *)
Inductive pyexc : Type :=
| ValueError
| TypeError
| IndexError
| OverflowError
| KeyError.

(** A computation that returns a value or raises a Python exception. *)
Inductive res (A : Type) : Type :=
| Ok (a : A)
| Raise (e : pyexc).
Arguments Ok {A} a.
Arguments Raise {A} e.

Definition res_bind {A B : Type} (m : res A) (k : A -> res B) : res B :=
  match m with
  | Ok a => k a
  | Raise e => Raise e
  end.

Declare Scope sky_scope.
Delimit Scope sky_scope with sky.
Notation "'let?' x := m 'in' k" := (res_bind m (fun x => k))
  (at level 10, x name, m at level 100, k at level 200) : sky_scope.
Open Scope sky_scope.

Definition pyexc_eqb (a b : pyexc) : bool :=
  match a, b with
  | ValueError, ValueError | TypeError, TypeError
  | IndexError, IndexError | OverflowError, OverflowError | KeyError, KeyError => true
  | _, _ => false
  end.

(** [try: x = e  except (E1, ..., En): x = None]: the handled classes turn
    into [None], every other exception propagates. *)
Definition catch {A : Type} (handled : list pyexc) (m : res A) : res (option A) :=
  match m with
  | Ok a => Ok (Some a)
  | Raise e => if existsb (pyexc_eqb e) handled then Ok None else Raise e
  end.

(** ** Python floats as exact rationals *)

Open Scope Q_scope.

(** Python's [a < b] on floats. *)
Definition qltb (a b : Q) : bool := negb (Qle_bool b a).

(** Python's builtin [min(a, b)] keeps [a] unless [b < a]; [max(a, b)] keeps
    [a] unless [b > a].  The order of the arguments matters for which of two
    equal values is returned, so both are written the way CPython does it. *)
Definition py_min (a b : Q) : Q := if qltb b a then b else a.
Definition py_max (a b : Q) : Q := if qltb a b then b else a.

(** [max(lo, min(hi, x))], the clamp idiom of the source. *)
Definition clamp (lo hi x : Q) : Q := py_max lo (py_min hi x).

(** ** Generic lemmas *)

Lemma qltb_spec (a b : Q) : reflect (a < b) (qltb a b).
Proof.
  unfold qltb. destruct (Qle_bool b a) eqn:E; constructor.
  - apply Qle_bool_iff in E. lra.
  - apply Qnot_le_lt. intros H. apply Qle_bool_iff in H. congruence.
Qed.

Lemma qltb_true (a b : Q) : qltb a b = true <-> a < b.
Proof. destruct (qltb_spec a b); split; congruence || tauto. Qed.

Lemma qltb_false (a b : Q) : qltb a b = false <-> b <= a.
Proof.
  destruct (qltb_spec a b) as [H|H]; split; try congruence; intros.
  - lra.
  - apply Qnot_lt_le; exact H.
Qed.

Lemma res_bind_ok {A B : Type} (m : res A) (k : A -> res B) (b : B) :
  res_bind m k = Ok b <-> exists a, m = Ok a /\ k a = Ok b.
Proof.
  destruct m as [a|e]; simpl; split.
  - intros H; exists a; auto.
  - intros (a' & Ha & Hk); congruence.
  - discriminate.
  - intros (a' & Ha & _); discriminate.
Qed.

(** Case analysis on every Python comparison in the goal. *)
Ltac qcase :=
  repeat match goal with
  | |- context [qltb ?a ?b] =>
      let E := fresh "E" in
      destruct (qltb_spec a b) as [E|E]
  | H : context [qltb ?a ?b] |- _ =>
      let E := fresh "E" in
      destruct (qltb_spec a b) as [E|E]
  end.

Lemma py_min_le_l (a b : Q) : py_min a b <= a.
Proof. unfold py_min; qcase; lra. Qed.

Lemma py_min_le_r (a b : Q) : py_min a b <= b.
Proof. unfold py_min; qcase; lra. Qed.

Lemma py_min_glb (a b c : Q) : c <= a -> c <= b -> c <= py_min a b.
Proof. unfold py_min; qcase; lra. Qed.

Lemma py_max_ge_l (a b : Q) : a <= py_max a b.
Proof. unfold py_max; qcase; lra. Qed.

Lemma py_max_ge_r (a b : Q) : b <= py_max a b.
Proof. unfold py_max; qcase; lra. Qed.

Lemma py_max_lub (a b c : Q) : a <= c -> b <= c -> py_max a b <= c.
Proof. unfold py_max; qcase; lra. Qed.

Lemma py_min_id (a b : Q) : a <= b -> py_min a b == a.
Proof. unfold py_min; qcase; lra. Qed.

Lemma py_max_id (a b : Q) : b <= a -> py_max a b == a.
Proof. unfold py_max; qcase; lra. Qed.

Lemma clamp_bounds (lo hi x : Q) : lo <= hi -> lo <= clamp lo hi x <= hi.
Proof.
  intros H. unfold clamp. split.
  - apply py_max_ge_l.
  - apply py_max_lub; [exact H | apply py_min_le_l].
Qed.

Lemma clamp_id (lo hi x : Q) : lo <= x <= hi -> clamp lo hi x == x.
Proof.
  intros [H1 H2]. unfold clamp, py_min, py_max; qcase; lra.
Qed.

Lemma clamp_hi (lo hi x : Q) : lo <= hi -> hi <= x -> clamp lo hi x == hi.
Proof. intros H1 H2. unfold clamp, py_max, py_min; qcase; lra. Qed.

Lemma clamp_lo (lo hi x : Q) : lo <= hi -> x <= lo -> clamp lo hi x == lo.
Proof. intros H1 H2. unfold clamp, py_max, py_min; qcase; lra. Qed.

(** The Python helpers respect [==], so rewriting with rational equalities
    goes through them. *)
#[export] Instance qltb_Proper : Proper (Qeq ==> Qeq ==> eq) qltb.
Proof. intros a a' Ha b b' Hb. unfold qltb. now rewrite Ha, Hb. Qed.

#[export] Instance py_min_Proper : Proper (Qeq ==> Qeq ==> Qeq) py_min.
Proof. intros a a' Ha b b' Hb. unfold py_min. rewrite Ha, Hb. now destruct qltb. Qed.

#[export] Instance py_max_Proper : Proper (Qeq ==> Qeq ==> Qeq) py_max.
Proof. intros a a' Ha b b' Hb. unfold py_max. rewrite Ha, Hb. now destruct qltb. Qed.

#[export] Instance clamp_Proper : Proper (Qeq ==> Qeq ==> Qeq ==> Qeq) clamp.
Proof. intros a a' Ha b b' Hb c c' Hc. unfold clamp. now rewrite Ha, Hb, Hc. Qed.

Create HintDb sky.
Create Rewrite HintDb sky_rw.
#[export] Hint Resolve py_min_le_l py_min_le_r py_max_ge_l py_max_ge_r
  py_min_glb py_max_lub clamp_bounds : sky.
#[export] Hint Rewrite qltb_true qltb_false : sky_rw.

Lemma catch_raise {A : Type} (hs : list pyexc) (m : res A) (e : pyexc) :
  catch hs m = Raise e -> m = Raise e /\ existsb (pyexc_eqb e) hs = false.
Proof.
  destruct m as [a|e']; simpl; [discriminate|].
  destruct (existsb (pyexc_eqb e') hs) eqn:E; [discriminate|].
  intros [= ->]. auto.
Qed.

Lemma res_bind_raise {A B : Type} (m : res A) (k : A -> res B) (e : pyexc) :
  res_bind m k = Raise e -> m = Raise e \/ exists a, m = Ok a /\ k a = Raise e.
Proof. destruct m as [a|e']; simpl; intros H; [right; eauto | left; congruence]. Qed.

Lemma existsb_pyexc_in (e : pyexc) (hs : list pyexc) :
  In e hs -> existsb (pyexc_eqb e) hs = true.
Proof. intros H. apply existsb_exists. exists e. split; [exact H | now destruct e]. Qed.

Lemma qabs_split (x : Q) : (0 <= x /\ Qabs x == x) \/ (x < 0 /\ Qabs x == - x).
Proof.
  destruct (Qlt_le_dec x 0) as [H|H]; [right | left]; split; auto.
  - apply Qabs_neg; lra.
  - apply Qabs_pos; exact H.
Qed.

(** Replace every [Qabs x] of the goal and the hypotheses by a fresh name
    with its two cases, so that [lra]/[nra] can finish. *)
Ltac qabs_elim :=
  repeat match goal with
  | |- context [Qabs ?x] =>
      let a := fresh "a" in
      destruct (qabs_split x) as [[? ?]|[? ?]]; set (a := Qabs x) in *
  | H : context [Qabs ?x] |- _ =>
      let a := fresh "a" in
      destruct (qabs_split x) as [[? ?]|[? ?]]; set (a := Qabs x) in *
  end.

(** Unfold the clamp idiom and split every comparison. *)
Ltac clamp_cases := unfold clamp, py_max, py_min in *; qcase.

(** ** Lists *)

(** Two filters in a row are one filter on the conjunction. *)
Lemma filter_filter {A : Type} (f g : A -> bool) (l : list A) :
  filter g (filter f l) = filter (fun x => f x && g x) l.
Proof.
  induction l as [|x l IH]; cbn; [reflexivity|].
  destruct (f x); cbn; [destruct (g x)|]; cbn; now rewrite IH.
Qed.

(** [existsb] fails exactly when the filter is empty. *)
Lemma existsb_filter_nil {A : Type} (f : A -> bool) (l : list A) :
  existsb f l = false <-> filter f l = [].
Proof. induction l as [|x l IH]; cbn; [split; reflexivity|]. destruct (f x); cbn; [split; discriminate | exact IH]. Qed.
