(* ===== verification/PyValue.v ===== *)
(** * PyValue: the values a sample can be, and Python's [float()]

    [DAN.pull] returns a JSON-decoded Python value.  [pyval] is that value
    type; [py_float] is CPython's [float(x)] on it, the conversion every
    normalizer of [src/Game.py] and [src/test_tilt_data.py] calls.  Strings
    go through [parse_float], a parser for CPython's float grammar
    (sign, digit groups with [_] separators, fraction, exponent). *)

From Stdlib Require Import QArith Qabs Lqa ZArith Lia List Bool String Ascii.
From S2P Require Import Prelude.
Import ListNotations.

(** ** Values *)

(** A JSON value as Python holds it after decoding: [None], [bool], [int]
    (unbounded), [float] (finite, as an exact rational), [str], [list] and
    [dict] (an association list, in insertion order). *)
#[warnings="-register-all"]
Inductive pyval : Type :=
| PNone
| PBool (b : bool)
| PInt (z : Z)
| PFloat (q : Q)
| PStr (s : string)
| PList (l : list pyval)
| PDict (kv : list (string * pyval)).

(** [isinstance(v, (list, tuple))]: JSON decoding yields lists only. *)
Definition is_seq (v : pyval) : bool :=
  match v with PList _ => true | _ => false end.

(** [isinstance(v, str)]. *)
Definition is_str (v : pyval) : bool :=
  match v with PStr _ => true | _ => false end.

(** [len(v)] of a sequence ([0] for the other values, where the source
    never asks for it). *)
Definition seq_len (v : pyval) : nat :=
  match v with PList l => List.length l | _ => 0 end.

(** [v[i]] on a sequence: [IndexError] out of range; [KeyError] on a dict
    (a JSON object has string keys only, so the key [i] is missing);
    [TypeError] on a value that is not subscriptable. *)
Definition py_index (v : pyval) (i : nat) : res pyval :=
  match v with
  | PList l => match nth_error l i with Some x => Ok x | None => Raise IndexError end
  | PStr s => match String.get i s with
              | Some c => Ok (PStr (String c EmptyString))
              | None => Raise IndexError
              end
  | PDict _ => Raise KeyError
  | _ => Raise TypeError
  end.

(** ** Characters *)

Definition digit_val (c : ascii) : option nat :=
  let n := nat_of_ascii c in
  if (48 <=? n)%nat && (n <=? 57)%nat then Some (n - 48)%nat else None.

(** The ASCII whitespace [float()] strips: space, \t, \n, \v, \f, \r. *)
Definition is_space (c : ascii) : bool :=
  let n := nat_of_ascii c in
  (n =? 32)%nat || ((9 <=? n)%nat && (n <=? 13)%nat).

Fixpoint drop_spaces (l : list ascii) : list ascii :=
  match l with
  | c :: r => if is_space c then drop_spaces r else l
  | [] => []
  end.

Definition strip (l : list ascii) : list ascii := rev (drop_spaces (rev (drop_spaces l))).

(** ** The float grammar

    [digitpart ::= digit (["_"] digit)*].  [read_digits after l] reads the
    longest digit part at the head of [l]; [after] says a digit was read
    just before, which is when an underscore may separate two digits. *)
Fixpoint read_digits (after : bool) (l : list ascii) : list nat * list ascii :=
  match l with
  | c :: r =>
      match digit_val c with
      | Some d => let '(ds, rest) := read_digits true r in (d :: ds, rest)
      | None =>
          if after && Ascii.eqb c "_"%char then
            match r with
            | c' :: r' =>
                match digit_val c' with
                | Some d => let '(ds, rest) := read_digits true r' in (d :: ds, rest)
                | None => ([], l)
                end
            | [] => ([], l)
            end
          else ([], l)
      end
  | [] => ([], [])
  end.

Definition digits_value (ds : list nat) : Z :=
  fold_left (fun acc d => acc * 10 + Z.of_nat d)%Z ds 0%Z.

(** An optional sign; [true] when it is a minus. *)
Definition read_sign (l : list ascii) : bool * list ascii :=
  match l with
  | c :: r => if Ascii.eqb c "-"%char then (true, r)
              else if Ascii.eqb c "+"%char then (false, r) else (false, l)
  | [] => (false, [])
  end.

Definition is_exp_mark (c : ascii) : bool := Ascii.eqb c "e"%char || Ascii.eqb c "E"%char.

(** The exponent part and the end of input: [Some e] when the rest is empty
    ([e = 0]) or an exponent [("e"|"E") [sign] digitpart] followed by
    nothing. *)
Definition read_exponent (l : list ascii) : option Z :=
  match l with
  | [] => Some 0%Z
  | c :: r =>
      if is_exp_mark c then
        let '(neg, r1) := read_sign r in
        let '(ds, r2) := read_digits false r1 in
        match ds, r2 with
        | _ :: _, [] => Some (if neg then - digits_value ds else digits_value ds)%Z
        | _, _ => None
        end
      else None
  end.

(** [float(s)] on a string, after stripping: [[sign] (digitpart ["." [digitpart]]
    | "." digitpart) [exponent]], with at least one digit before the
    exponent.  The value is exact. *)
Definition parse_float_chars (l : list ascii) : option Q :=
  let '(neg, l1) := read_sign (strip l) in
  let '(ip, l2) := read_digits false l1 in
  let '(fp, l3) :=
    match l2 with
    | c :: r => if Ascii.eqb c "."%char then read_digits false r else ([], l2)
    | [] => ([], [])
    end in
  match ip ++ fp with
  | [] => None
  | mant =>
      match read_exponent l3 with
      | None => None
      | Some e =>
          let m := digits_value mant in
          Some (inject_Z (if neg then - m else m)%Z
                * Qpower 10 (e - Z.of_nat (List.length fp))%Z)
      end
  end.

Definition parse_float (s : string) : option Q := parse_float_chars (list_ascii_of_string s).

(** ** [float(x)] *)

(** The smallest integer magnitude that rounds to a double beyond the
    largest finite one: [float(n)] raises [OverflowError] from there on. *)
Definition float_int_limit : Z := (2 ^ 1024 - 2 ^ 970)%Z.

Definition py_float (v : pyval) : res Q :=
  match v with
  | PBool b => Ok (if b then 1 else 0)
  | PInt z => if (float_int_limit <=? Z.abs z)%Z then Raise OverflowError else Ok (inject_Z z)
  | PFloat q => Ok q
  | PStr s => match parse_float s with Some q => Ok q | None => Raise ValueError end
  | PNone | PList _ | PDict _ => Raise TypeError
  end.

(** ** Which exceptions the primitives raise *)

Lemma py_float_raise (v : pyval) (e : pyexc) :
  py_float v = Raise e -> e = ValueError \/ e = TypeError \/ e = OverflowError.
Proof.
  destruct v; simpl; try (intros [= <-]; tauto); try discriminate.
  - destruct (float_int_limit <=? Z.abs z)%Z; intros [= <-]; tauto.
  - destruct (parse_float s); intros [= <-]; tauto.
Qed.

Lemma py_index_raise (v : pyval) (i : nat) (e : pyexc) :
  py_index v i = Raise e -> e = IndexError \/ e = TypeError \/ e = KeyError.
Proof.
  destruct v; simpl; try (intros [= <-]; tauto).
  - destruct (String.get i s); intros [= <-]; tauto.
  - destruct (nth_error l i); intros [= <-]; tauto.
Qed.
