(* ===== verification/Normalize.v ===== *)
(** * Normalize: extracting the orientation scalar from a raw sample

    The program has two extractors, written inline in two loops:
    - [Listener.iottalk_gamma]: [src/Game.py], [iottalk_listener], lines
      36-60, the live controller's;
    - [TiltTest.tilt_test_extract]: [src/test_tilt_data.py], lines 133-229,
      the calibration script's.
    Both read a JSON value ([PyValue.pyval]) and either give a number,
    report the sample unusable, or let an exception escape their inner
    [try] blocks.  The theorems give each one's behaviour on every shape
    and show where the two disagree. *)

From Stdlib Require Import QArith Qabs Lqa ZArith Lia List Bool String Ascii.
From stdpp Require Import base gmap strings.
From S2P Require Import Prelude PyValue.
Import ListNotations.

Module Listener.

(** [Game.py] lines 36-60, for a sample [data] that is not [None]:
    [Ok (Some g)] is [gamma_value = g], [Ok None] leaves [gamma_value] at
    [None], and [Raise e] is an exception no inner [except] catches. *)
Definition iottalk_gamma (data : pyval) : res (option Q) :=
  match data with
  | PList (val :: _) =>
      if is_seq val && (3 <=? seq_len val)%nat then
        catch [ValueError; TypeError; IndexError] (let? x := py_index val 2 in py_float x)
      else if is_seq val && (1 <=? seq_len val)%nat then
        catch [ValueError; TypeError] (let? x := py_index val 0 in py_float x)
      else
        catch [ValueError; TypeError] (py_float val)
  | _ => Ok None
  end.

(** ** Behaviour of the listener's extractor *)

Lemma py_float_uncaught (hs : list pyexc) (v : pyval) (e : pyexc) :
  existsb (pyexc_eqb e) hs = false -> In ValueError hs -> In TypeError hs ->
  py_float v = Raise e -> e = OverflowError.
Proof.
  intros Hn HV HT H. apply py_float_raise in H as [->|[->| ->]]; auto;
    [rewrite existsb_pyexc_in in Hn by exact HV | rewrite existsb_pyexc_in in Hn by exact HT];
    discriminate.
Qed.

(** A nested reading [[alpha, beta, gamma, ...], ...] yields its third
    component, converted by [float()]; conversion failures leave [None]. *)
Theorem iottalk_gamma_nested_triple (x0 x1 x2 : pyval) (r rest : list pyval) :
  iottalk_gamma (PList (PList (x0 :: x1 :: x2 :: r) :: rest)) =
  catch [ValueError; TypeError; IndexError] (py_float x2).
Proof. reflexivity. Qed.

(** A flat reading [[a, b, c]] whose first element is not a list yields
    [float(a)], the first component, not the third. *)
Theorem iottalk_gamma_flat (x : pyval) (rest : list pyval) :
  is_seq x = false ->
  iottalk_gamma (PList (x :: rest)) = catch [ValueError; TypeError] (py_float x).
Proof. intros H. unfold iottalk_gamma. now rewrite H. Qed.

(** C24: the only exception that escapes the listener's inner [try] blocks
    is the [OverflowError] of [float()] on a huge integer. *)
Theorem iottalk_gamma_raise (data : pyval) (e : pyexc) :
  iottalk_gamma data = Raise e -> e = OverflowError.
Proof.
  unfold iottalk_gamma. destruct data as [| | | | |[|val rest]|]; try discriminate.
  destruct val as [| | | | |[|y0 [|y1 [|y2 ys]]]|]; cbn -[py_float catch]; intros Hr;
    apply catch_raise in Hr as [Hr Hn];
    exact (py_float_uncaught _ _ _ Hn ltac:(simpl; tauto) ltac:(simpl; tauto) Hr).
Qed.

(** The element of a sample the listener hands to [float()]: the third
    of a nested reading of three or more, the first of a shorter nested
    reading, or the first item itself; [None] when [data] is not a
    non-empty list. *)
Definition gamma_source (data : pyval) : option pyval :=
  match data with
  | PList (PList (_ :: _ :: x2 :: _) :: _) => Some x2
  | PList (PList (x0 :: _) :: _) => Some x0
  | PList (x :: _) => Some x
  | _ => None
  end.

(** The values [float()] rejects with a [ValueError] or a [TypeError]:
    [None], lists, dicts and strings that are not numbers. *)
Definition unconvertible (v : pyval) : bool :=
  match v with
  | PNone | PList _ | PDict _ => true
  | PStr s => match parse_float s with Some _ => false | None => true end
  | PBool _ | PInt _ | PFloat _ => false
  end.

Lemma unconvertible_catch (v : pyval) :
  unconvertible v = true <-> catch [ValueError; TypeError] (py_float v) = Ok None.
Proof.
  destruct v; cbn; try (split; reflexivity); try (split; discriminate).
  - destruct (float_int_limit <=? Z.abs z)%Z; cbn; split; discriminate.
  - destruct (parse_float s); cbn; split; (reflexivity || discriminate).
Qed.

Lemma catch_some {A : Type} (hs : list pyexc) (m : res A) (a : A) :
  catch hs m = Ok (Some a) -> m = Ok a.
Proof. destruct m as [a'|e]; cbn; [congruence|]. now destruct existsb. Qed.

(** The [IndexError] of the first [except] of lines 45-48 is never
    raised by [float()]. *)
Lemma catch_float_index (v : pyval) :
  catch [ValueError; TypeError; IndexError] (py_float v) = catch [ValueError; TypeError] (py_float v).
Proof.
  destruct (py_float v) as [q|e] eqn:E; [reflexivity|].
  apply py_float_raise in E as [->|[->| ->]]; reflexivity.
Qed.

(** The listener reads [float()] of [gamma_source data], handling its
    [ValueError] and [TypeError]. *)
Lemma iottalk_gamma_source (data : pyval) :
  iottalk_gamma data =
  match gamma_source data with
  | None => Ok None
  | Some v => catch [ValueError; TypeError] (py_float v)
  end.
Proof.
  destruct data as [| | | | |[|val rest]|]; try reflexivity.
  destruct val as [| | | | |[|y0 [|y1 [|y2 ys]]]|]; try reflexivity.
  apply catch_float_index.
Qed.

End Listener.

Module TiltTest.

(** [x[0] if len(x) > 0 else 0], applied by the source to an element [x]
    that is a list. *)
Definition unwrap_first (v : pyval) : pyval :=
  match v with
  | PList (x :: _) => x
  | PList [] => PInt 0
  | _ => v
  end.

(** The [direction_map] of lines 196-203. *)
Definition direction_map : gmap string Q :=
  list_to_map [("平躺", 0); ("橫擺", 0); ("左傾", -5); ("右傾", 5); ("直立", 0); ("倒立", 0)].

(** [direction_map.get(val, 0.0)]. *)
Definition direction_get (s : string) : Q :=
  match direction_map !! s with Some q => q | None => 0 end.

(** What one pass of lines 133-229 does with a sample: [XSkip] is a
    [continue]; [XValue raw alpha beta gamma data] reaches line 231 with
    [raw_value = raw], the three axis variables as assigned, and [data] as
    rebound by the unwrapping of line 151. *)
Inductive extract : Type :=
| XSkip
| XValue (raw : Q) (alpha beta gamma : option Q) (data : pyval).

Definition caught_VT (e : pyexc) : bool := existsb (pyexc_eqb e) [ValueError; TypeError].

(** Lines 177-186: after a [ValueError] or [TypeError] in the triple,
    [raw_value] falls back to the first element; the axis values keep what
    was assigned before the failure. *)
Definition triple_fallback (data x0 : pyval) (alpha beta : option Q) (e : pyexc) : res extract :=
  if caught_VT e then
    match py_float (unwrap_first x0) with
    | Ok r => Ok (XValue r alpha beta None data)
    | Raise e' => if caught_VT e' then Ok XSkip else Raise e'
    end
  else Raise e.

(** Lines 158-176: the three axes converted in order. *)
Definition triple (data x0 x1 x2 : pyval) : res extract :=
  match py_float (unwrap_first x0) with
  | Raise e => triple_fallback data x0 None None e
  | Ok a =>
      match py_float (unwrap_first x1) with
      | Raise e => triple_fallback data x0 (Some a) None e
      | Ok b =>
          match py_float (unwrap_first x2) with
          | Raise e => triple_fallback data x0 (Some a) (Some b) e
          | Ok g => Ok (XValue g (Some a) (Some b) (Some g) data)
          end
      end
  end.

(** Lines 187-215: a one-element sequence. *)
Definition single (data x : pyval) : res extract :=
  let val := unwrap_first x in
  match val with
  | PStr s => Ok (XValue (direction_get s) None None None data)
  | _ =>
      match py_float val with
      | Ok r => Ok (XValue r None None None data)
      | Raise e => if caught_VT e then Ok (XValue 0 None None None data) else Raise e
      end
  end.

(** Lines 146-229.  The unwrapping of line 151 happens once; the lengths
    [>= 3], [== 1] and the rest are the three list shapes below. *)
Definition tilt_test_extract (data0 : pyval) : res extract :=
  match data0 with
  | PList l0 =>
      let data := match l0 with
                  | (PList _ as inner) :: _ => inner
                  | _ => data0
                  end in
      match data with
      | PList (x0 :: x1 :: x2 :: _) => triple data x0 x1 x2
      | PList [x] => single data x
      | _ => Ok XSkip
      end
  | _ =>
      match py_float data0 with
      | Ok r => Ok (XValue r None None None data0)
      | Raise e => if caught_VT e then Ok XSkip else Raise e
      end
  end.

(** ** Behaviour of the calibration script's extractor *)

(** A [float()] whose [ValueError] and [TypeError] are handled lets only
    [OverflowError] through. *)
Ltac vt_finish Hr :=
  injection Hr as <-;
  eapply Listener.py_float_uncaught; [eassumption | simpl; tauto | simpl; tauto | eassumption].

Ltac vt_uncaught :=
  intros Hr;
  repeat match type of Hr with
  | context [py_float ?v] => let E := fresh "E" in destruct (py_float v) eqn:E; try discriminate
  | context [caught_VT ?e] => let C := fresh "C" in destruct (caught_VT e) eqn:C; try discriminate
  end;
  vt_finish Hr.

Lemma single_raise (data x : pyval) (e : pyexc) :
  single data x = Raise e -> e = OverflowError.
Proof. unfold single. destruct (unwrap_first x); try discriminate; vt_uncaught. Qed.

Lemma triple_fallback_raise (data x0 : pyval) (a b : option Q) (e0 e : pyexc) :
  (e0 = ValueError \/ e0 = TypeError \/ e0 = OverflowError) ->
  triple_fallback data x0 a b e0 = Raise e -> e = OverflowError.
Proof.
  unfold triple_fallback, caught_VT. intros He0.
  destruct (existsb _ _) eqn:C0.
  - destruct (py_float (unwrap_first x0)) as [r|e1] eqn:E; [discriminate|].
    destruct (existsb (pyexc_eqb e1) [ValueError; TypeError]) eqn:C1; [discriminate|].
    intros [= <-]. exact (Listener.py_float_uncaught _ _ _ C1 ltac:(simpl; tauto) ltac:(simpl; tauto) E).
  - intros [= <-]. destruct He0 as [->|[->| ->]]; [discriminate | discriminate | reflexivity].
Qed.

Lemma triple_raise (data x0 x1 x2 : pyval) (e : pyexc) :
  triple data x0 x1 x2 = Raise e -> e = OverflowError.
Proof.
  unfold triple. repeat case_match; try discriminate; intros Hr;
    exact (triple_fallback_raise _ _ _ _ _ _ ltac:(eapply py_float_raise; eassumption) Hr).
Qed.

(** The only exception that escapes the script's inner [try] blocks is
    the [OverflowError] of [float()] on a huge integer; it reaches the
    loop's outer [except Exception] handler. *)
Theorem tilt_test_extract_raise (data : pyval) (e : pyexc) :
  tilt_test_extract data = Raise e -> e = OverflowError.
Proof.
  unfold tilt_test_extract. destruct data as [| | | | |l0|]; try vt_uncaught.
  destruct l0 as [|y l0]; [discriminate|].
  destruct y; cbv zeta;
    repeat match goal with
    | |- context [match ?l with [] => _ | _ :: _ => _ end] => is_var l; destruct l
    end;
    try discriminate; first [apply single_raise | apply triple_raise].
Qed.

(** C21: one level of nesting is transparent: [[[x, ...], ...]] is read as
    [[x, ...]] when [x] is not itself a list (elements after the first
    inner list are ignored). *)
Theorem tilt_test_extract_unwrap (l rest : list pyval) :
  is_seq (hd PNone l) = false ->
  tilt_test_extract (PList (PList l :: rest)) = tilt_test_extract (PList l).
Proof. destruct l as [|y l]; [reflexivity|]. destruct y; simpl; congruence. Qed.

(** C22: a one-element list holding a string goes through [direction_map]
    with default [0.0]: an unknown label, or a numeric string, reads as
    [0], not as an unusable sample. *)
Theorem tilt_test_extract_unknown_label (s : string) :
  direction_map !! s = None ->
  tilt_test_extract (PList [PStr s]) = Ok (XValue 0 None None None (PList [PStr s])).
Proof. intros H. cbn. unfold direction_get. now rewrite H. Qed.

(** C23: when the first axis of a reading of three or more converts and
    a later one (the second, or the third after the second converted)
    raises a [ValueError] or [TypeError], the first axis is recorded as
    the reading, with the axes converted before the failure kept and the
    failed and later ones left unset. *)
Theorem tilt_test_extract_fallback (x0 x1 x2 : pyval) (r : list pyval) (a : Q) :
  is_seq x0 = false -> py_float x0 = Ok a ->
  (forall e, py_float (unwrap_first x1) = Raise e -> caught_VT e = true ->
     tilt_test_extract (PList (x0 :: x1 :: x2 :: r)) =
     Ok (XValue a (Some a) None None (PList (x0 :: x1 :: x2 :: r)))) /\
  (forall b e, py_float (unwrap_first x1) = Ok b ->
     py_float (unwrap_first x2) = Raise e -> caught_VT e = true ->
     tilt_test_extract (PList (x0 :: x1 :: x2 :: r)) =
     Ok (XValue a (Some a) (Some b) None (PList (x0 :: x1 :: x2 :: r)))).
Proof.
  intros Hs Ha.
  assert (Hu : unwrap_first x0 = x0) by (destruct x0; try discriminate; reflexivity).
  assert (Hd : tilt_test_extract (PList (x0 :: x1 :: x2 :: r)) =
               triple (PList (x0 :: x1 :: x2 :: r)) x0 x1 x2)
    by (destruct x0; try discriminate; reflexivity).
  rewrite Hd. unfold triple, triple_fallback. rewrite Hu, Ha.
  split; [intros e He Hc | intros b e Hb He Hc]; rewrite ?Hb, He, Hc; reflexivity.
Qed.

End TiltTest.

(** ** The two extractors compared *)

(** On a flat triple of numbers the live controller reads the first
    component and the calibration script the third, while on the nested
    triple both read the third. *)
Theorem extractors_on_triples (a b c : Q) :
  Listener.iottalk_gamma (PList [PFloat a; PFloat b; PFloat c]) = Ok (Some a) /\
  TiltTest.tilt_test_extract (PList [PFloat a; PFloat b; PFloat c]) =
    Ok (TiltTest.XValue c (Some a) (Some b) (Some c) (PList [PFloat a; PFloat b; PFloat c])) /\
  Listener.iottalk_gamma (PList [PList [PFloat a; PFloat b; PFloat c]]) = Ok (Some c) /\
  TiltTest.tilt_test_extract (PList [PList [PFloat a; PFloat b; PFloat c]]) =
    Ok (TiltTest.XValue c (Some a) (Some b) (Some c) (PList [PFloat a; PFloat b; PFloat c])).
Proof. repeat split. Qed.

(** ** Witnesses on concrete samples *)

Lemma iottalk_gamma_flat_witness :
  is_seq (PFloat 1) = false /\
  Listener.iottalk_gamma (PList [PFloat 1; PFloat 2; PFloat 3]) =
    catch [ValueError; TypeError] (py_float (PFloat 1)).
Proof. split; [reflexivity | apply Listener.iottalk_gamma_flat; reflexivity]. Defined.

Lemma iottalk_gamma_raise_witness :
  Listener.iottalk_gamma (PList [PList [PInt 0; PInt 0; PInt (2 ^ 1024)%Z]]) = Raise OverflowError /\
  OverflowError = OverflowError.
Proof.
  split; [vm_compute; reflexivity|].
  apply (Listener.iottalk_gamma_raise (PList [PList [PInt 0; PInt 0; PInt (2 ^ 1024)%Z]])).
  vm_compute; reflexivity.
Defined.

Lemma tilt_test_extract_raise_witness :
  TiltTest.tilt_test_extract (PList [PInt (2 ^ 1024)%Z]) = Raise OverflowError /\
  OverflowError = OverflowError.
Proof.
  split; [vm_compute; reflexivity|].
  apply (TiltTest.tilt_test_extract_raise (PList [PInt (2 ^ 1024)%Z])).
  vm_compute; reflexivity.
Defined.

Lemma tilt_test_extract_unwrap_witness :
  is_seq (hd PNone [PFloat 1; PFloat 2; PFloat 3]) = false /\
  TiltTest.tilt_test_extract (PList [PList [PFloat 1; PFloat 2; PFloat 3]]) =
    TiltTest.tilt_test_extract (PList [PFloat 1; PFloat 2; PFloat 3]).
Proof. split; [reflexivity | apply (TiltTest.tilt_test_extract_unwrap _ []); reflexivity]. Defined.

Lemma tilt_test_extract_unknown_label_witness :
  TiltTest.direction_map !! "unknown_label"%string = None /\
  TiltTest.tilt_test_extract (PList [PStr "unknown_label"]) =
    Ok (TiltTest.XValue 0 None None None (PList [PStr "unknown_label"])).
Proof.
  split; [vm_compute; reflexivity|].
  apply TiltTest.tilt_test_extract_unknown_label. vm_compute; reflexivity.
Defined.

Lemma tilt_test_extract_fallback_witness :
  TiltTest.tilt_test_extract (PList [PFloat 1; PFloat 2; PStr "x"]) =
    Ok (TiltTest.XValue 1 (Some 1) (Some 2) None (PList [PFloat 1; PFloat 2; PStr "x"])).
Proof.
  apply (proj2 (TiltTest.tilt_test_extract_fallback (PFloat 1) (PFloat 2) (PStr "x") [] 1 eq_refl eq_refl) 2 ValueError);
    vm_compute; reflexivity.
Defined.
