(* ===== verification/TiltController.v ===== *)
(** * TiltController: the background listener of [src/Game.py]

    [iottalk_listener] (lines 23-97) polls [DAN.pull('Dummy_Control')]
    forever and is the only writer of the global [current_tilt].  One pass
    of its loop is [listener_writes]: the assignments it makes to
    [current_tilt], in order, and the pause it takes after them.  The
    dead-zone / scale / clamp arithmetic of lines 62-91 is [tilt_of_gamma],
    over a record of the three constants so that calibrated values can be
    plugged in ([Calibration] derives them). *)

From Stdlib Require Import String QArith Qabs Lqa ZArith Lia List Bool.
From S2P Require Import Prelude PyValue Normalize.
Import ListNotations.

(** The three constants of lines 75, 81 and 88. *)
Record tilt_params : Type := {
  baseline : Q;
  dead_zone : Q;
  scale_factor : Q
}.

Definition game_params : tilt_params :=
  {| baseline := -0.88; dead_zone := 1.3; scale_factor := 0.77 |}.

(** The outcome of [DAN.pull]: it raised, it returned [None], or data. *)
Inductive pull_result : Type :=
| PullRaised
| PullNone
| PullData (v : pyval).

(** The pause that ends a pass: [time.sleep(0.02)] or, after an exception,
    [time.sleep(1)]. *)
Inductive pause : Type :=
| Tick
| Backoff.

(** Lines 78-91 without the intermediate store: the value [current_tilt]
    holds once the pass is over. *)
Definition tilt_of_gamma (p : tilt_params) (g : Q) : Q :=
  let offset := g - baseline p in
  if qltb (Qabs offset) (dead_zone p) then 0
  else clamp (-10) 10 (offset * scale_factor p).

(** Lines 78-91 as the source writes them: in the live branch
    [current_tilt] first receives [offset * scale_factor] (line 89) and
    then its clamped value (line 91). *)
Definition gamma_writes (p : tilt_params) (g : Q) : list Q :=
  let offset := g - baseline p in
  if qltb (Qabs offset) (dead_zone p) then [0]
  else let raw := offset * scale_factor p in [raw; clamp (-10) 10 raw].

(** One pass of the [while True] loop, lines 33-97: the assignments to
    [current_tilt] in order and the pause taken.  A pull that raises, and
    the [OverflowError] that escapes the extraction, are caught by the
    [except Exception] of line 95. *)
Definition listener_writes (p : tilt_params) (r : pull_result) : list Q * pause :=
  match r with
  | PullRaised => ([], Backoff)
  | PullNone => ([], Tick)
  | PullData data =>
      match Listener.iottalk_gamma data with
      | Raise _ => ([], Backoff)
      | Ok None => ([0], Tick)
      | Ok (Some g) => (gamma_writes p g, Tick)
      end
  end.

(** The value of [current_tilt] after the pass. *)
Definition listener_step (p : tilt_params) (current_tilt : Q) (r : pull_result) : Q :=
  last (fst (listener_writes p r)) current_tilt.

(** The loop run over a sequence of pull results. *)
Definition run_listener (p : tilt_params) (current_tilt : Q) (rs : list pull_result) : Q :=
  fold_left (listener_step p) rs current_tilt.

(** ** The pass computes [tilt_of_gamma] *)

Lemma gamma_writes_last (p : tilt_params) (g d : Q) :
  last (gamma_writes p g) d = tilt_of_gamma p g.
Proof. unfold gamma_writes, tilt_of_gamma. now destruct qltb. Qed.

#[export] Instance tilt_of_gamma_Proper (p : tilt_params) : Proper (Qeq ==> Qeq) (tilt_of_gamma p).
Proof.
  intros g g' Hg. unfold tilt_of_gamma; cbv zeta.
  assert (Hb : qltb (Qabs (g - baseline p)) (dead_zone p) = qltb (Qabs (g' - baseline p)) (dead_zone p))
    by (now rewrite Hg).
  rewrite Hb. clear Hb. destruct (qltb (Qabs (g' - baseline p)) (dead_zone p)); [reflexivity|]. now rewrite Hg.
Qed.

(** C1: the value the listener leaves in [current_tilt] for a reading
    always lies in [[-10, 10]], whatever the constants. *)
Theorem tilt_of_gamma_range (p : tilt_params) (g : Q) :
  -10 <= tilt_of_gamma p g <= 10.
Proof.
  unfold tilt_of_gamma. destruct qltb; [lra | apply clamp_bounds; lra].
Qed.

(** The functional behaviour of one pass on each outcome of the pull. *)
Lemma listener_step_data (p : tilt_params) (t : Q) (data : pyval) :
  listener_step p t (PullData data) =
  match Listener.iottalk_gamma data with
  | Raise _ => t
  | Ok None => 0
  | Ok (Some g) => tilt_of_gamma p g
  end.
Proof.
  unfold listener_step, listener_writes. destruct Listener.iottalk_gamma as [[g|]|]; simpl; auto.
  apply gamma_writes_last.
Qed.

(** One pass keeps [current_tilt] in [[-10, 10]]. *)
Lemma listener_step_range (p : tilt_params) (t : Q) (r : pull_result) :
  -10 <= t <= 10 -> -10 <= listener_step p t r <= 10.
Proof.
  intros Ht. destruct r as [| |data]; try exact Ht.
  rewrite listener_step_data. destruct Listener.iottalk_gamma as [[g|]|]; auto.
  - apply tilt_of_gamma_range.
  - lra.
Qed.

(** C2: once [current_tilt] is in [[-10, 10]] every run of the loop keeps
    it there, whatever the sequence of pulls. *)
Theorem run_listener_range (p : tilt_params) (t0 : Q) (rs : list pull_result) :
  -10 <= t0 <= 10 -> -10 <= run_listener p t0 rs <= 10.
Proof.
  unfold run_listener. revert t0. induction rs as [|r rs IH]; intros t0 Ht; simpl; auto.
  apply IH, listener_step_range, Ht.
Qed.

(** C3: a pass writes the single value [0] to [current_tilt] exactly when
    the pull returned a sample and that sample is unusable (not a
    non-empty list, or the element the listener reads is rejected by
    [float()]) or its reading lies inside the dead zone; a pull that
    returns [None] writes nothing at all. *)
Theorem listener_writes_zero (p : tilt_params) (r : pull_result) :
  fst (listener_writes p r) = [0] <->
  exists data, r = PullData data /\
    match Listener.gamma_source data with
    | None => True
    | Some v => Listener.unconvertible v = true \/
                exists g, py_float v = Ok g /\ Qabs (g - baseline p) < dead_zone p
    end.
Proof.
  destruct r as [| |data]; cbn [listener_writes fst];
    [split; [discriminate | intros (d & [=] & _)] .. |].
  set (P := fun d => match Listener.gamma_source d with
                    | None => True
                    | Some v => Listener.unconvertible v = true \/
                                exists g, py_float v = Ok g /\ Qabs (g - baseline p) < dead_zone p
                    end).
  enough (H : fst (listener_writes p (PullData data)) = [0] <-> P data)
    by (rewrite H; split; [eauto | intros (d & [= <-] & Hd); exact Hd]).
  subst P; cbn beta. cbn [listener_writes]. rewrite Listener.iottalk_gamma_source.
  destruct (Listener.gamma_source data) as [v|]; [|split; reflexivity].
  destruct (catch [ValueError; TypeError] (py_float v)) as [[g|]|e] eqn:C.
  - apply Listener.catch_some in C as Hg.
    assert (Hu : Listener.unconvertible v = false)
      by (apply not_true_is_false; rewrite Listener.unconvertible_catch, C; discriminate).
    rewrite Hu. unfold gamma_writes; cbv zeta.
    destruct (qltb_spec (Qabs (g - baseline p)) (dead_zone p)) as [H|H].
    + split; [intros _; eauto | reflexivity].
    + split; [discriminate|]. intros [[=]|(g' & Hg' & Hd)].
      rewrite Hg in Hg'. injection Hg' as <-. lra.
  - apply Listener.unconvertible_catch in C. split; [auto | reflexivity].
  - assert (Hu : Listener.unconvertible v = false)
      by (apply not_true_is_false; rewrite Listener.unconvertible_catch, C; discriminate).
    rewrite Hu. split; [discriminate|]. intros [[=]|(g' & Hg' & _)].
    rewrite Hg' in C. discriminate.
Qed.

(** A fault (an exception escaping the extraction) writes nothing,
    leaves [current_tilt] unchanged and backs off for a second. *)
Theorem listener_step_fault (p : tilt_params) (t : Q) (data : pyval) (e : pyexc) :
  Listener.iottalk_gamma data = Raise e ->
  listener_writes p (PullData data) = ([], Backoff) /\ listener_step p t (PullData data) = t.
Proof. intros H. unfold listener_step, listener_writes. now rewrite H. Qed.

(** The functional examples of the controller with the constants of
    [Game.py]: the reading [0.5] gives [1.38 * 0.77 = 1.0626], the reading
    [-0.5] falls in the dead zone. *)
Theorem tilt_of_gamma_game_examples :
  tilt_of_gamma game_params 0.5 == 1.0626 /\ tilt_of_gamma game_params (-0.5) == 0.
Proof. split; vm_compute; reflexivity. Qed.

Section Params.
Variable p : tilt_params.
Hypothesis dead_zone_nonneg : 0 <= dead_zone p.
Hypothesis scale_pos : 0 < scale_factor p.

(** A value is either [0] or at least [dead_zone * scale_factor] in
    magnitude. *)
Definition zero_or_large (x : Q) : Prop := x == 0 \/ dead_zone p * scale_factor p <= Qabs x.

(** Every value a pass writes, the intermediate unclamped one included, is
    [0] or large. *)
Lemma gamma_writes_gap (g : Q) :
  dead_zone p * scale_factor p <= 10 -> Forall zero_or_large (gamma_writes p g).
Proof.
  intros Hc. unfold gamma_writes, zero_or_large; cbv zeta.
  destruct (qltb_spec (Qabs (g - baseline p)) (dead_zone p)) as [H|H].
  - constructor; [left; reflexivity | constructor].
  - constructor; [right | constructor; [right | constructor]];
      [| clamp_cases]; qabs_elim; nra.
Qed.

(** C26: outside the dead zone the output never falls below
    [dead_zone * scale_factor] in magnitude (when that product is at most
    the clamp bound): a non-zero control value is at least that large. *)
Theorem tilt_of_gamma_gap (g : Q) :
  dead_zone p * scale_factor p <= 10 ->
  tilt_of_gamma p g == 0 \/ dead_zone p * scale_factor p <= Qabs (tilt_of_gamma p g).
Proof.
  intros Hc. rewrite <- (gamma_writes_last p g 0).
  pose proof (gamma_writes_gap g Hc) as H. unfold gamma_writes in *; cbv zeta in *.
  destruct qltb; [left; reflexivity|].
  inversion H as [|? ? _ H']. inversion H'. assumption.
Qed.

(** The controller is monotone: a larger reading never gives a
    smaller control value. *)
Theorem tilt_of_gamma_monotone (g1 g2 : Q) :
  g1 <= g2 -> tilt_of_gamma p g1 <= tilt_of_gamma p g2.
Proof.
  intros Hg. unfold tilt_of_gamma; cbv zeta.
  destruct (qltb_spec (Qabs (g1 - baseline p)) (dead_zone p)) as [H1|H1];
    destruct (qltb_spec (Qabs (g2 - baseline p)) (dead_zone p)) as [H2|H2];
    clamp_cases; qabs_elim; nra.
Qed.

(** An offset whose scaled value reaches the bound is clamped to
    exactly [10] (or [-10] on the other side). *)
Theorem tilt_of_gamma_saturates (g : Q) :
  dead_zone p <= Qabs (g - baseline p) ->
  (10 <= (g - baseline p) * scale_factor p -> tilt_of_gamma p g == 10) /\
  ((g - baseline p) * scale_factor p <= -10 -> tilt_of_gamma p g == -10).
Proof.
  intros Hd. unfold tilt_of_gamma; cbv zeta.
  destruct (qltb_spec (Qabs (g - baseline p)) (dead_zone p)) as [H|H]; [lra|].
  split; intros; [apply clamp_hi | apply clamp_lo]; lra.
Qed.
End Params.

(** ** Witnesses on concrete passes *)

Lemma run_listener_range_witness :
  -10 <= run_listener game_params 0 [PullData (PList [PList [PFloat 0; PFloat 0; PFloat 100]]); PullNone]
    <= 10.
Proof. apply run_listener_range. split; vm_compute; discriminate. Defined.

Lemma listener_writes_zero_witness :
  fst (listener_writes game_params (PullData (PList [PStr "左傾"%string]))) = [0] /\
  ~ (fst (listener_writes game_params PullNone) = [0]).
Proof.
  split.
  - apply listener_writes_zero. exists (PList [PStr "左傾"%string]). split; [reflexivity|].
    left. vm_compute. reflexivity.
  - intros H. apply listener_writes_zero in H as (d & [=] & _).
Defined.

Lemma listener_step_fault_witness :
  listener_writes game_params (PullData (PList [PList [PInt 0; PInt 0; PInt (2 ^ 1024)%Z]])) =
    ([], Backoff) /\
  listener_step game_params 3 (PullData (PList [PList [PInt 0; PInt 0; PInt (2 ^ 1024)%Z]])) = 3.
Proof. apply (listener_step_fault _ _ _ OverflowError). vm_compute; reflexivity. Defined.

Lemma tilt_of_gamma_gap_witness :
  tilt_of_gamma game_params 0.5 == 0 \/
  dead_zone game_params * scale_factor game_params <= Qabs (tilt_of_gamma game_params 0.5).
Proof. apply tilt_of_gamma_gap; vm_compute; try discriminate; reflexivity. Defined.

Lemma tilt_of_gamma_monotone_witness :
  tilt_of_gamma game_params 0 <= tilt_of_gamma game_params 2.
Proof. apply tilt_of_gamma_monotone; vm_compute; try discriminate; reflexivity. Defined.

Lemma tilt_of_gamma_saturates_witness : tilt_of_gamma game_params 20 == 10.
Proof.
  refine (proj1 (tilt_of_gamma_saturates game_params 20 _) _);
    [vm_compute; discriminate | cbn; lra].
Defined.
