(* ===== verification/Stats.v ===== *)
(** * Stats: the descriptive statistics of the calibration report

    [print_statistics] of [src/test_tilt_data.py] (lines 65-79) and the
    overall report (lines 334-343) use Python's [min], [max] and the
    [statistics] module.  [statistics.mean], [median] and [stdev] compute
    on exact fractions, so the rational model is exact; [stdev] is the
    square root of [sample_variance], which is what is modelled (the square
    root itself is not a rational function). *)

From Stdlib Require Import QArith Qabs Lqa Psatz ZArith Lia List Bool Sorting Permutation.
From S2P Require Import Prelude.
Import ListNotations.

(** [sorted(values)]: an insertion sort, stable like Python's. *)
Fixpoint insert_q (x : Q) (l : list Q) : list Q :=
  match l with
  | [] => [x]
  | y :: ys => if Qle_bool x y then x :: y :: ys else y :: insert_q x ys
  end.

Definition sort_q (l : list Q) : list Q := fold_right insert_q [] l.

(** [min(values)] and [max(values)]: the first extreme element. *)
Definition list_min (l : list Q) : option Q :=
  match l with [] => None | x :: xs => Some (fold_left py_min xs x) end.

Definition list_max (l : list Q) : option Q :=
  match l with [] => None | x :: xs => Some (fold_left py_max xs x) end.

Definition sum_q (l : list Q) : Q := fold_right Qplus 0 l.

Definition len_q (l : list Q) : Q := inject_Z (Z.of_nat (length l)).

(** [statistics.mean(values)] (the callers never pass an empty list). *)
Definition mean (l : list Q) : Q := sum_q l / len_q l.

(** [statistics.median(values)]: the middle of the sorted data, or the
    average of the two middle values when the length is even. *)
Definition median (l : list Q) : Q :=
  let s := sort_q l in
  let n := length s in
  if Nat.odd n then nth (n / 2) s 0
  else (nth (n / 2 - 1) s 0 + nth (n / 2) s 0) / 2.

(** [statistics.variance(values)], the square of [statistics.stdev]. *)
Definition sample_variance (l : list Q) : Q :=
  let m := mean l in
  sum_q (map (fun x => (x - m) * (x - m)) l) / (len_q l - 1).

(** What one [print_statistics] call prints. *)
Record stats : Type := {
  st_count : nat;
  st_min : Q;
  st_max : Q;
  st_mean : Q;
  st_median : Q;
  st_variance : option Q;  (** printed as [stdev] when [len(values) > 1] *)
  st_range : Q
}.

(** Lines 65-79: nothing for an empty list, the statistics otherwise. *)
Definition print_statistics (values : list Q) : option stats :=
  match list_min values, list_max values with
  | Some lo, Some hi =>
      Some {| st_count := length values;
              st_min := lo; st_max := hi;
              st_mean := mean values;
              st_median := median values;
              st_variance := if (1 <? length values)%nat then Some (sample_variance values) else None;
              st_range := hi - lo |}
  | _, _ => None
  end.

(** ** Sorting *)

Lemma insert_q_perm (x : Q) (l : list Q) : Permutation (x :: l) (insert_q x l).
Proof.
  induction l as [|y ys IH]; simpl; [reflexivity|].
  destruct (Qle_bool x y); [reflexivity|].
  rewrite perm_swap. now constructor.
Qed.

Lemma sort_q_perm (l : list Q) : Permutation l (sort_q l).
Proof.
  induction l as [|x l IH]; simpl; [reflexivity|].
  rewrite <- insert_q_perm. now constructor.
Qed.

Lemma insert_q_sorted (x : Q) (l : list Q) : Sorted Qle l -> Sorted Qle (insert_q x l).
Proof.
  induction 1 as [|y ys Hs IH Hh]; simpl; [repeat constructor|].
  destruct (Qle_bool x y) eqn:E.
  - apply Qle_bool_iff in E. repeat constructor; auto.
  - assert (Hyx : y <= x) by (apply Qlt_le_weak, Qnot_le_lt; rewrite <- Qle_bool_iff; congruence).
    constructor; [exact IH|].
    destruct ys as [|z zs]; simpl; [now repeat constructor|].
    inversion Hh; subst. destruct (Qle_bool x z); now constructor.
Qed.

Lemma sort_q_sorted (l : list Q) : Sorted Qle (sort_q l).
Proof. induction l; simpl; [constructor | now apply insert_q_sorted]. Qed.

(** ** Extremes *)

Lemma fold_min_spec (xs : list Q) (a : Q) :
  In (fold_left py_min xs a) (a :: xs) /\ Forall (Qle (fold_left py_min xs a)) (a :: xs).
Proof.
  revert a. induction xs as [|x xs IH]; intros a; simpl.
  - split; [auto | constructor; [apply Qle_refl | constructor]].
  - destruct (IH (py_min a x)) as [Hin Hle]. split.
    + destruct Hin as [<-|Hin]; [unfold py_min; destruct qltb; simpl; auto | simpl; auto].
    + inversion Hle as [|? ? Hm Hr]; subst.
      constructor; [eapply Qle_trans; [exact Hm | apply py_min_le_l]|].
      constructor; [eapply Qle_trans; [exact Hm | apply py_min_le_r] | exact Hr].
Qed.

Lemma fold_max_spec (xs : list Q) (a : Q) :
  In (fold_left py_max xs a) (a :: xs) /\ Forall (fun y => y <= fold_left py_max xs a) (a :: xs).
Proof.
  revert a. induction xs as [|x xs IH]; intros a; simpl.
  - split; [auto | constructor; [apply Qle_refl | constructor]].
  - destruct (IH (py_max a x)) as [Hin Hle]. split.
    + destruct Hin as [<-|Hin]; [unfold py_max; destruct qltb; simpl; auto | simpl; auto].
    + inversion Hle as [|? ? Hm Hr]; subst.
      constructor; [eapply Qle_trans; [apply py_max_ge_l | exact Hm]|].
      constructor; [eapply Qle_trans; [apply py_max_ge_r | exact Hm] | exact Hr].
Qed.

Lemma list_min_spec (l : list Q) (m : Q) :
  list_min l = Some m -> In m l /\ forall x, In x l -> m <= x.
Proof.
  destruct l as [|a xs]; simpl; [discriminate|]. intros [= <-].
  destruct (fold_min_spec xs a) as [Hin Hle]. split; [exact Hin|].
  intros x Hx. rewrite Forall_forall in Hle. auto.
Qed.

Lemma list_max_spec (l : list Q) (m : Q) :
  list_max l = Some m -> In m l /\ forall x, In x l -> x <= m.
Proof.
  destruct l as [|a xs]; simpl; [discriminate|]. intros [= <-].
  destruct (fold_max_spec xs a) as [Hin Hle]. split; [exact Hin|].
  intros x Hx. rewrite Forall_forall in Hle. auto.
Qed.

(** ** Averages lie between the extremes *)

Lemma len_q_pos (l : list Q) : l <> [] -> 0 < len_q l.
Proof.
  destruct l as [|x l]; [congruence|]. intros _. unfold len_q, Qlt. simpl. lia.
Qed.

Lemma sum_q_bounds (lo hi : Q) (l : list Q) :
  (forall x, In x l -> lo <= x <= hi) -> lo * len_q l <= sum_q l <= hi * len_q l.
Proof.
  unfold len_q. induction l as [|x l IH]; intros H.
  - unfold inject_Z. simpl. lra.
  - change (length (x :: l)) with (S (length l)).
    rewrite Nat2Z.inj_succ, <- Z.add_1_r, inject_Z_plus.
    change (sum_q (x :: l)) with (x + sum_q l).
    assert (Hx := H x (or_introl eq_refl)).
    assert (IH' := IH (fun y Hy => H y (or_intror Hy))).
    change (inject_Z 1) with 1. lra.
Qed.

Lemma mean_bounds (lo hi : Q) (l : list Q) :
  l <> [] -> (forall x, In x l -> lo <= x <= hi) -> lo <= mean l <= hi.
Proof.
  intros Hne H. pose proof (len_q_pos l Hne) as Hn. pose proof (sum_q_bounds lo hi l H).
  unfold mean. split.
  - apply Qle_shift_div_l; lra.
  - apply Qle_shift_div_r; lra.
Qed.

Lemma median_bounds (lo hi : Q) (l : list Q) :
  l <> [] -> (forall x, In x l -> lo <= x <= hi) -> lo <= median l <= hi.
Proof.
  intros Hne H.
  assert (Hs : forall i, (i < length (sort_q l))%nat -> lo <= nth i (sort_q l) 0 <= hi).
  { intros i Hi. apply H. eapply Permutation_in; [symmetry; apply sort_q_perm | now apply nth_In]. }
  assert (Hlen : (1 <= length (sort_q l))%nat).
  { rewrite <- (Permutation_length (sort_q_perm l)). destruct l; [congruence | simpl; lia]. }
  unfold median. set (n := length (sort_q l)) in *.
  destruct (Nat.odd n) eqn:Ho.
  - apply Hs. apply Nat.div_lt; lia.
  - assert (n <> 1%nat) by (intros E; rewrite E in Ho; discriminate).
    assert (Ha := Hs (n / 2 - 1)%nat ltac:(pose proof (Nat.div_lt n 2 ltac:(lia) ltac:(lia)); lia)).
    assert (Hb := Hs (n / 2)%nat ltac:(apply Nat.div_lt; lia)).
    split; [apply Qle_shift_div_l | apply Qle_shift_div_r]; lra.
Qed.

(** C35: every statistic [print_statistics] reports is consistent: the
    minimum and maximum are elements, the mean and median lie between them
    and the range is non-negative. *)
Theorem print_statistics_sound (values : list Q) (st : stats) :
  print_statistics values = Some st ->
  st_count st = length values /\ In (st_min st) values /\ In (st_max st) values /\
  st_min st <= st_mean st <= st_max st /\ st_min st <= st_median st <= st_max st /\
  0 <= st_range st.
Proof.
  unfold print_statistics.
  destruct (list_min values) as [lo|] eqn:Hlo; [|discriminate].
  destruct (list_max values) as [hi|] eqn:Hhi; [|discriminate]. intros [= <-]. simpl.
  apply list_min_spec in Hlo as [Hlo Hlo']. apply list_max_spec in Hhi as [Hhi Hhi'].
  assert (Hne : values <> []) by (intros ->; destruct Hlo).
  assert (Hb : forall x, In x values -> lo <= x <= hi) by (intros x Hx; split; auto).
  pose proof (Hlo' hi Hhi).
  split; [reflexivity|]. split; [exact Hlo|]. split; [exact Hhi|].
  split; [now apply mean_bounds|]. split; [now apply median_bounds|]. lra.
Qed.

(** ** Witness *)

Lemma print_statistics_sound_witness :
  exists st, print_statistics [3; 1; 2] = Some st /\
    st_count st = 3%nat /\ st_min st <= st_median st <= st_max st /\
    st_min st <= st_mean st <= st_max st.
Proof.
  eexists. split; [reflexivity|].
  destruct (print_statistics_sound [3; 1; 2] _ eq_refl) as (Hc & _ & _ & Hmean & Hmed & _).
  auto.
Defined.
