(* ===== verification/Calibration.v ===== *)
(** * Calibration: the timed phases of [src/test_tilt_data.py]

    The script's main loop (lines 90-313) is a state machine over
    [session]: each pass pulls one sample, extracts a reading
    ([Normalize.TiltTest.tilt_test_extract]), records it in the current
    phase and, when the phase's time is up, closes the phase (its
    statistics are printed) and moves to the next one.  [cal_tick] is one
    pass, [run_session] the loop up to its [break]. *)

From Stdlib Require Import String QArith Qabs Lqa ZArith Lia List Bool.
From S2P Require Import Prelude PyValue Normalize TiltController Stats.
Import ListNotations.
Open Scope Q_scope.

(** The [phases] list of lines 82-88: label and duration in seconds. *)
Definition phases : list (string * Q) :=
  [("保持水平（基準）"%string, 5); ("向右傾斜到極限"%string, 8); ("回到水平"%string, 3);
   ("向左傾斜到極限"%string, 8); ("回到水平"%string, 3)].

(** The dict built at lines 242-251. *)
Record data_point : Type := {
  dp_time : Q;
  dp_value : Q;
  dp_phase : string;
  dp_raw : pyval;
  dp_alpha : option Q;
  dp_beta : option Q;
  dp_gamma : option Q;
  dp_direction : option string
}.

(** The loop's variables: [all_data], [current_session], [phase_index],
    [phase_start_time], [first_data_received] and [data_window]. *)
Record session : Type := {
  all_data : list data_point;
  current_session : list data_point;
  phase_index : nat;
  phase_start_time : Q;
  first_data_received : bool;
  data_window : list Q
}.

(** Lines 57-98, with [time.time()] read as [t0]. *)
Definition init_session (t0 : Q) : session :=
  {| all_data := []; current_session := []; phase_index := 0;
     phase_start_time := t0; first_data_received := false; data_window := [] |}.

(** [deque(maxlen=10).append(x)]: append, then drop from the left down to
    ten elements. *)
Definition window_push (w : list Q) (x : Q) : list Q :=
  let w' := w ++ [x] in skipn (length w' - 10) w'.

(** Lines 237-240 and 246: the direction string and the raw data kept. *)
Definition direction_of (data : pyval) : option string :=
  match data with PList (PStr s :: _) => Some s | _ => None end.

Definition raw_data_of (data : pyval) : pyval :=
  if is_seq data then data else PList [data].

(** One input of a pass: the user's [KeyboardInterrupt], or the result of
    [DAN.pull] together with the clock [time.time()] of that pass. *)
Inductive cal_input : Type :=
| CInterrupt
| CPull (r : pull_result) (now : Q).

(** How a pass ends: [time.sleep(0.1); continue] while waiting for the
    first data, a bare [continue], [time.sleep(0.05)], the [except
    Exception] handler's [time.sleep(1)], the [break] after the last phase,
    and the [break] of [KeyboardInterrupt]. *)
Inductive cal_outcome : Type :=
| OWait
| OSkip
| OSlept
| OBackoff
| ODone
| OInterrupted.

(** A [print_statistics(current_session, label)] call at a phase change:
    the label and the values of the closed phase. *)
Definition report : Type := (string * list Q)%type.

Definition set_first (s : session) : session :=
  {| all_data := all_data s; current_session := current_session s; phase_index := phase_index s;
     phase_start_time := phase_start_time s; first_data_received := true;
     data_window := data_window s |}.

(** Lines 252-254: the point is appended to both lists and the window. *)
Definition record_point (s : session) (dp : data_point) : session :=
  {| all_data := all_data s ++ [dp]; current_session := current_session s ++ [dp];
     phase_index := phase_index s; phase_start_time := phase_start_time s;
     first_data_received := first_data_received s;
     data_window := window_push (data_window s) (dp_value dp) |}.

(** Lines 289-291 and 296: the session is reset and the index advanced; the
    new phase starts at [now]. *)
Definition next_phase (s : session) (now : Q) : session :=
  {| all_data := all_data s; current_session := []; phase_index := S (phase_index s);
     phase_start_time := now; first_data_received := first_data_received s;
     data_window := data_window s |}.

(** Lines 231-300 once a reading has been extracted. *)
Definition record_and_advance (s : session) (now raw : Q) (a b g : option Q) (data : pyval)
  : session * cal_outcome * option report :=
  match nth_error phases (phase_index s) with
  | None => (s, OBackoff, None)  (** [phases[phase_index]] raises [IndexError] *)
  | Some (label, duration) =>
      let elapsed := now - phase_start_time s in
      let dp := {| dp_time := now; dp_value := raw; dp_phase := label; dp_raw := raw_data_of data;
                   dp_alpha := a; dp_beta := b; dp_gamma := g; dp_direction := direction_of data |} in
      let s2 := record_point s dp in
      if Qle_bool duration elapsed then
        let rep := (label, map dp_value (current_session s2)) in
        let s3 := next_phase s2 now in
        if (length phases <=? phase_index s3)%nat then (s3, ODone, Some rep)
        else (s3, OSlept, Some rep)
      else (s2, OSlept, None)
  end.

(** One pass of the [while True] loop, lines 102-310. *)
Definition cal_tick (s : session) (i : cal_input) : session * cal_outcome * option report :=
  match i with
  | CInterrupt => (s, OInterrupted, None)
  | CPull PullRaised _ => (s, OBackoff, None)
  | CPull PullNone _ => if first_data_received s then (s, OSlept, None) else (s, OWait, None)
  | CPull (PullData data) now =>
      let s1 := set_first s in
      match TiltTest.tilt_test_extract data with
      | Raise _ => (s1, OBackoff, None)
      | Ok TiltTest.XSkip => (s1, OSkip, None)
      | Ok (TiltTest.XValue raw a b g data') => record_and_advance s1 now raw a b g data'
      end
  end.

Definition ends_loop (o : cal_outcome) : bool :=
  match o with ODone | OInterrupted => true | _ => false end.

(** The loop over a sequence of inputs, up to its [break]: the final
    session, the reports printed, and whether the loop was left. *)
Fixpoint run_session (s : session) (ins : list cal_input) : session * list report * bool :=
  match ins with
  | [] => (s, [], false)
  | i :: rest =>
      let '(s', o, r) := cal_tick s i in
      let reps := match r with Some x => [x] | None => [] end in
      if ends_loop o then (s', reps, true)
      else let '(s'', reps', fin) := run_session s' rest in (s'', reps ++ reps', fin)
  end.

(** ** The invariant of the loop *)

Definition lastn {A : Type} (n : nat) (l : list A) : list A := skipn (length l - n) l.

Definition phase_label (i : nat) : option string := option_map fst (nth_error phases i).

(** While the loop runs: the index names a phase, the window holds the last
    ten recorded values, every point carries a phase label, and
    [current_session] is the tail of [all_data] recorded in the current
    phase. *)
Record session_wf (s : session) : Prop := {
  wf_index : (phase_index s < length phases)%nat;
  wf_window : data_window s = lastn 10 (map dp_value (all_data s));
  wf_labels : Forall (fun dp => In (dp_phase dp) (map fst phases)) (all_data s);
  wf_suffix : exists pre, all_data s = pre ++ current_session s;
  wf_current : Forall (fun dp => Some (dp_phase dp) = phase_label (phase_index s)) (current_session s)
}.

Lemma window_push_lastn (l : list Q) (x : Q) :
  window_push (lastn 10 l) x = lastn 10 (l ++ [x]).
Proof.
  unfold window_push, lastn.
  assert (E : skipn (length l - 10) l ++ [x] = skipn (length l - 10) (l ++ [x])).
  { rewrite skipn_app. now replace (length l - 10 - length l)%nat with 0%nat by lia. }
  rewrite E, skipn_skipn, !length_skipn, !length_app. simpl. f_equal. lia.
Qed.

Lemma init_session_wf (t0 : Q) : session_wf (init_session t0).
Proof. constructor; [simpl; lia | reflexivity | constructor | now exists [] | constructor]. Qed.

Lemma set_first_wf (s : session) : session_wf s -> session_wf (set_first s).
Proof. intros []; constructor; auto. Qed.

Lemma record_point_wf (s : session) (dp : data_point) :
  session_wf s -> Some (dp_phase dp) = phase_label (phase_index s) ->
  session_wf (record_point s dp).
Proof.
  intros [Hi Hw Hl [pre Hs] Hc] Hdp. constructor; simpl; auto.
  - rewrite Hw, map_app. apply window_push_lastn.
  - apply Forall_app; split; auto. constructor; [|constructor].
    unfold phase_label in Hdp. destruct (nth_error phases (phase_index s)) as [[lab d]|] eqn:E;
      [|discriminate]. simpl in Hdp. injection Hdp as ->.
    apply nth_error_In in E. apply (in_map fst) in E. exact E.
  - exists pre. rewrite Hs, app_assoc. reflexivity.
  - apply Forall_app; split; auto.
Qed.

Lemma next_phase_wf (s : session) (now : Q) :
  session_wf s -> (S (phase_index s) < length phases)%nat -> session_wf (next_phase s now).
Proof.
  intros [Hi Hw Hl _ _] Hn. constructor; simpl; auto.
  exists (all_data s). now rewrite app_nil_r.
Qed.

Lemma phase_at (s : session) :
  session_wf s -> exists label duration, nth_error phases (phase_index s) = Some (label, duration).
Proof.
  intros Hwf. destruct (nth_error phases (phase_index s)) as [[l d]|] eqn:E; eauto.
  apply nth_error_None in E. pose proof (wf_index _ Hwf). lia.
Qed.

Lemma record_and_advance_wf (s s' : session) (now raw : Q) (a b g : option Q) (d : pyval)
    (o : cal_outcome) (r : option report) :
  session_wf s -> record_and_advance s now raw a b g d = (s', o, r) ->
  (ends_loop o = false -> session_wf s') /\ (o = ODone -> phase_index s' = length phases).
Proof.
  intros Hwf. destruct (phase_at s Hwf) as (label & dur & E).
  unfold record_and_advance. rewrite E.
  set (dp := {| dp_time := now; dp_value := raw; dp_phase := label; dp_raw := raw_data_of d;
                dp_alpha := a; dp_beta := b; dp_gamma := g; dp_direction := direction_of d |}).
  assert (Hrec : session_wf (record_point s dp))
    by (apply record_point_wf; [exact Hwf | unfold phase_label; now rewrite E]).
  pose proof (wf_index _ Hwf) as Hi.
  destruct (Qle_bool dur (now - phase_start_time s)).
  - destruct (length phases <=? phase_index (next_phase (record_point s dp) now))%nat eqn:L;
      intros [= <- <- <-]; first [apply Nat.leb_le in L | apply Nat.leb_gt in L].
    + split; [discriminate | intros _; cbn [phase_index next_phase record_point] in *; lia].
    + split; [intros _; apply next_phase_wf; [exact Hrec | cbn [phase_index next_phase record_point] in *; lia] | discriminate].
  - intros [= <- <- <-]. split; [intros _; exact Hrec | discriminate].
Qed.

(** C31: every pass that does not leave the loop preserves the invariant,
    and the loop is left by completion only once the index has reached the
    number of phases. *)
Theorem cal_tick_wf (s s' : session) (i : cal_input) (o : cal_outcome) (r : option report) :
  session_wf s -> cal_tick s i = (s', o, r) ->
  (ends_loop o = false -> session_wf s') /\ (o = ODone -> phase_index s' = length phases).
Proof.
  intros Hwf. destruct i as [|[| |data] now]; simpl.
  - intros [= <- <- <-]. split; [discriminate | discriminate].
  - intros [= <- <- <-]. split; [auto | discriminate].
  - destruct (first_data_received s); intros [= <- <- <-]; split; auto; discriminate.
  - destruct (TiltTest.tilt_test_extract data) as [[|raw a b g d]|e].
    + intros [= <- <- <-]. split; [intros _; now apply set_first_wf | discriminate].
    + apply record_and_advance_wf. now apply set_first_wf.
    + intros [= <- <- <-]. split; [intros _; now apply set_first_wf | discriminate].
Qed.

(** C32: a pass that records no point never changes the phase and prints
    no statistics, however much time has passed: phases advance only on a
    usable sample, not on the clock alone. *)
Theorem cal_tick_no_record_no_advance (s s' : session) (i : cal_input) (o : cal_outcome)
    (r : option report) :
  cal_tick s i = (s', o, r) -> all_data s' = all_data s ->
  phase_index s' = phase_index s /\ r = None.
Proof.
  destruct i as [|[| |data] now]; simpl.
  - intros [= <- <- <-]; auto.
  - intros [= <- <- <-]; auto.
  - destruct (first_data_received s); intros [= <- <- <-]; auto.
  - destruct (TiltTest.tilt_test_extract data) as [[|raw a b g d]|e];
      [intros [= <- <- <-]; auto | | intros [= <- <- <-]; auto].
    unfold record_and_advance. destruct (nth_error phases (phase_index (set_first s))) as [[l du]|];
      [|intros [= <- <- <-]; auto].
    destruct Qle_bool; [destruct Nat.leb|]; intros [= <- <- <-]; simpl;
      intros Hl; apply (f_equal (@length _)) in Hl; rewrite length_app in Hl; simpl in Hl; lia.
Qed.

(** A usable sample that arrives once the phase's duration has
    elapsed is recorded in that phase, prints the phase's statistics over
    all its values (the new one included), empties [current_session] and
    starts the next phase at the sample's time; after the last phase the
    loop breaks. *)
Theorem cal_tick_advance (s : session) (data d : pyval) (now raw : Q) (a b g : option Q)
    (label : string) (dur : Q) :
  TiltTest.tilt_test_extract data = Ok (TiltTest.XValue raw a b g d) ->
  nth_error phases (phase_index s) = Some (label, dur) ->
  dur <= now - phase_start_time s ->
  exists s', cal_tick s (CPull (PullData data) now) =
    (s', if (S (phase_index s) <? length phases)%nat then OSlept else ODone,
     Some (label, map dp_value (current_session s) ++ [raw])) /\
    phase_index s' = S (phase_index s) /\ current_session s' = [] /\
    phase_start_time s' = now /\ length (all_data s') = S (length (all_data s)).
Proof.
  intros Hx Hn Hd. unfold cal_tick. rewrite Hx. unfold record_and_advance.
  cbn [phase_start_time phase_index next_phase record_point set_first current_session all_data dp_value].
  rewrite Hn.
  assert (Hb : Qle_bool dur (now - phase_start_time s) = true) by (apply Qle_bool_iff; exact Hd).
  rewrite Hb. rewrite map_app.
  destruct (S (phase_index s) <? length phases)%nat eqn:L;
    [apply Nat.ltb_lt in L | apply Nat.ltb_ge in L];
    [rewrite (proj2 (Nat.leb_gt _ _) L) | rewrite (proj2 (Nat.leb_le _ _) L)];
    eexists; split; [reflexivity | | reflexivity | ];
    simpl; rewrite ?length_app; simpl; repeat split; lia.
Qed.

(** The inputs of a run in which each phase receives one usable sample
    [v], exactly when its duration has elapsed. *)
Fixpoint late_inputs (v : pyval) (t : Q) (ph : list (string * Q)) : list cal_input :=
  match ph with
  | [] => []
  | (_, d) :: rest => CPull (PullData v) (t + d) :: late_inputs v (t + d) rest
  end.

Lemma skipn_nth_cons {A : Type} (l : list A) (i : nat) (x : A) :
  nth_error l i = Some x -> skipn i l = x :: skipn (S i) l.
Proof.
  revert i. induction l as [|y l IH]; intros [|i]; simpl; try discriminate.
  - now intros [= ->].
  - apply IH.
Qed.

Lemma run_late (v d : pyval) (raw : Q) (a b g : option Q) (s : session) :
  TiltTest.tilt_test_extract v = Ok (TiltTest.XValue raw a b g d) -> session_wf s ->
  exists s' reps,
    run_session s (late_inputs v (phase_start_time s) (skipn (phase_index s) phases)) = (s', reps, true) /\
    map fst reps = map fst (skipn (phase_index s) phases) /\ phase_index s' = length phases.
Proof.
  intros Hx. remember (length phases - phase_index s)%nat as n eqn:Hn. revert s Hn.
  induction n as [|n IH]; intros s Hn Hwf; pose proof (wf_index _ Hwf); [lia|].
  destruct (phase_at s Hwf) as (label & dur & E).
  rewrite (skipn_nth_cons _ _ _ E). cbn [late_inputs run_session].
  destruct (cal_tick_advance s v d (phase_start_time s + dur) raw a b g label dur Hx E ltac:(lra))
    as (s1 & Ht & Hi & _ & Hst & _).
  rewrite Ht. destruct (S (phase_index s) <? length phases)%nat eqn:L; cbn [ends_loop].
  - apply Nat.ltb_lt in L.
    destruct (cal_tick_wf _ _ _ _ _ Hwf Ht) as [Hwf1 _].
    destruct (IH s1 ltac:(lia) (Hwf1 eq_refl)) as (s' & reps & Hrun & Hl & Hp).
    rewrite Hst, Hi in Hrun. rewrite Hrun.
    exists s', ((label, map dp_value (current_session s) ++ [raw]) :: reps).
    split; [reflexivity|]. rewrite Hi in Hl. simpl. now rewrite Hl.
  - apply Nat.ltb_ge in L. exists s1, [(label, map dp_value (current_session s) ++ [raw])].
    rewrite skipn_all2 by exact L. repeat split; [lia].
Qed.

(** C33: the session terminates: from the start, five usable samples, each
    arriving once its phase's time is up, run all five phases in the
    order of [phases], print one statistics block per phase and leave the
    loop. *)
Theorem session_completes (v d : pyval) (raw : Q) (a b g : option Q) (t0 : Q) :
  TiltTest.tilt_test_extract v = Ok (TiltTest.XValue raw a b g d) ->
  exists s' reps,
    run_session (init_session t0) (late_inputs v t0 phases) = (s', reps, true) /\
    map fst reps = map fst phases /\ phase_index s' = length phases.
Proof. intros Hx. exact (run_late v d raw a b g (init_session t0) Hx (init_session_wf t0)). Qed.

Definition window_inv (s : session) : Prop :=
  data_window s = lastn 10 (map dp_value (all_data s)).

Lemma cal_tick_window (s s' : session) (i : cal_input) (o : cal_outcome) (r : option report) :
  window_inv s -> cal_tick s i = (s', o, r) -> window_inv s'.
Proof.
  unfold window_inv. intros Hw.
  destruct i as [|[| |data] now]; simpl;
    [intros [= <- <- <-]; exact Hw | intros [= <- <- <-]; exact Hw
    | destruct (first_data_received s); intros [= <- <- <-]; exact Hw |].
  destruct (TiltTest.tilt_test_extract data) as [[|raw a b g d]|e];
    [intros [= <- <- <-]; exact Hw | | intros [= <- <- <-]; exact Hw].
  unfold record_and_advance. destruct (nth_error phases (phase_index (set_first s))) as [[l du]|];
    [|intros [= <- <- <-]; exact Hw].
  destruct Qle_bool; [destruct Nat.leb|]; intros [= <- <- <-]; simpl;
    rewrite map_app, Hw; apply window_push_lastn.
Qed.

(** Any property of sessions that every pass preserves holds at the end of
    every run. *)
Lemma run_session_preserves (I : session -> Prop)
    (Hstep : forall s s' i o r, I s -> cal_tick s i = (s', o, r) -> I s')
    (s s' : session) (ins : list cal_input) (reps : list report) (fin : bool) :
  I s -> run_session s ins = (s', reps, fin) -> I s'.
Proof.
  revert s s' reps fin. induction ins as [|i ins IH]; intros s s' reps fin Hs; simpl; [congruence|].
  destruct (cal_tick s i) as [[s1 o] r] eqn:Ht.
  pose proof (Hstep _ _ _ _ _ Hs Ht) as Hs1.
  destruct (ends_loop o); [congruence|].
  destruct (run_session s1 ins) as [[s2 reps2] fin2] eqn:Hr. intros [= <- _ _].
  exact (IH s1 s2 reps2 fin2 Hs1 Hr).
Qed.

(** C34: the moving-average window [deque(maxlen=10)] always holds exactly
    the last ten readings recorded, whatever the run. *)
Theorem window_last_ten (t0 : Q) (ins : list cal_input) (s' : session) (reps : list report) (fin : bool) :
  run_session (init_session t0) ins = (s', reps, fin) ->
  data_window s' = lastn 10 (map dp_value (all_data s')) /\ (length (data_window s') <= 10)%nat.
Proof.
  intros H. assert (Hw : window_inv s')
    by (refine (run_session_preserves window_inv cal_tick_window _ _ _ _ _ _ H); reflexivity).
  unfold window_inv in Hw.
  split; [exact Hw|]. rewrite Hw. unfold lastn. rewrite length_skipn. lia.
Qed.

(** Every recorded point keeps its raw data as a list and carries the label
    of a phase. *)
Definition point_ok (dp : data_point) : Prop :=
  is_seq (dp_raw dp) = true /\ In (dp_phase dp) (map fst phases).

Lemma raw_data_of_seq (d : pyval) : is_seq (raw_data_of d) = true.
Proof. destruct d; reflexivity. Qed.

Lemma cal_tick_points (s s' : session) (i : cal_input) (o : cal_outcome) (r : option report) :
  Forall point_ok (all_data s) -> cal_tick s i = (s', o, r) -> Forall point_ok (all_data s').
Proof.
  intros Hp.
  destruct i as [|[| |data] now]; simpl;
    [intros [= <- <- <-]; exact Hp | intros [= <- <- <-]; exact Hp
    | destruct (first_data_received s); intros [= <- <- <-]; exact Hp |].
  destruct (TiltTest.tilt_test_extract data) as [[|raw a b g d]|e];
    [intros [= <- <- <-]; exact Hp | | intros [= <- <- <-]; exact Hp].
  unfold record_and_advance. destruct (nth_error phases (phase_index (set_first s))) as [[l du]|] eqn:E;
    [|intros [= <- <- <-]; exact Hp].
  assert (Hnew : Forall point_ok (all_data s ++
            [{| dp_time := now; dp_value := raw; dp_phase := l; dp_raw := raw_data_of d;
                dp_alpha := a; dp_beta := b; dp_gamma := g; dp_direction := direction_of d |}])).
  { apply Forall_app; split; [exact Hp|]. constructor; [|constructor]. split; simpl.
    - apply raw_data_of_seq.
    - apply nth_error_In in E. exact (in_map fst _ _ E). }
  destruct Qle_bool; [destruct Nat.leb|]; intros [= <- <- <-]; exact Hnew.
Qed.

Lemma run_session_points (t0 : Q) (ins : list cal_input) (s' : session) (reps : list report) (fin : bool) :
  run_session (init_session t0) ins = (s', reps, fin) -> Forall point_ok (all_data s').
Proof.
  apply (run_session_preserves (fun s => Forall point_ok (all_data s))).
  - intros. eapply cal_tick_points; eauto.
  - constructor.
Qed.

(** ** Witnesses on concrete runs *)

Lemma cal_tick_wf_witness :
  exists s' o r, cal_tick (init_session 0) (CPull (PullData (PFloat 1)) 1) = (s', o, r) /\
    (ends_loop o = false -> session_wf s').
Proof.
  do 3 eexists. split; [reflexivity|].
  exact (proj1 (cal_tick_wf (init_session 0) _ (CPull (PullData (PFloat 1)) 1) _ _
                  (init_session_wf 0) eq_refl)).
Defined.

Lemma cal_tick_no_record_no_advance_witness :
  phase_index (init_session 0) = phase_index (init_session 0) /\ (None : option report) = None.
Proof.
  apply (cal_tick_no_record_no_advance (init_session 0) (init_session 0) (CPull PullNone 100) OWait);
    reflexivity.
Defined.

Lemma cal_tick_advance_witness :
  exists s', cal_tick (init_session 0) (CPull (PullData (PFloat 1)) 5) =
    (s', OSlept, Some ("保持水平（基準）"%string, [] ++ [1])) /\
    phase_index s' = 1%nat /\ current_session s' = [] /\ phase_start_time s' = 5 /\
    length (all_data s') = 1%nat.
Proof.
  exact (cal_tick_advance (init_session 0) (PFloat 1) (PFloat 1) 5 1 None None None _ 5
           eq_refl eq_refl ltac:(cbn; lra)).
Defined.

Lemma session_completes_witness :
  exists s' reps,
    run_session (init_session 0) (late_inputs (PFloat 1) 0 phases) = (s', reps, true) /\
    map fst reps = map fst phases /\ phase_index s' = length phases.
Proof. exact (session_completes (PFloat 1) (PFloat 1) 1 None None None 0 eq_refl). Defined.

Lemma window_last_ten_witness :
  data_window (init_session 0) = lastn 10 (map dp_value (all_data (init_session 0))) /\
  (length (data_window (init_session 0)) <= 10)%nat.
Proof. apply (window_last_ten 0 [] (init_session 0) [] false). reflexivity. Defined.
