(* ===== verification/Analysis.v ===== *)
(** * Analysis: the final report of [src/test_tilt_data.py]

    After the loop (lines 315-493) the script groups the recorded points by
    phase label, prints statistics, judges what kind of data arrived and,
    when both extreme phases have data, derives the suggested constants of
    the live controller: [baseline], [scale_factor] and [dead_zone].  The
    theorems show what the suggested constants mean for
    [TiltController.tilt_of_gamma] on the recorded data. *)

From Stdlib Require Import String QArith Qabs Lqa Psatz ZArith Lia List Bool Permutation.
From S2P Require Import Prelude PyValue TiltController Stats Calibration.
Import ListNotations.

(** ** Grouping by phase label (lines 322-327) *)

(** [phases_data[phase].append(point)], creating the key on first use; the
    dict keeps insertion order. *)
Fixpoint group_insert (label : string) (dp : data_point) (groups : list (string * list data_point))
  : list (string * list data_point) :=
  match groups with
  | [] => [(label, [dp])]
  | (l, ps) :: rest =>
      if String.eqb l label then (l, ps ++ [dp]) :: rest
      else (l, ps) :: group_insert label dp rest
  end.

Definition group_by_phase (all : list data_point) : list (string * list data_point) :=
  fold_left (fun g dp => group_insert (dp_phase dp) dp g) all [].

(** [label in phases_data] and [phases_data[label]]. *)
Fixpoint group_lookup (label : string) (groups : list (string * list data_point))
  : option (list data_point) :=
  match groups with
  | [] => None
  | (l, ps) :: rest => if String.eqb l label then Some ps else group_lookup label rest
  end.

Definition values_of (ps : list data_point) : list Q := map dp_value ps.

(** ** Data kind (lines 345-392) *)

(** The four messages the judgement can print. *)
Inductive data_kind : Type :=
| KDirection
| KGyroTriple
| KList (n : nat)
| KScalar.

(** Line 348 tests [all_data and 'raw_data' in all_data[0]], which holds
    for every recorded point; the compass and accelerometer branches of
    lines 387-392 belong to its [else] and are not reached. *)
Definition judge_kind (all : list data_point) : option data_kind :=
  match all with
  | [] => None
  | dp0 :: _ =>
      match dp_direction dp0 with
      | Some _ => Some KDirection
      | None =>
          match dp_raw dp0 with
          | PList l => if (3 <=? length l)%nat then Some KGyroTriple else Some (KList (length l))
          | _ => Some KScalar
          end
      end
  end.

(** ** Suggested constants (lines 394-461) *)

Definition center_phase_name : string := "保持水平（基準）".
Definition right_phase_name : string := "向右傾斜到極限".
Definition left_phase_name : string := "向左傾斜到極限".

(** [max(values) if values else 0] and the like. *)
Definition max_or0 (l : list Q) : Q := match list_max l with Some m => m | None => 0 end.
Definition min_or0 (l : list Q) : Q := match list_min l with Some m => m | None => 0 end.
Definition mean_or0 (l : list Q) : Q := match l with [] => 0 | _ => mean l end.

(** Python's [max(a, b, c, d)]: the first maximal argument. *)
Definition py_max4 (a b c d : Q) : Q := py_max (py_max (py_max a b) c) d.

Record cal_result : Type := {
  center_avg : Q;
  right_max : Q; right_min : Q; right_avg : Q;
  left_max : Q; left_min : Q; left_avg : Q;
  max_offset : Q;
  suggestion : option (Q * Q);  (** [(scale_factor, dead_zone)] when printed *)
  offset_positive_is_right : bool  (** the branch taken at line 456 *)
}.

(** Lines 399-461, and the legacy branch of lines 479-493 (labels
    ["向右傾斜"] / ["向左傾斜"]), which reports whether the right mean exceeds
    the left one. *)
Inductive analysis : Type :=
| ANone
| AFull (r : cal_result)
| ALegacy (right_gt_left : bool).

Definition derive (right_values left_values center_values : list Q) : cal_result :=
  let c := mean_or0 center_values in
  let rmax := max_or0 right_values in
  let rmin := min_or0 right_values in
  let lmax := max_or0 left_values in
  let lmin := min_or0 left_values in
  let mo := py_max4 (Qabs (rmax - c)) (Qabs (rmin - c)) (Qabs (lmax - c)) (Qabs (lmin - c)) in
  {| center_avg := c;
     right_max := rmax; right_min := rmin; right_avg := mean_or0 right_values;
     left_max := lmax; left_min := lmin; left_avg := mean_or0 left_values;
     max_offset := mo;
     suggestion := if qltb 0 mo then Some (10 / mo, mo * 0.1) else None;
     offset_positive_is_right := qltb c (mean_or0 right_values) |}.

Definition analyze (groups : list (string * list data_point)) : analysis :=
  match group_lookup right_phase_name groups, group_lookup left_phase_name groups with
  | Some rp, Some lp =>
      let cv := match group_lookup center_phase_name groups with
                | Some cp => values_of cp
                | None => []
                end in
      AFull (derive (values_of rp) (values_of lp) cv)
  | _, _ =>
      match group_lookup "向右傾斜" groups, group_lookup "向左傾斜" groups with
      | Some rp, Some lp => ALegacy (qltb (mean (values_of lp)) (mean (values_of rp)))
      | _, _ => ANone
      end
  end.

(** The whole final block, run only [if all_data:]: the statistics of
    each phase group (lines 320-330), the overall statistics of every
    recorded value (lines 333-343, the same computation as
    [print_statistics]), the data-kind judgement and the analysis. *)
Definition final_report (all : list data_point)
    : option (list (string * option stats) * option stats * option data_kind * analysis) :=
  match all with
  | [] => None
  | _ =>
      let groups := group_by_phase all in
      Some (map (fun '(l, ps) => (l, print_statistics (values_of ps))) groups,
            print_statistics (values_of all),
            judge_kind all, analyze groups)
  end.

(** ** [max_offset] is the largest deviation from the baseline *)

Lemma py_max_choice (a b : Q) : py_max a b = a \/ py_max a b = b.
Proof. unfold py_max. destruct qltb; auto. Qed.

Lemma py_max4_spec (a b c d : Q) :
  a <= py_max4 a b c d /\ b <= py_max4 a b c d /\ c <= py_max4 a b c d /\ d <= py_max4 a b c d /\
  (py_max4 a b c d = a \/ py_max4 a b c d = b \/ py_max4 a b c d = c \/ py_max4 a b c d = d).
Proof.
  unfold py_max4.
  pose proof (py_max_ge_l a b); pose proof (py_max_ge_r a b).
  pose proof (py_max_ge_l (py_max a b) c); pose proof (py_max_ge_r (py_max a b) c).
  pose proof (py_max_ge_l (py_max (py_max a b) c) d); pose proof (py_max_ge_r (py_max (py_max a b) c) d).
  repeat split; try lra.
  destruct (py_max_choice (py_max (py_max a b) c) d) as [->| ->]; [|tauto].
  destruct (py_max_choice (py_max a b) c) as [->| ->]; [|tauto].
  destruct (py_max_choice a b) as [->| ->]; tauto.
Qed.

(** A value between two extremes deviates from [c] by at most the larger of
    the extremes' deviations. *)
Lemma dev_between (lo hi v c : Q) :
  lo <= v <= hi -> Qabs (v - c) <= Qabs (hi - c) \/ Qabs (v - c) <= Qabs (lo - c).
Proof. intros H. qabs_elim; lra. Qed.

Lemma extremes_of (l : list Q) :
  l <> [] -> In (max_or0 l) l /\ In (min_or0 l) l /\ forall v, In v l -> min_or0 l <= v <= max_or0 l.
Proof.
  intros Hne. unfold max_or0, min_or0.
  destruct (list_max l) as [hi|] eqn:Hhi; [|destruct l; [congruence | discriminate]].
  destruct (list_min l) as [lo|] eqn:Hlo; [|destruct l; [congruence | discriminate]].
  apply list_max_spec in Hhi as [Hhi Hhi']. apply list_min_spec in Hlo as [Hlo Hlo'].
  repeat split; auto.
Qed.

(** C36: [max_offset] is the largest deviation from the baseline over all
    the samples of the two extreme phases (the spec's definition), computed
    by the source from the four extremes only. *)
Theorem max_offset_spec (rv lv cv : list Q) :
  rv <> [] -> lv <> [] ->
  let r := derive rv lv cv in
  (forall v, In v (rv ++ lv) -> Qabs (v - center_avg r) <= max_offset r) /\
  (exists v, In v (rv ++ lv) /\ Qabs (v - center_avg r) = max_offset r).
Proof.
  intros Hr Hl. cbn zeta. unfold derive; cbn [center_avg max_offset].
  set (c := mean_or0 cv).
  destruct (extremes_of rv Hr) as (Hrmax & Hrmin & Hrb).
  destruct (extremes_of lv Hl) as (Hlmax & Hlmin & Hlb).
  destruct (py_max4_spec (Qabs (max_or0 rv - c)) (Qabs (min_or0 rv - c))
                         (Qabs (max_or0 lv - c)) (Qabs (min_or0 lv - c))) as (H1 & H2 & H3 & H4 & Hc).
  split.
  - intros v Hv. apply in_app_or in Hv as [Hv|Hv].
    + destruct (dev_between _ _ v c (Hrb v Hv)) as [D|D]; eapply Qle_trans; eauto.
    + destruct (dev_between _ _ v c (Hlb v Hv)) as [D|D]; eapply Qle_trans; eauto.
  - destruct Hc as [E|[E|[E|E]]]; rewrite E; eexists; split; try reflexivity;
      apply in_or_app; auto.
Qed.

(** ** The suggested constants drive the controller to exactly full scale *)

Lemma scaled_within (x m : Q) : 0 < m -> Qabs x <= m -> -10 <= x * (10 / m) <= 10.
Proof.
  intros Hm Hx.
  assert (E : x * (10 / m) == 10 * (x / m)) by (field; lra).
  assert (H1 : x / m <= 1) by (apply Qle_shift_div_r; qabs_elim; lra).
  assert (H2 : -1 <= x / m) by (apply Qle_shift_div_l; qabs_elim; lra).
  rewrite E. lra.
Qed.

Lemma scaled_extreme (x m : Q) : 0 < m -> Qabs x == m -> Qabs (x * (10 / m)) == 10.
Proof.
  intros Hm Hx. rewrite Qabs_Qmult, Hx.
  rewrite (Qabs_pos (10 / m)) by (apply Qle_shift_div_l; lra).
  field. lra.
Qed.

Lemma suggestion_some (rv lv cv : list Q) (sc dz : Q) :
  suggestion (derive rv lv cv) = Some (sc, dz) ->
  0 < max_offset (derive rv lv cv) /\ sc = 10 / max_offset (derive rv lv cv) /\
  dz = max_offset (derive rv lv cv) * 0.1.
Proof.
  unfold derive; cbn [suggestion max_offset]; cbv zeta.
  match goal with |- context [qltb 0 ?m] => destruct (qltb_spec 0 m) as [H|H] end; [|discriminate].
  intros [= <- <-]. auto.
Qed.

(** C37: refinement of the live controller by the calibration: with the
    suggested [baseline], [scale_factor] and [dead_zone] plugged into
    [tilt_of_gamma], the clamp never acts on a recorded extreme-phase
    sample, and the farthest sample is mapped to exactly [+-10]. *)
Theorem suggested_params_refine (rv lv cv : list Q) (sc dz : Q) :
  rv <> [] -> lv <> [] -> suggestion (derive rv lv cv) = Some (sc, dz) ->
  let p := {| baseline := center_avg (derive rv lv cv); dead_zone := dz; scale_factor := sc |} in
  (forall v, In v (rv ++ lv) ->
     tilt_of_gamma p v == if qltb (Qabs (v - baseline p)) dz then 0 else (v - baseline p) * sc) /\
  (exists v, In v (rv ++ lv) /\ Qabs (tilt_of_gamma p v) == 10).
Proof.
  intros Hr Hl Hs. cbn zeta.
  destruct (suggestion_some _ _ _ _ _ Hs) as (Hm & -> & ->).
  destruct (max_offset_spec rv lv cv Hr Hl) as [Hall [w [Hw Hwe]]]. cbn zeta in Hall, Hw, Hwe.
  set (c := center_avg (derive rv lv cv)) in *. set (mo := max_offset (derive rv lv cv)) in *.
  unfold tilt_of_gamma; cbn [baseline dead_zone scale_factor]; cbv zeta.
  split.
  - intros v Hv. destruct qltb; [reflexivity|].
    apply clamp_id, scaled_within; auto.
  - exists w. split; [exact Hw|].
    destruct (qltb_spec (Qabs (w - c)) (mo * 0.1)) as [H|H]; [rewrite Hwe in H; lra|].
    rewrite clamp_id by (apply scaled_within; [exact Hm | rewrite Hwe; lra]).
    apply scaled_extreme; [exact Hm | rewrite Hwe; reflexivity].
Qed.

(** A fixture: a point of a given phase with a given value. *)
Definition mk_point (label : string) (v : Q) : data_point :=
  {| dp_time := 0; dp_value := v; dp_phase := label; dp_raw := PList [PFloat v];
     dp_alpha := None; dp_beta := None; dp_gamma := None; dp_direction := None |}.

Definition spec_example_points : list data_point :=
  map (mk_point center_phase_name) [-1; 0; 1] ++ map (mk_point right_phase_name) [4; 6] ++
  map (mk_point left_phase_name) [-6; -4].

(** The calibration example of the spec: hold-center values
    [[-1; 0; 1]], right [[4; 6]], left [[-6; -4]] give baseline [0],
    [max_offset = 6], scale [10/6], dead zone [0.6], and offsets read as
    positive to the right. *)
Theorem calibration_spec_example :
  match analyze (group_by_phase spec_example_points) with
  | AFull r =>
      center_avg r == 0 /\ max_offset r == 6 /\
      match suggestion r with Some (sc, dz) => sc == 10 / 6 /\ dz == 0.6 | None => False end /\
      offset_positive_is_right r = true
  | _ => False
  end.
Proof. vm_compute. repeat split; reflexivity. Qed.

(** The direction check of line 456 compares the right-phase mean
    with the baseline and never looks at the left phase; with baseline [5],
    right mean [3] and left mean [0] it reports a possible inversion
    although the right mean exceeds the left one. *)
Theorem direction_check_ignores_left (rv lv lv' cv : list Q) :
  offset_positive_is_right (derive rv lv cv) = offset_positive_is_right (derive rv lv' cv) /\
  (left_avg (derive [3] [0] [5]) < right_avg (derive [3] [0] [5]) /\
   offset_positive_is_right (derive [3] [0] [5]) = false).
Proof. split; [reflexivity | vm_compute; split; reflexivity]. Qed.

(** ** Shape of the report for the points a run records *)

Definition keys (g : list (string * list data_point)) : list string := map fst g.

Lemma group_insert_keys (l : string) (dp : data_point) (g : list (string * list data_point)) :
  keys (group_insert l dp g) = if existsb (String.eqb l) (keys g) then keys g else keys g ++ [l].
Proof.
  induction g as [|[k ps] g IH]; simpl; [reflexivity|].
  rewrite String.eqb_sym. destruct (String.eqb l k) eqn:E; simpl; [reflexivity|].
  rewrite IH. destruct existsb; reflexivity.
Qed.

Lemma group_insert_nodup (l : string) (dp : data_point) (g : list (string * list data_point)) :
  NoDup (keys g) -> NoDup (keys (group_insert l dp g)).
Proof.
  intros H. rewrite group_insert_keys. destruct (existsb (String.eqb l) (keys g)) eqn:E; [exact H|].
  apply NoDup_app; [exact H | repeat constructor; auto |].
  intros x Hx [Hl|[]]. subst x. apply Bool.not_true_iff_false in E. apply E, existsb_exists.
  exists l. split; [exact Hx | apply String.eqb_refl].
Qed.

Lemma group_insert_keys_in (l : string) (dp : data_point) (g : list (string * list data_point)) (k : string) :
  In k (keys (group_insert l dp g)) -> k = l \/ In k (keys g).
Proof.
  rewrite group_insert_keys. destruct existsb; [auto|].
  intros H. apply in_app_or in H as [H|[<-|[]]]; auto.
Qed.

Lemma group_by_phase_keys (all : list data_point) :
  NoDup (keys (group_by_phase all)) /\
  forall k, In k (keys (group_by_phase all)) -> exists dp, In dp all /\ dp_phase dp = k.
Proof.
  unfold group_by_phase.
  assert (G : forall g, NoDup (keys g) ->
            (forall k, In k (keys g) -> exists dp, In dp all /\ dp_phase dp = k) ->
            forall rest, (forall dp, In dp rest -> In dp all) ->
            NoDup (keys (fold_left (fun g dp => group_insert (dp_phase dp) dp g) rest g)) /\
            forall k, In k (keys (fold_left (fun g dp => group_insert (dp_phase dp) dp g) rest g)) ->
                      exists dp, In dp all /\ dp_phase dp = k).
  { intros g Hn Hk rest. revert g Hn Hk. induction rest as [|dp rest IH]; intros g Hn Hk Hsub; simpl; auto.
    apply IH.
    - apply group_insert_nodup; exact Hn.
    - intros k Hin. apply group_insert_keys_in in Hin as [->|Hin]; auto.
      exists dp. split; auto. apply Hsub; left; reflexivity.
    - intros d Hd. apply Hsub; right; exact Hd. }
  apply G; simpl; auto using NoDup_nil. intros k [].
Qed.

Lemma group_lookup_key (k : string) (g : list (string * list data_point)) (ps : list data_point) :
  group_lookup k g = Some ps -> In k (keys g).
Proof.
  induction g as [|[l qs] g IH]; simpl; [discriminate|].
  destruct (String.eqb l k) eqn:E; [apply String.eqb_eq in E; auto | auto].
Qed.

(** A group list seen through one label: [None] for no point, the points
    otherwise. *)
Definition nonempty (ps : list data_point) : option (list data_point) :=
  match ps with [] => None | _ => Some ps end.

Definition of_phase (k : string) (dp : data_point) : bool := String.eqb (dp_phase dp) k.

Lemma group_lookup_insert (k l : string) (dp : data_point) (g : list (string * list data_point)) :
  group_lookup k (group_insert l dp g) =
  if String.eqb l k then Some (match group_lookup k g with Some ps => ps ++ [dp] | None => [dp] end)
  else group_lookup k g.
Proof.
  induction g as [|[l' ps] g IH]; cbn [group_insert group_lookup].
  - now destruct (String.eqb l k).
  - destruct (String.eqb l' l) eqn:E1; cbn [group_lookup].
    + apply String.eqb_eq in E1 as ->. now destruct (String.eqb l k).
    + rewrite IH. destruct (String.eqb l' k) eqn:E2; [|reflexivity].
      apply String.eqb_eq in E2 as ->. rewrite String.eqb_sym in E1. now rewrite E1.
Qed.

Lemma group_by_phase_from (k : string) (rest pre : list data_point) (g : list (string * list data_point)) :
  group_lookup k g = nonempty (filter (of_phase k) pre) ->
  group_lookup k (fold_left (fun g dp => group_insert (dp_phase dp) dp g) rest g) =
  nonempty (filter (of_phase k) (pre ++ rest)).
Proof.
  revert pre g. induction rest as [|dp rest IH]; intros pre g Hg; cbn [fold_left].
  - now rewrite app_nil_r.
  - replace (pre ++ dp :: rest) with ((pre ++ [dp]) ++ rest) by (now rewrite <- app_assoc).
    apply IH. rewrite group_lookup_insert, Hg, filter_app. cbn [filter]. unfold of_phase in *.
    destruct (String.eqb (dp_phase dp) k); [|now rewrite app_nil_r].
    now destruct (filter _ pre).
Qed.

(** C39: [phases_data] after the grouping loop of lines 322-327: the
    entry of a label holds exactly the recorded points of that label, in
    the order they were recorded, and a label no point carries has no
    entry. *)
Theorem group_by_phase_lookup (all : list data_point) (k : string) :
  group_lookup k (group_by_phase all) = nonempty (filter (of_phase k) all).
Proof. exact (group_by_phase_from k all [] [] eq_refl). Qed.

(** The four distinct labels of [phases]. *)
Definition phase_labels : list string :=
  [center_phase_name; right_phase_name; "回到水平"%string; left_phase_name].

Lemma phases_labels_incl (k : string) : In k (map fst phases) -> In k phase_labels.
Proof. simpl. intuition (subst; simpl; auto). Qed.

(** C38: for the points any calibration run records, the final report
    has at most four groups with distinct labels (the two "回到水平"
    phases are merged into one group), the legacy branch of lines 479-493
    is never taken, and the data-kind judgement never reports single
    values. *)
Theorem final_report_shape (t0 : Q) (ins : list cal_input) (s' : session) (reps : list report) (fin : bool) :
  run_session (init_session t0) ins = (s', reps, fin) ->
  let g := group_by_phase (all_data s') in
  NoDup (keys g) /\ (length g <= 4)%nat /\
  (forall b, analyze g <> ALegacy b) /\ judge_kind (all_data s') <> Some KScalar.
Proof.
  intros Hrun. cbn zeta. pose proof (run_session_points _ _ _ _ _ Hrun) as Hp.
  rewrite Forall_forall in Hp.
  destruct (group_by_phase_keys (all_data s')) as [Hn Hk].
  assert (Hin : forall k, In k (keys (group_by_phase (all_data s'))) -> In k phase_labels).
  { intros k Hk'. destruct (Hk k Hk') as (dp & Hdp & <-). apply phases_labels_incl, (Hp dp Hdp). }
  split; [exact Hn|]. split.
  { rewrite <- (length_map fst). change (length (keys (group_by_phase (all_data s'))) <= length phase_labels)%nat.
    apply (NoDup_incl_length Hn). exact Hin. }
  split.
  - intros b. unfold analyze.
    destruct (group_lookup "向右傾斜" (group_by_phase (all_data s'))) as [rp|] eqn:E.
    + apply group_lookup_key, Hin in E. exfalso.
      unfold phase_labels, center_phase_name, right_phase_name, left_phase_name in E.
      repeat (destruct E as [E|E]; [discriminate E|]). exact E.
    + destruct (group_lookup right_phase_name (group_by_phase (all_data s')));
        [destruct (group_lookup left_phase_name (group_by_phase (all_data s'))) | ]; discriminate.
  - unfold judge_kind. destruct (all_data s') as [|dp0 rest] eqn:Ha; [discriminate|].
    destruct (Hp dp0 (or_introl eq_refl)) as [Hseq _].
    destruct (dp_direction dp0); [discriminate|].
    destruct (dp_raw dp0); try discriminate. destruct Nat.leb; discriminate.
Qed.

(** ** The statistics blocks account for every point *)

(** The points of the groups, in group order. *)
Definition grouped_points (g : list (string * list data_point)) : list data_point :=
  concat (map snd g).

Lemma group_insert_perm (l : string) (dp : data_point) (g : list (string * list data_point)) :
  Permutation (grouped_points (group_insert l dp g)) (grouped_points g ++ [dp]).
Proof.
  unfold grouped_points. induction g as [|[l' ps] g IH]; cbn [group_insert map concat snd].
  - reflexivity.
  - destruct (String.eqb l' l); cbn [map concat snd].
    + rewrite <- !app_assoc. apply Permutation_app_head, Permutation_app_comm.
    + rewrite <- app_assoc. apply Permutation_app_head, IH.
Qed.

Lemma group_insert_nonempty (l : string) (dp : data_point) (g : list (string * list data_point)) :
  Forall (fun lp => snd lp <> []) g -> Forall (fun lp => snd lp <> []) (group_insert l dp g).
Proof.
  induction g as [|[l' ps] g IH]; cbn [group_insert]; intros H.
  - repeat constructor. discriminate.
  - inversion H as [|? ? Hps Hg]; subst. destruct (String.eqb l' l); constructor; auto.
    cbn. destruct ps; discriminate.
Qed.

(** Every recorded point is in exactly one group, and no group is empty. *)
Lemma group_by_phase_partition (all : list data_point) :
  Permutation (grouped_points (group_by_phase all)) all /\
  Forall (fun lp => snd lp <> []) (group_by_phase all).
Proof.
  unfold group_by_phase.
  enough (G : forall rest g, Forall (fun lp => snd lp <> []) g ->
    Permutation (grouped_points (fold_left (fun g dp => group_insert (dp_phase dp) dp g) rest g))
                (grouped_points g ++ rest) /\
    Forall (fun lp => snd lp <> []) (fold_left (fun g dp => group_insert (dp_phase dp) dp g) rest g))
    by exact (G all [] (Forall_nil _)).
  induction rest as [|dp rest IH]; intros g Hg; cbn [fold_left].
  - rewrite app_nil_r. split; [reflexivity | exact Hg].
  - destruct (IH _ (group_insert_nonempty (dp_phase dp) dp g Hg)) as [Hp Hn]. split; [|exact Hn].
    rewrite Hp, group_insert_perm, <- app_assoc. reflexivity.
Qed.

(** [print_statistics] of a non-empty list: its count and extremes. *)
Lemma print_statistics_some (l : list Q) :
  l <> [] -> exists st, print_statistics l = Some st /\ st_count st = length l /\
    In (st_min st) l /\ In (st_max st) l /\ forall x, In x l -> st_min st <= x <= st_max st.
Proof.
  intros Hne. unfold print_statistics.
  destruct (list_min l) as [lo|] eqn:Hlo; [|destruct l; [congruence | discriminate]].
  destruct (list_max l) as [hi|] eqn:Hhi; [|destruct l; [congruence | discriminate]].
  apply list_min_spec in Hlo as [Hlo Hlo']. apply list_max_spec in Hhi as [Hhi Hhi'].
  eexists. split; [reflexivity|]. cbn. repeat split; auto.
Qed.

Lemma values_of_in (ps qs : list data_point) (x : Q) :
  incl ps qs -> In x (values_of ps) -> In x (values_of qs).
Proof. unfold values_of. intros H (dp & <- & Hdp)%in_map_iff. apply in_map, H, Hdp. Qed.

(** C40: the statistics of the final report account for every recorded
    point: the overall block exists, its count is the sum of the phase
    blocks' counts (each point is counted in exactly one phase block),
    every phase block has statistics, and the overall minimum and maximum
    bound the minimum and maximum of every phase block. *)
Theorem final_report_overall (all : list data_point) per ov jk an :
  final_report all = Some (per, ov, jk, an) ->
  exists st, ov = Some st /\
    st_count st = list_sum (map (fun ls => match snd ls with Some s => st_count s | None => 0%nat end) per) /\
    Forall (fun ls => exists s, snd ls = Some s /\ st_min st <= st_min s /\ st_max s <= st_max st) per.
Proof.
  unfold final_report. destruct all as [|dp0 rest] eqn:Ha; [discriminate|]. rewrite <- Ha.
  intros [= <- <- _ _].
  destruct (group_by_phase_partition all) as [Hp Hn].
  destruct (print_statistics_some (values_of all)) as (st & -> & Hc & _ & _ & Hb);
    [subst all; discriminate|].
  exists st. split; [reflexivity|]. split.
  - rewrite Hc. unfold values_of at 1. rewrite length_map, <- (Permutation_length Hp).
    unfold grouped_points. rewrite length_concat.
    clear Hp. induction Hn as [|[l ps] g Hps Hg IH]; [reflexivity|]. cbn [map snd].
    change (list_sum (?a :: ?r)) with (a + list_sum r)%nat.
    destruct (print_statistics_some (values_of ps)) as (s & -> & Hs & _);
      [unfold values_of; destruct ps; [contradiction | discriminate]|].
    rewrite Hs, IH. unfold values_of. now rewrite length_map.
  - apply Forall_map, Forall_forall. intros [l ps] Hin.
    change (exists s, print_statistics (values_of ps) = Some s /\ st_min st <= st_min s /\ st_max s <= st_max st).
    rewrite Forall_forall in Hn. specialize (Hn _ Hin); cbn in Hn.
    destruct (print_statistics_some (values_of ps)) as (s & -> & _ & Hmin & Hmax & _);
      [unfold values_of; destruct ps; [contradiction | discriminate]|].
    assert (Hsub : incl ps all).
    { intros p Hp'. apply (Permutation_in _ Hp). unfold grouped_points.
      apply in_concat. exists ps. split; [apply (in_map snd _ _ Hin) | exact Hp']. }
    exists s. split; [reflexivity|].
    split; [apply (Hb _ (values_of_in _ _ _ Hsub Hmin)) | apply (Hb _ (values_of_in _ _ _ Hsub Hmax))].
Qed.

(** ** Witnesses *)

Lemma max_offset_spec_witness :
  (forall v, In v ([4; 6] ++ [-6; -4]) ->
     Qabs (v - center_avg (derive [4; 6] [-6; -4] [-1; 0; 1])) <= max_offset (derive [4; 6] [-6; -4] [-1; 0; 1])) /\
  (exists v, In v ([4; 6] ++ [-6; -4]) /\
     Qabs (v - center_avg (derive [4; 6] [-6; -4] [-1; 0; 1])) = max_offset (derive [4; 6] [-6; -4] [-1; 0; 1])).
Proof. exact (max_offset_spec [4; 6] [-6; -4] [-1; 0; 1] ltac:(discriminate) ltac:(discriminate)). Defined.

Lemma suggested_params_refine_witness :
  let r := derive [4; 6] [-6; -4] [-1; 0; 1] in
  let p := {| baseline := center_avg r; dead_zone := max_offset r * 0.1;
              scale_factor := 10 / max_offset r |} in
  exists v, In v ([4; 6] ++ [-6; -4]) /\ Qabs (tilt_of_gamma p v) == 10.
Proof.
  exact (proj2 (suggested_params_refine [4; 6] [-6; -4] [-1; 0; 1] _ _
                  ltac:(discriminate) ltac:(discriminate) ltac:(vm_compute; reflexivity))).
Defined.

Lemma final_report_shape_witness :
  match run_session (init_session 0) (late_inputs (PFloat 1) 0 phases) with
  | (s', _, _) => (length (group_by_phase (all_data s')) <= 4)%nat
  end.
Proof.
  destruct (run_session (init_session 0) (late_inputs (PFloat 1) 0 phases)) as [[s' reps] fin] eqn:E.
  exact (proj1 (proj2 (final_report_shape 0 (late_inputs (PFloat 1) 0 phases) s' reps fin E))).
Defined.

Lemma final_report_overall_witness :
  match final_report spec_example_points with
  | Some (per, ov, jk, an) =>
      exists st, ov = Some st /\
        st_count st = list_sum (map (fun ls => match snd ls with Some s => st_count s | None => 0%nat end) per) /\
        Forall (fun ls => exists s, snd ls = Some s /\ st_min st <= st_min s /\ st_max s <= st_max st) per
  | None => False
  end.
Proof.
  destruct (final_report spec_example_points) as [[[[per ov] jk] an]|] eqn:E.
  - exact (final_report_overall _ _ _ _ _ E).
  - vm_compute in E. discriminate.
Defined.
