(* ===== verification/Motion.v ===== *)
(** * Motion: how the game reads [current_tilt] ([src/Game.py])

    Three readers of [current_tilt]: [Player.update] (lines 187-214), the
    tilt preview of [main_menu] (lines 348-360) and the gauge of [draw_hud]
    (lines 309-319).  None of them writes it.  The player's rectangle is a
    pygame [Rect]: its coordinates are C ints, and assigning a float to
    [rect.x] truncates it toward zero ([pg_IntFromObj] casts with
    [(int)]), which [q_trunc] models.  The size of the rotated ship image
    that [draw_ship] returns is pygame's business; it is a parameter
    [rot_size] of the section. *)

From Stdlib Require Import QArith Qabs Qround Lqa Psatz ZArith Lia List Bool.
From S2P Require Import Prelude.
Import ListNotations.

(** [(int)d] for a double [d]: truncation toward zero. *)
Definition q_trunc (q : Q) : Z := Z.quot (Qnum q) (Zpos (Qden q)).

(** The [Rect] of the player and its [bank_angle] (lines 156-164). *)
Record player : Type := {
  rect_x : Z; rect_y : Z; rect_w : Z; rect_h : Z;
  bank_angle : Z
}.

Definition WIDTH : Z := 800.
Definition HEIGHT : Z := 600.

(** [Player.__init__] (lines 157-164): a 50 x 60 surface centred at
    [(WIDTH // 2, HEIGHT - 80)], not banked. *)
Definition player_init : player :=
  {| rect_x := (WIDTH / 2 - 50 / 2)%Z; rect_y := (HEIGHT - 80 - 60 / 2)%Z;
     rect_w := 50; rect_h := 60; bank_angle := 0 |}.

(** [min((tilt_magnitude - threshold) / (8 - threshold), 1.0)] with
    [threshold = 0.3] (lines 188-193). *)
Definition normalized_tilt (tilt : Q) : Q := py_min ((Qabs tilt - 0.3) / (8 - 0.3)) 1.

(** [rect.clamp_ip(Rect(0, 0, W, H))] on one axis, as pygame's C code does
    it: an object at least as large as the area is centred, otherwise it
    is pushed back inside. *)
Definition clamp_axis (pos size area : Z) : Z :=
  if (area <=? size)%Z then (area / 2 - size / 2)%Z
  else if (pos <? 0)%Z then 0%Z
  else if (area <? pos + size)%Z then (area - size)%Z
  else pos.

(** Lines 189-207: the horizontal move and the banking. *)
Definition steer (current_tilt : Q) (pl : player) : Z * Z :=
  let x := rect_x pl in
  let bank := bank_angle pl in
  if qltb 0.3 (Qabs current_tilt) then
    let move_speed := normalized_tilt current_tilt * 7 in
    if qltb current_tilt 0 then (q_trunc (inject_Z x - move_speed), Z.max (bank - 2) (-25))
    else if qltb 0 current_tilt then (q_trunc (inject_Z x + move_speed), Z.min (bank + 2) 25)
    else (x, bank)
  else if (0 <? bank)%Z then (x, bank - 2)%Z
  else if (bank <? 0)%Z then (x, bank + 2)%Z
  else (x, bank).

Section Player.
(** The size of the ship image rotated by [-angle * 2] (line 182). *)
Variable rot_size : Z -> Z * Z.

(** [Player.update] (lines 187-214): steer, clamp into the screen, then
    take the size of the rotated image. *)
Definition player_update (current_tilt : Q) (pl : player) : player :=
  let '(x, bank) := steer current_tilt pl in
  let x' := clamp_axis x (rect_w pl) WIDTH in
  let y' := clamp_axis (rect_y pl) (rect_h pl) HEIGHT in
  let '(w, h) := rot_size bank in
  {| rect_x := x'; rect_y := y'; rect_w := w; rect_h := h; bank_angle := bank |}.

(** A sequence of frames, each reading the tilt of its time. *)
Definition run_player (tilts : list Q) (pl : player) : player :=
  fold_left (fun p t => player_update t p) tilts pl.
End Player.

(** [main_menu]'s preview (lines 349-360): the plane moves by
    [normalized_tilt * 6] and stays within [[30, WIDTH - 30]]. *)
Definition preview_step (current_tilt preview_x : Q) : Q :=
  let x :=
    if qltb 0.3 (Qabs current_tilt) then
      let move_speed := normalized_tilt current_tilt * 6 in
      if qltb current_tilt 0 then preview_x - move_speed
      else if qltb 0 current_tilt then preview_x + move_speed
      else preview_x
    else preview_x in
  py_max 30 (py_min (inject_Z WIDTH - 30) x).

(** [draw_hud]'s gauge (lines 299-319): the left edge and the length of the
    active bar, and whether it is drawn green. *)
Definition gauge_bar (tilt : Q) : Q * Q * bool :=
  let gauge_w := 300%Z in
  let tilt_clamped := clamp (-10) 10 tilt in
  let fill_pct := tilt_clamped / 10 in
  let bar_len := Qabs fill_pct * inject_Z (gauge_w / 2) in
  let green := qltb (Qabs tilt) 3 in
  if qltb 0 fill_pct then (inject_Z (WIDTH / 2), bar_len, green)
  else (inject_Z (WIDTH / 2) - bar_len, bar_len, green).

(** ** Truncation *)

Lemma q_trunc_nonneg (q : Q) : 0 <= q -> q_trunc q = Qfloor q.
Proof.
  intros H. unfold q_trunc, Qfloor. destruct q as [n d]. apply Z.quot_div_nonneg; [|lia].
  unfold Qle in H. simpl in H. lia.
Qed.

Lemma q_trunc_opp (q : Q) : q_trunc (- q) = (- q_trunc q)%Z.
Proof. unfold q_trunc. destruct q as [n d]. simpl. apply Z.quot_opp_l. lia. Qed.

(** The floor of [q] is the integer [x] with [x <= q < x + 1]. *)
Lemma Qfloor_unique (q : Q) (x : Z) : inject_Z x <= q -> q < inject_Z (x + 1) -> Qfloor q = x.
Proof.
  intros H1 H2. pose proof (Qfloor_le q) as F1. pose proof (Qlt_floor q) as F2.
  assert (A : (x < Qfloor q + 1)%Z).
  { rewrite Zlt_Qlt. eapply Qle_lt_trans; [exact H1 | exact F2]. }
  assert (B : (Qfloor q < x + 1)%Z).
  { rewrite Zlt_Qlt. eapply Qle_lt_trans; [exact F1 | exact H2]. }
  lia.
Qed.

Lemma Qfloor_between (q : Q) (a b : Z) : inject_Z a <= q -> q <= inject_Z b -> (a <= Qfloor q <= b)%Z.
Proof.
  intros H1 H2. pose proof (Qfloor_le q) as F1. pose proof (Qlt_floor q) as F2.
  assert (A : (a < Qfloor q + 1)%Z).
  { rewrite Zlt_Qlt. eapply Qle_lt_trans; [exact H1 | exact F2]. }
  assert (B : (Qfloor q <= b)%Z).
  { rewrite Zle_Qle. eapply Qle_trans; [exact F1 | exact H2]. }
  lia.
Qed.

(** Truncating a value between two integers stays between them. *)
Lemma q_trunc_between (q : Q) (a b : Z) : inject_Z a <= q -> q <= inject_Z b -> (a <= q_trunc q <= b)%Z.
Proof.
  intros H1 H2. destruct (Qlt_le_dec q 0) as [Hn|Hp].
  - replace q with (- - q) by (destruct q as [n d]; unfold Qopp; cbn; now rewrite Z.opp_involutive).
    rewrite q_trunc_opp, q_trunc_nonneg by lra.
    assert (Hf := Qfloor_between (- q) (- b) (- a)
                    ltac:(rewrite inject_Z_opp; lra) ltac:(rewrite inject_Z_opp; lra)).
    lia.
  - rewrite q_trunc_nonneg by exact Hp. now apply Qfloor_between.
Qed.

(** ** The player *)

Lemma normalized_tilt_bounds (t : Q) : 0.3 < Qabs t -> 0 < normalized_tilt t <= 1.
Proof.
  intros H. unfold normalized_tilt, py_min. qcase; split; try lra.
  apply Qlt_shift_div_l; lra.
Qed.

Lemma inject_Z_shift (x k : Z) :
  inject_Z (x - k) == inject_Z x - inject_Z k /\ inject_Z (x + k) == inject_Z x + inject_Z k.
Proof. unfold Z.sub. rewrite !inject_Z_plus, inject_Z_opp. split; reflexivity. Qed.

(** C27: a frame moves the ship by at most seven pixels, whatever value
    [current_tilt] holds (even one outside [[-10, 10]]). *)
Theorem steer_speed_bound (t : Q) (pl : player) :
  (rect_x pl - 7 <= fst (steer t pl) <= rect_x pl + 7)%Z.
Proof.
  unfold steer. destruct (qltb_spec 0.3 (Qabs t)) as [H|H].
  - pose proof (normalized_tilt_bounds t H) as [N1 N2].
    destruct (inject_Z_shift (rect_x pl) 7) as [Em Ep].
    change (inject_Z 7) with 7 in Em, Ep.
    destruct (qltb_spec t 0); [|destruct (qltb_spec 0 t)]; cbn [fst]; try lia;
      apply q_trunc_between; rewrite ?Em, ?Ep; lra.
  - destruct (0 <? bank_angle pl)%Z; [|destruct (bank_angle pl <? 0)%Z]; cbn [fst]; lia.
Qed.

Lemma steer_bank_cases (t : Q) (pl : player) :
  let b := bank_angle pl in
  snd (steer t pl) = b \/ snd (steer t pl) = (b - 2)%Z \/ snd (steer t pl) = (b + 2)%Z \/
  snd (steer t pl) = (-25)%Z \/ snd (steer t pl) = 25%Z.
Proof.
  cbv zeta. unfold steer.
  destruct (qltb 0.3 (Qabs t)); [destruct (qltb t 0); [|destruct (qltb 0 t)]
    | destruct (0 <? bank_angle pl)%Z; [|destruct (bank_angle pl <? 0)%Z]]; cbn [snd]; lia.
Qed.

Lemma steer_bank_bounds (t : Q) (pl : player) :
  (-25 <= bank_angle pl <= 25)%Z -> (-25 <= snd (steer t pl) <= 25)%Z.
Proof.
  intros H. unfold steer.
  destruct (qltb 0.3 (Qabs t)); [destruct (qltb t 0); [|destruct (qltb 0 t)]
    | destruct (0 <? bank_angle pl)%Z eqn:E1; [|destruct (bank_angle pl <? 0)%Z eqn:E2]];
    cbn [snd]; rewrite ?Z.ltb_lt, ?Z.ltb_ge in *; lia.
Qed.

Lemma player_update_fields (rs : Z -> Z * Z) (t : Q) (pl : player) :
  bank_angle (player_update rs t pl) = snd (steer t pl) /\
  rect_x (player_update rs t pl) = clamp_axis (fst (steer t pl)) (rect_w pl) WIDTH.
Proof.
  unfold player_update. destruct (steer t pl) as [x b]. destruct (rs b) as [w h]. split; reflexivity.
Qed.

Lemma player_update_size (rs : Z -> Z * Z) (t : Q) (pl : player) :
  rect_w (player_update rs t pl) = fst (rs (snd (steer t pl))).
Proof. unfold player_update. destruct (steer t pl) as [x b]. simpl. destruct (rs b) as [w h]. reflexivity. Qed.

Lemma player_update_height (rs : Z -> Z * Z) (t : Q) (pl : player) :
  rect_h (player_update rs t pl) = snd (rs (snd (steer t pl))).
Proof. unfold player_update. destruct (steer t pl) as [x b]. simpl. destruct (rs b) as [w h]. reflexivity. Qed.

(** C28: once the bank angle is odd it stays odd, so it never returns to
    [0]: after a full bank ([min(24 + 2, 25) = 25]) the "return to center"
    branch alternates between [1] and [-1] forever. *)
Theorem bank_never_recenters (rs : Z -> Z * Z) (tilts : list Q) (pl : player) :
  Z.odd (bank_angle pl) = true ->
  Z.odd (bank_angle (run_player rs tilts pl)) = true /\ bank_angle (run_player rs tilts pl) <> 0%Z.
Proof.
  unfold run_player. revert pl. induction tilts as [|t tilts IH]; intros pl Hodd; simpl.
  - split; [exact Hodd | intros E; rewrite E in Hodd; discriminate].
  - apply IH. rewrite (proj1 (player_update_fields rs t pl)).
    destruct (steer_bank_cases t pl) as [E|[E|[E|[E|E]]]]; rewrite E; try reflexivity; [exact Hodd| |];
      rewrite ?Z.odd_sub, ?Z.odd_add, Hodd; reflexivity.
Qed.

(** The bank angle stays within [[-25, 25]]. *)
Theorem bank_bounds (rs : Z -> Z * Z) (tilts : list Q) (pl : player) :
  (-25 <= bank_angle pl <= 25)%Z -> (-25 <= bank_angle (run_player rs tilts pl) <= 25)%Z.
Proof.
  unfold run_player. revert pl. induction tilts as [|t tilts IH]; intros pl H; simpl; [exact H|].
  apply IH. rewrite (proj1 (player_update_fields rs t pl)). now apply steer_bank_bounds.
Qed.

Lemma clamp_axis_inside (pos size area : Z) :
  (0 <= size < area)%Z -> (0 <= clamp_axis pos size area /\ clamp_axis pos size area + size <= area)%Z.
Proof.
  intros H. unfold clamp_axis.
  destruct (area <=? size)%Z eqn:E1; [apply Z.leb_le in E1; lia|].
  destruct (pos <? 0)%Z eqn:E2; [lia|]. apply Z.ltb_ge in E2.
  destruct (area <? pos + size)%Z eqn:E3; [lia|]. apply Z.ltb_ge in E3. lia.
Qed.

(** A frame leaves the ship's left edge inside the screen for the
    width it had when it was clamped. *)
Theorem player_update_on_screen (rs : Z -> Z * Z) (t : Q) (pl : player) :
  (0 <= rect_w pl < WIDTH)%Z ->
  (0 <= rect_x (player_update rs t pl) /\ rect_x (player_update rs t pl) + rect_w pl <= WIDTH)%Z.
Proof. intros H. rewrite (proj2 (player_update_fields rs t pl)). now apply clamp_axis_inside. Qed.

(** C29: pygame's truncation makes slow tilts asymmetric: for a tilt of
    magnitude between the dead band [0.3] and [1.4] the move is below one
    pixel, so the ship does not move right at all, while the same tilt to
    the left moves it one pixel per frame. *)
Theorem slow_tilt_asymmetry (t : Q) (pl : player) :
  0.3 < t < 1.4 -> (1 <= rect_x pl)%Z ->
  fst (steer t pl) = rect_x pl /\ fst (steer (- t) pl) = (rect_x pl - 1)%Z.
Proof.
  intros Ht Hx. unfold steer.
  assert (Ha : Qabs (- t) == t) by (rewrite Qabs_opp; apply Qabs_pos; lra).
  assert (Ha' : Qabs t == t) by (apply Qabs_pos; lra).
  assert (Hn : forall u, Qabs u == t -> 0 < normalized_tilt u * 7 < 1).
  { intros u Hu. pose proof (normalized_tilt_bounds u ltac:(rewrite Hu; lra)) as [N1 _].
    pose proof (py_min_le_l ((Qabs u - 0.3) / (8 - 0.3)) 1) as N2. fold (normalized_tilt u) in N2.
    assert (E : (Qabs u - 0.3) / (8 - 0.3) == (Qabs u - 0.3) * (10 # 77)) by (field; lra).
    rewrite E, Hu in N2. lra. }
  pose proof (Hn t Ha') as [S1 S2]. pose proof (Hn (- t) Ha) as [S3 S4].
  destruct (inject_Z_shift (rect_x pl) 1) as [Em Ep]. change (inject_Z 1) with 1 in Em, Ep.
  rewrite Ha, Ha'. destruct (qltb_spec 0.3 t) as [_|C]; [|lra].
  destruct (qltb_spec t 0) as [C|_]; [lra|]. destruct (qltb_spec 0 t) as [_|C]; [|lra].
  destruct (qltb_spec (- t) 0) as [_|C]; [|lra]. cbn [fst].
  assert (Hxq : 1 <= inject_Z (rect_x pl)) by (change 1 with (inject_Z 1); rewrite <- Zle_Qle; exact Hx).
  split.
  - rewrite q_trunc_nonneg by lra. apply Qfloor_unique; rewrite ?Ep; lra.
  - rewrite q_trunc_nonneg by lra. apply Qfloor_unique; rewrite ?Em;
      [|replace (rect_x pl - 1 + 1)%Z with (rect_x pl) by lia]; lra.
Qed.

(** The menu preview stays within [[30, WIDTH - 30]]. *)
Theorem preview_step_bounds (t x : Q) : 30 <= preview_step t x <= inject_Z WIDTH - 30.
Proof.
  unfold preview_step. split; [apply py_max_ge_l|].
  apply py_max_lub; [change (inject_Z WIDTH) with 800; lra | apply py_min_le_l].
Qed.

(** C30: the gauge's active bar always lies within the gauge
    [[WIDTH/2 - 150, WIDTH/2 + 150]], for any value of [current_tilt], and is
    green exactly when [|tilt| < 3]. *)
Theorem gauge_bar_inside (t : Q) :
  let '(edge, len, green) := gauge_bar t in
  250 <= edge /\ edge + len <= 550 /\ 0 <= len <= 150 /\ (green = true <-> Qabs t < 3).
Proof.
  unfold gauge_bar. cbv zeta.
  pose proof (clamp_bounds (-10) 10 t ltac:(lra)) as Hc.
  set (c := clamp (-10) 10 t) in *.
  assert (E : c / 10 == c * (1 # 10)) by (field; lra).
  change (inject_Z (300 / 2)) with 150. change (inject_Z (WIDTH / 2)) with 400.
  destruct (qltb_spec 0 (c / 10)) as [H|H]; (split; [|split; [|split]]);
    try (rewrite qltb_true; reflexivity); rewrite ?E in *; qabs_elim; lra.
Qed.

(** ** Witnesses *)

(** Thirteen frames of right tilt bank the ship to [25]; thirty frames with
    no tilt afterwards leave it at an odd angle. *)
Lemma bank_never_recenters_witness :
  bank_angle (run_player (fun _ => (50, 60)%Z) (repeat 5 13) player_init) = 25%Z /\
  bank_angle (run_player (fun _ => (50, 60)%Z) (repeat 0 30)
                (run_player (fun _ => (50, 60)%Z) (repeat 5 13) player_init)) <> 0%Z.
Proof.
  split; [vm_compute; reflexivity|].
  apply (bank_never_recenters (fun _ => (50, 60)%Z) (repeat 0 30)). vm_compute. reflexivity.
Defined.

Lemma bank_bounds_witness :
  (-25 <= bank_angle (run_player (fun _ => (50, 60)%Z) (repeat (5 : Q) 40) player_init) <= 25)%Z.
Proof. apply bank_bounds. vm_compute. split; discriminate. Defined.

Lemma player_update_on_screen_witness :
  (0 <= rect_x (player_update (fun _ => (50, 60)%Z) (-10)%Q player_init) /\
   rect_x (player_update (fun _ => (50, 60)%Z) (-10)%Q player_init) + rect_w player_init <= WIDTH)%Z.
Proof. apply player_update_on_screen. vm_compute. split; [discriminate | reflexivity]. Defined.

Lemma slow_tilt_asymmetry_witness :
  fst (steer 1.2 player_init) = rect_x player_init /\
  fst (steer (- 1.2) player_init) = (rect_x player_init - 1)%Z.
Proof. apply slow_tilt_asymmetry; [split; reflexivity | vm_compute; discriminate]. Defined.
