(* ===== verification/System.v ===== *)
(** * System: the listener thread and the game thread of [src/Game.py]

    [main] starts [iottalk_listener] in a daemon thread (lines 414-416)
    and runs the menu and the frames in the main thread.  The only shared
    state is the global [current_tilt].  [sys_step] interleaves the two
    threads at the granularity of Python statements: the listener takes a
    pass ([TiltController.listener_writes]) and performs its assignments
    to [current_tilt] one at a time; a step of the game thread may run
    between any two of them and reads whatever value is stored.  The game
    thread is a parameter: a relation [frame_step] on its own state, so
    the invariants on [current_tilt] hold for every game thread.  Here it
    is the player alone ([ship_frame]); [Main] instantiates it with the
    whole of [main()]. *)

From Stdlib Require Import QArith Qabs Lqa Psatz ZArith Lia List Bool.
From S2P Require Import Prelude PyValue Normalize TiltController Motion.
Import ListNotations.

(** The shared global, the assignments of the current listener pass that
    are still to run, and the state of the game thread. *)
Record sys (G : Type) : Type := {
  tilt : Q;
  pending : list Q;
  game : G
}.
Arguments tilt {G} s.
Arguments pending {G} s.
Arguments game {G} s.

Section Threads.
Context {G : Type}.
Variable p : tilt_params.
(** What one iteration of the game thread may do to its state, given the
    value of [current_tilt] it reads. *)
Variable frame_step : Q -> G -> G -> Prop.
(** The game thread's state when the listener thread starts. *)
Variable g0 : G.

(** Process start: [current_tilt = 0.0] (line 20), no pass under way. *)
Definition sys_init : sys G := {| tilt := 0; pending := []; game := g0 |}.

Inductive sys_step : sys G -> sys G -> Prop :=
| step_pull (s : sys G) (r : pull_result) :
    pending s = [] ->
    sys_step s {| tilt := tilt s; pending := fst (listener_writes p r); game := game s |}
| step_write (s : sys G) (w : Q) (ws : list Q) :
    pending s = w :: ws ->
    sys_step s {| tilt := w; pending := ws; game := game s |}
| step_frame (s : sys G) (g' : G) :
    frame_step (tilt s) (game s) g' ->
    sys_step s {| tilt := tilt s; pending := pending s; game := g' |}.

Inductive reachable : sys G -> Prop :=
| reach_init : reachable sys_init
| reach_step (s s' : sys G) : reachable s -> sys_step s s' -> reachable s'.

(** An invariant of the system is a property of the initial state that
    every step preserves. *)
Lemma reachable_ind_inv (I : sys G -> Prop) :
  I sys_init -> (forall s s', I s -> sys_step s s' -> I s') -> forall s, reachable s -> I s.
Proof. intros H0 Hs s R. induction R; eauto. Qed.

(** An invariant of the game thread alone: what every frame preserves,
    whatever it reads. *)
Lemma reachable_game_inv (I : G -> Prop) :
  I g0 -> (forall t g g', I g -> frame_step t g g' -> I g') ->
  forall s, reachable s -> I (game s).
Proof.
  intros H0 Hf. apply reachable_ind_inv; [exact H0|].
  intros s s' H Hs. inversion Hs; subst; simpl; eauto.
Qed.

End Threads.

(** The player thread of the first model: a frame is [Player.update]. *)
Definition ship_frame (rot_size : Z -> Z * Z) (t : Q) (pl pl' : player) : Prop :=
  pl' = player_update rot_size t pl.

(** ** Invariants under every interleaving *)

Section Invariants.
Context {G : Type}.
Variable p : tilt_params.
Variable frame_step : Q -> G -> G -> Prop.
Variable g0 : G.

Lemma last_cons_default {A : Type} (w : A) (ws : list A) (d : A) : last (w :: ws) d = last ws w.
Proof.
  revert w d. induction ws as [|y ys IH]; intros w d; [reflexivity|].
  change (last (y :: ys) d = last (y :: ys) w). now rewrite !IH.
Qed.

(** The value [current_tilt] will hold once the pass under way is over. *)
Definition settled (s : sys G) : Q := last (pending s) (tilt s).

Lemma settled_range (s : sys G) :
  reachable p frame_step g0 s -> -10 <= settled s <= 10.
Proof.
  revert s. apply (reachable_ind_inv p frame_step g0 (fun s => -10 <= settled s <= 10));
    [unfold settled; simpl; lra|].
  intros s0 s1 H Hs. unfold settled in *. inversion Hs as [? r Hp | ? w ws Hp |]; subst; simpl.
  - rewrite Hp in H. simpl in H. exact (listener_step_range p (tilt s0) r H).
  - rewrite Hp, last_cons_default in H. exact H.
  - exact H.
Qed.

(** C4: between two listener passes, which is when no assignment of a
    pass is pending, [current_tilt] is in [[-10, 10]] whatever the
    interleaving. *)
Theorem tilt_range_between_passes (s : sys G) :
  reachable p frame_step g0 s -> pending s = [] -> -10 <= tilt s <= 10.
Proof. intros R Hp. pose proof (settled_range s R) as H. unfold settled in H. now rewrite Hp in H. Qed.

Hypothesis dead_zone_nonneg : 0 <= dead_zone p.
Hypothesis scale_pos : 0 < scale_factor p.
Hypothesis gap_fits : dead_zone p * scale_factor p <= 10.

Lemma listener_writes_gap (r : pull_result) : Forall (zero_or_large p) (fst (listener_writes p r)).
Proof.
  destruct r as [| |data]; simpl; [constructor | constructor |].
  destruct Listener.iottalk_gamma as [[g|]|]; simpl.
  - apply gamma_writes_gap; assumption.
  - constructor; [left; reflexivity | constructor].
  - constructor.
Qed.

(** C25: every value a frame can read in [current_tilt], the unclamped
    intermediate one included, is [0] or at least
    [dead_zone * scale_factor] in magnitude; with [Game.py]'s constants
    that is [1.001], so the frames' own dead band of [0.3] never decides
    anything. *)
Theorem tilt_zero_or_large (s : sys G) :
  reachable p frame_step g0 s -> zero_or_large p (tilt s).
Proof.
  intros R. enough (Forall (zero_or_large p) (tilt s :: pending s)) as H by (inversion H; auto).
  revert s R. apply (reachable_ind_inv p frame_step g0 (fun s => Forall (zero_or_large p) (tilt s :: pending s))).
  - constructor; [left; reflexivity | constructor].
  - intros s0 s1 H Hs. inversion H as [|? ? Ht Hp']; subst.
    inversion Hs as [? r Hp | ? w ws Hp |]; subst; simpl.
    + constructor; [exact Ht | apply listener_writes_gap].
    + rewrite Hp in Hp'. exact Hp'.
    + constructor; assumption.
Qed.
End Invariants.

Section Ship.
Variable p : tilt_params.
Variable rot_size : Z -> Z * Z.
(** The rotated ship image is at least as wide as the ship and narrower
    than the screen. *)
Hypothesis rot_width : forall b, (50 <= fst (rot_size b) < WIDTH)%Z.

Definition ship_ok (pl : player) : Prop :=
  (0 <= rect_x pl <= WIDTH - 50)%Z /\ (50 <= rect_w pl < WIDTH)%Z /\ (-25 <= bank_angle pl <= 25)%Z.

Lemma player_update_ok (t : Q) (pl : player) : ship_ok pl -> ship_ok (player_update rot_size t pl).
Proof.
  intros [Hx [Hw Hb]].
  destruct (player_update_fields rot_size t pl) as [Eb Ex].
  pose proof (clamp_axis_inside (fst (steer t pl)) (rect_w pl) WIDTH ltac:(lia)) as Hc.
  pose proof (rot_width (snd (steer t pl))) as Hr.
  pose proof (steer_bank_bounds t pl Hb).
  unfold ship_ok. rewrite Ex, Eb, player_update_size. lia.
Qed.

Lemma player_init_ok : ship_ok player_init.
Proof. unfold ship_ok; vm_compute; repeat split; first [discriminate | reflexivity]. Qed.

(** C6: under every interleaving of the two threads the ship's left edge
    stays within [[0, WIDTH - 50]], its width is the rotated image's and
    its bank angle within [[-25, 25]]. *)
Theorem ship_invariant (s : sys player) :
  reachable p (ship_frame rot_size) player_init s -> ship_ok (game s).
Proof.
  apply reachable_game_inv; [exact player_init_ok|].
  intros t pl pl' H ->. apply player_update_ok, H.
Qed.
End Ship.

(** C5: the two-step assignment of lines 89-91 is observable: a frame can
    run while [current_tilt] holds the unclamped [offset * scale_factor],
    here [77.6776] for the reading [100] with [Game.py]'s constants. *)
Theorem unclamped_read_reachable (rot_size : Z -> Z * Z) :
  exists s, reachable game_params (ship_frame rot_size) player_init s /\ 10 < tilt s /\
    reachable game_params (ship_frame rot_size) player_init
      {| tilt := tilt s; pending := pending s; game := player_update rot_size (tilt s) (game s) |}.
Proof.
  set (r := PullData (PList [PList [PFloat 0; PFloat 0; PFloat 100]])).
  set (w := (100 - baseline game_params) * scale_factor game_params).
  set (R := reachable game_params (ship_frame rot_size) player_init).
  assert (E : fst (listener_writes game_params r) = [w; clamp (-10) 10 w]) by (vm_compute; reflexivity).
  assert (R1 : R {| tilt := 0; pending := fst (listener_writes game_params r); game := player_init |})
    by (apply (reach_step game_params (ship_frame rot_size) player_init (sys_init player_init));
        [constructor | exact (step_pull game_params (ship_frame rot_size) (sys_init player_init) r eq_refl)]).
  assert (R2 : R {| tilt := w; pending := [clamp (-10) 10 w]; game := player_init |}).
  { eapply reach_step; [exact R1 | apply step_write; simpl; exact E]. }
  exists {| tilt := w; pending := [clamp (-10) 10 w]; game := player_init |}. simpl.
  split; [exact R2|]. split; [vm_compute; reflexivity|].
  eapply reach_step; [exact R2 | apply step_frame; reflexivity].
Qed.

(** ** Witnesses *)

Lemma tilt_range_between_passes_witness :
  -10 <= tilt (sys_init player_init) <= 10.
Proof.
  apply (tilt_range_between_passes game_params (ship_frame (fun _ => (50, 60)%Z)) player_init
           (sys_init player_init));
    [constructor | reflexivity].
Defined.

Lemma tilt_zero_or_large_witness : zero_or_large game_params (tilt (sys_init player_init)).
Proof.
  refine (tilt_zero_or_large game_params (ship_frame (fun _ => (50, 60)%Z)) player_init _ _ _
            (sys_init player_init) _); [cbn; lra | cbn; lra | cbn; lra | constructor].
Defined.

Lemma ship_invariant_witness : ship_ok (game (sys_init player_init)).
Proof.
  apply (ship_invariant game_params (fun _ => (50, 60)%Z)); [|constructor].
  intros b. vm_compute. split; [discriminate | reflexivity].
Defined.
