(* ===== verification/Sprites.v ===== *)
(** * Sprites: the moving objects of [src/Game.py]

    [Particle] (lines 114-135), [Star] (137-152), [Enemy] (216-253) and
    [Bullet] (255-269), without their drawing.  Positions that live in a
    pygame [Rect] are C ints; [Star] keeps floats.  Random draws are
    inputs: a raw integer [r] stands for [randrange(n)] as [r mod n], so
    every draw the source can make is covered and nothing else.  [kill()]
    is an [option] result: [None] once the sprite has left its groups. *)

From Stdlib Require Import QArith Qabs Lqa Psatz ZArith Lia List Bool.
From S2P Require Import Prelude Motion.
Import ListNotations.

(** ** Rectangles *)

Record rect : Type := { rx : Z; ry : Z; rw : Z; rh : Z }.

(** [Rect.colliderect], as pygame's [_pg_do_rects_intersect] computes it. *)
Definition colliderect (a b : rect) : bool :=
  if (rw a =? 0)%Z || (rh a =? 0)%Z || (rw b =? 0)%Z || (rh b =? 0)%Z then false
  else (Z.min (rx a) (rx a + rw a) <? Z.max (rx b) (rx b + rw b))%Z &&
       (Z.min (ry a) (ry a + rh a) <? Z.max (ry b) (ry b + rh b))%Z &&
       (Z.min (rx b) (rx b + rw b) <? Z.max (rx a) (rx a + rw a))%Z &&
       (Z.min (ry b) (ry b + rh b) <? Z.max (ry a) (ry a + rh a))%Z.

(** ** Particle (lines 114-135) *)

Record particle : Type := {
  p_rect : rect;
  p_vx : Q; p_vy : Q;
  p_life : Z; p_original_life : Z;
  p_alpha : Z  (** the alpha last set on the image, [255] at creation *)
}.

(** [Particle(x, y, color, speed_x, speed_y, life)]: a 4 x 4 surface
    centred at [(x, y)]. *)
Definition particle_new (x y : Z) (vx vy : Q) (life : Z) : particle :=
  {| p_rect := {| rx := x - 2; ry := y - 2; rw := 4; rh := 4 |};
     p_vx := vx; p_vy := vy; p_life := life; p_original_life := life; p_alpha := 255 |}.

(** [Particle.update]: move, age, then die or fade. *)
Definition particle_update (pt : particle) : option particle :=
  let r := p_rect pt in
  let r' := {| rx := q_trunc (inject_Z (rx r) + p_vx pt); ry := q_trunc (inject_Z (ry r) + p_vy pt);
               rw := rw r; rh := rh r |} in
  let life := (p_life pt - 1)%Z in
  if (life <=? 0)%Z then None
  else Some {| p_rect := r'; p_vx := p_vx pt; p_vy := p_vy pt; p_life := life;
               p_original_life := p_original_life pt;
               p_alpha := q_trunc (inject_Z life / inject_Z (p_original_life pt) * 255) |}.

(** [n] frames of a sprite whose update may [kill()] it; a killed sprite
    is no longer updated. *)
Fixpoint iter_opt {A : Type} (f : A -> option A) (n : nat) (x : option A) : option A :=
  match n with
  | O => x
  | S k => iter_opt f k (match x with Some a => f a | None => None end)
  end.

(** ** Star (lines 137-152) *)

Record star : Type := { st_x : Z; st_y : Q; st_speed : Q }.

(** [Star.update]; [redraw_x] is the [random.randint(0, WIDTH)] of the
    wrap-around. *)
Definition star_update (redraw_x : Z) (s : star) : star :=
  let y := st_y s + st_speed s in
  if qltb (inject_Z HEIGHT) y then {| st_x := redraw_x mod (WIDTH + 1); st_y := 0; st_speed := st_speed s |}
  else {| st_x := st_x s; st_y := y; st_speed := st_speed s |}.

(** ** Enemy (lines 216-253) *)

(** The raw draws of [reset_pos]: [randrange(WIDTH - w)],
    [randrange(-150, -50)] and [randrange(3, 7)]. *)
Record reset_draw : Type := { d_x : Z; d_y : Z; d_speed : Z }.

Record enemy : Type := {
  e_rect : rect;
  e_speedy : Z;
  e_rotation : Z;
  e_rot_speed : Z
}.

(** [Enemy.reset_pos]. *)
Definition reset_pos (d : reset_draw) (e : enemy) : enemy :=
  let r := e_rect e in
  {| e_rect := {| rx := d_x d mod (WIDTH - rw r); ry := -150 + d_y d mod 100; rw := rw r; rh := rh r |};
     e_speedy := 3 + d_speed d mod 4; e_rotation := e_rotation e; e_rot_speed := e_rot_speed e |}.

(** [Enemy.__init__]: [randint(30, 45)] for the size, [choice([-3, 3])]
    for the spin, then [reset_pos]. *)
Definition enemy_new (d_size : Z) (spin_left : bool) (d : reset_draw) : enemy :=
  let size := (30 + d_size mod 16)%Z in
  reset_pos d {| e_rect := {| rx := 0; ry := 0; rw := size; rh := size |}; e_speedy := 0;
                 e_rotation := 0; e_rot_speed := if spin_left then (-3)%Z else 3%Z |}.

(** [Enemy.update]: fall, spin, and come back above the screen once the
    top is more than ten pixels below the bottom edge. *)
Definition enemy_update (d : reset_draw) (e : enemy) : enemy :=
  let r := e_rect e in
  let e' := {| e_rect := {| rx := rx r; ry := ry r + e_speedy e; rw := rw r; rh := rh r |};
               e_speedy := e_speedy e; e_rotation := (e_rotation e + e_rot_speed e) mod 360;
               e_rot_speed := e_rot_speed e |} in
  if (HEIGHT + 10 <? ry (e_rect e'))%Z then reset_pos d e' else e'.

(** [n] frames of an enemy; [ds i] is the draw the [i]-th frame would use
    if it resets the enemy. *)
Fixpoint enemy_run (ds : nat -> reset_draw) (n : nat) (e : enemy) : enemy :=
  match n with
  | O => e
  | S k => enemy_run (fun i => ds (S i)) k (enemy_update (ds O) e)
  end.

(** The shape of every enemy on screen: its size and lane, its height
    between the highest respawn and the reset line, its speed, its
    rotation and its spin. *)
Definition enemy_wf (e : enemy) : Prop :=
  let r := e_rect e in
  (30 <= rw r <= 45)%Z /\ rh r = rw r /\ (0 <= rx r < WIDTH - rw r)%Z /\
  (-150 <= ry r <= HEIGHT + 10)%Z /\ (3 <= e_speedy e <= 6)%Z /\
  (0 <= e_rotation e < 360)%Z /\ (e_rot_speed e = -3 \/ e_rot_speed e = 3)%Z.

(** ** Bullet (lines 255-269) *)

Record bullet : Type := { b_rect : rect }.

(** [Bullet(x, y)]: a 6 x 20 rectangle with its bottom at [y] and its
    centre at [x]. *)
Definition bullet_new (x y : Z) : bullet :=
  {| b_rect := {| rx := x - 3; ry := y - 20; rw := 6; rh := 20 |} |}.

Definition bullet_speedy : Z := (-12)%Z.

(** [Bullet.update]: up twelve pixels; gone once the bottom is above the
    screen. *)
Definition bullet_update (b : bullet) : option bullet :=
  let r := b_rect b in
  let r' := {| rx := rx r; ry := ry r + bullet_speedy; rw := rw r; rh := rh r |} in
  if (ry r' + rh r' <? 0)%Z then None else Some {| b_rect := r' |}.

(** ** Lifetimes and ranges *)

Lemma iter_opt_none {A : Type} (f : A -> option A) (n : nat) : iter_opt f n None = None.
Proof. induction n; simpl; auto. Qed.

Lemma iter_opt_S_last {A : Type} (f : A -> option A) (n : nat) (x : option A) :
  iter_opt f (S n) x = match iter_opt f n x with Some a => f a | None => None end.
Proof.
  revert x. induction n as [|n IH]; intros x; [reflexivity|].
  change (iter_opt f (S (S n)) x) with (iter_opt f (S n) (match x with Some a => f a | None => None end)).
  rewrite IH. reflexivity.
Qed.

Lemma iter_opt_S {A : Type} (f : A -> option A) (n : nat) (a : A) :
  iter_opt f (S n) (Some a) = iter_opt f n (f a).
Proof. reflexivity. Qed.

(** A bullet whose bottom stays at or below the top edge moves up 12 pixels. *)
Lemma bullet_update_alive (b : bullet) :
  (0 <= ry (b_rect b) + rh (b_rect b) - 12)%Z ->
  bullet_update b =
    Some {| b_rect := {| rx := rx (b_rect b); ry := ry (b_rect b) - 12;
                         rw := rw (b_rect b); rh := rh (b_rect b) |} |}.
Proof.
  intros H. unfold bullet_update, bullet_speedy; cbn.
  destruct (_ <? 0)%Z eqn:E; [apply Z.ltb_lt in E; lia|].
  reflexivity.
Qed.

(** [k] frames of a bullet that stays on screen move it up [12 k] pixels. *)
Lemma bullet_iter (k : nat) (b : bullet) :
  (0 <= ry (b_rect b) + rh (b_rect b) - 12 * Z.of_nat k)%Z ->
  iter_opt bullet_update k (Some b) =
    Some {| b_rect := {| rx := rx (b_rect b); ry := ry (b_rect b) - 12 * Z.of_nat k;
                         rw := rw (b_rect b); rh := rh (b_rect b) |} |}.
Proof.
  revert b. induction k as [|k IH]; intros [[x y w h]] H.
  - simpl. now rewrite Z.sub_0_r.
  - rewrite Nat2Z.inj_succ in *. cbn [b_rect ry rh rx rw] in *.
    rewrite iter_opt_S, bullet_update_alive by (cbn; lia).
    rewrite IH by (cbn [b_rect ry rh]; lia). cbn [b_rect ry rh rx rw]. do 3 f_equal. lia.
Qed.

(** C14: a bullet fired with its bottom at [y >= 0] survives exactly
    [y / 12] frames and is killed at the next one. *)
Theorem bullet_lifetime (x y : Z) :
  (0 <= y)%Z ->
  iter_opt bullet_update (Z.to_nat (y / 12)) (Some (bullet_new x y)) <> None /\
  iter_opt bullet_update (S (Z.to_nat (y / 12))) (Some (bullet_new x y)) = None.
Proof.
  intros Hy. pose proof (Z.div_mod y 12 ltac:(lia)) as Hd. pose proof (Z.mod_pos_bound y 12 ltac:(lia)).
  assert (Hk : (0 <= y - 12 * Z.of_nat (Z.to_nat (y / 12)))%Z) by (rewrite Z2Nat.id by (apply Z.div_pos; lia); lia).
  split; [|rewrite iter_opt_S_last]; rewrite bullet_iter by (cbn [bullet_new b_rect ry rh]; lia); [discriminate|].
  unfold bullet_update, bullet_speedy; cbn [bullet_new b_rect ry rh].
  destruct (_ <? 0)%Z eqn:E; [reflexivity|]. apply Z.ltb_ge in E.
  rewrite Z2Nat.id in E by (apply Z.div_pos; lia). lia.
Qed.

(** ** The enemy invariant *)

Lemma reset_pos_wf (d : reset_draw) (e : enemy) :
  (30 <= rw (e_rect e) <= 45)%Z -> rh (e_rect e) = rw (e_rect e) ->
  (0 <= e_rotation e < 360)%Z -> (e_rot_speed e = -3 \/ e_rot_speed e = 3)%Z ->
  enemy_wf (reset_pos d e) /\ (ry (e_rect (reset_pos d e)) < 0)%Z.
Proof.
  intros Hw Hh Hr Hs. unfold enemy_wf, reset_pos, WIDTH, HEIGHT; cbn [e_rect rw rh rx ry e_speedy e_rotation e_rot_speed].
  pose proof (Z.mod_pos_bound (d_x d) (800 - rw (e_rect e)) ltac:(lia)).
  pose proof (Z.mod_pos_bound (d_y d) 100 ltac:(lia)).
  pose proof (Z.mod_pos_bound (d_speed d) 4 ltac:(lia)). lia.
Qed.

Lemma enemy_new_wf (d_size : Z) (spin_left : bool) (d : reset_draw) :
  enemy_wf (enemy_new d_size spin_left d).
Proof.
  pose proof (Z.mod_pos_bound d_size 16 ltac:(lia)).
  unfold enemy_new. eapply proj1, reset_pos_wf; cbn [e_rect rw rh e_rotation e_rot_speed]; [lia | reflexivity | lia | destruct spin_left; auto].
Qed.

(** One frame either moves the enemy down by its speed, or resets it above
    the screen exactly when that move passes the reset line. *)
Lemma enemy_update_cases (d : reset_draw) (e : enemy) :
  enemy_wf e ->
  enemy_wf (enemy_update d e) /\
  (if (HEIGHT + 10 <? ry (e_rect e) + e_speedy e)%Z
   then (ry (e_rect (enemy_update d e)) < 0)%Z
   else ry (e_rect (enemy_update d e)) = (ry (e_rect e) + e_speedy e)%Z).
Proof.
  intros (Hw & Hh & Hx & Hy & Hv & Hr & Hs). unfold enemy_update; cbn [e_rect ry].
  pose proof (Z.mod_pos_bound (e_rotation e + e_rot_speed e) 360 ltac:(lia)).
  destruct (_ <? _)%Z eqn:E.
  - apply reset_pos_wf; cbn [e_rect rw rh e_rotation e_rot_speed]; auto.
  - apply Z.ltb_ge in E. unfold enemy_wf in *; cbn [e_rect rw rh rx ry e_speedy e_rotation e_rot_speed]; repeat split; lia.
Qed.

(** C12: an enemy stays in its lane, between its highest respawn point
    and ten pixels below the screen, with a speed of 3 to 6 pixels and a
    rotation in [0, 360), through any number of frames and any random
    draws. *)
Theorem enemy_invariant (ds : nat -> reset_draw) (n : nat) (d_size : Z) (spin_left : bool)
    (d : reset_draw) :
  enemy_wf (enemy_run ds n (enemy_new d_size spin_left d)).
Proof.
  generalize (enemy_new_wf d_size spin_left d). generalize (enemy_new d_size spin_left d).
  revert ds. induction n as [|n IH]; intros ds e He; [exact He|].
  apply IH. apply (enemy_update_cases (ds O) e He).
Qed.

Lemma enemy_run_S (ds : nat -> reset_draw) (n : nat) (e : enemy) :
  enemy_run ds (S n) e = enemy_run (fun i => ds (S i)) n (enemy_update (ds O) e).
Proof. reflexivity. Qed.

Lemma enemy_reaches_reset (n : nat) : forall (ds : nat -> reset_draw) (e : enemy),
  enemy_wf e -> (HEIGHT + 10 < ry (e_rect e) + 3 * Z.of_nat n)%Z ->
  exists k, (k < n)%nat /\
    (HEIGHT + 10 < ry (e_rect (enemy_run ds k e)) + e_speedy (enemy_run ds k e))%Z.
Proof.
  induction n as [|n IH]; intros ds e He Hn.
  - destruct He as (_ & _ & _ & Hy & _). simpl Z.of_nat in Hn. lia.
  - destruct (HEIGHT + 10 <? ry (e_rect e) + e_speedy e)%Z eqn:E.
    + exists O. split; [lia|]. apply Z.ltb_lt in E. exact E.
    + destruct (enemy_update_cases (ds O) e He) as [He' Hy]. rewrite E in Hy.
      destruct He as (_ & _ & _ & _ & Hv & _).
      destruct (IH (fun i => ds (S i)) (enemy_update (ds O) e) He') as (k & Hk & Hr);
        [rewrite Hy; lia|].
      exists (S k). split; [lia|]. exact Hr.
Qed.

(** C13: every enemy on screen comes back above the screen: within 254
    frames one of them moves it past the reset line, so that frame's
    [reset_pos] puts it at a negative height again. *)
Theorem enemy_comes_back (ds : nat -> reset_draw) (e : enemy) :
  enemy_wf e ->
  exists k, (k < 254)%nat /\
    (ry (e_rect (enemy_run ds (S k) e)) < 0)%Z.
Proof.
  intros He. destruct (enemy_reaches_reset 254 ds e He) as (k & Hk & Hr);
    [destruct He as (_ & _ & _ & Hy & _); cbn; lia|].
  exists k. split; [exact Hk|].
  assert (Hrun : forall j ds' e', enemy_run ds' (S j) e' = enemy_update (ds' j) (enemy_run ds' j e')).
  { induction j as [|j IHj]; intros; [reflexivity|]. rewrite enemy_run_S, IHj. reflexivity. }
  rewrite Hrun. assert (Hwf : enemy_wf (enemy_run ds k e)).
  { clear Hr Hk Hrun. revert ds e He. induction k; intros; [exact He|]. apply IHk, enemy_update_cases, He. }
  destruct (enemy_update_cases (ds k) _ Hwf) as [_ Hc]. apply Z.ltb_lt in Hr. rewrite Hr in Hc. exact Hc.
Qed.

(** Witnesses. *)

Lemma bullet_lifetime_witness :
  (0 <= 490)%Z /\
  iter_opt bullet_update (Z.to_nat (490 / 12)) (Some (bullet_new 400 490)) <> None /\
  iter_opt bullet_update (S (Z.to_nat (490 / 12))) (Some (bullet_new 400 490)) = None.
Proof. split; [lia | apply bullet_lifetime; lia]. Defined.

Lemma enemy_comes_back_witness :
  enemy_wf (enemy_new 7 true {| d_x := 123; d_y := 45; d_speed := 2 |}) /\
  exists k, (k < 254)%nat /\
    (ry (e_rect (enemy_run (fun _ => {| d_x := 0; d_y := 0; d_speed := 0 |}) (S k)
                  (enemy_new 7 true {| d_x := 123; d_y := 45; d_speed := 2 |}))) < 0)%Z.
Proof. split; [apply enemy_new_wf | apply enemy_comes_back, enemy_new_wf]. Defined.
