(* ===== verification/PyFormat.v ===== *)
(** * PyFormat: Python's format specifications on numbers

    The program prints numbers through f-strings: [{data[0]:.2f}] in
    [src/SA.py] (line 26), [{score:05d}], [{minutes:02d}] and
    [{seconds:02d}] in [draw_hud] and [{score}] on the game-over screen of
    [src/Game.py] (lines 296, 328, 513).  This file holds those
    formatters, built on one decimal printer ([z_digits]), and their
    round trips through [float()] ([PyValue.parse_float]): what the
    program prints reads back as the value it printed, rounded where the
    format rounds. *)

From Stdlib Require Import QArith Qabs Qround Lqa ZArith Lia List Bool String Ascii.
From S2P Require Import Prelude PyValue.
Import ListNotations.

(** ** [format(x, '.2f')] *)

Definition digit_char (d : nat) : ascii := ascii_of_nat (48 + d).

(** The decimal digits of [n >= 0], most significant first, with [fuel]
    bounding their number. *)
Fixpoint dec_digits (fuel : nat) (n : Z) : list nat :=
  match fuel with
  | O => []
  | S f => if (n <? 10)%Z then [Z.to_nat n] else dec_digits f (n / 10) ++ [Z.to_nat (n mod 10)]
  end.

(** [str(n)] for [n >= 0]: [n] has at most [log2 n + 1] digits. *)
Definition z_digits (n : Z) : list nat := dec_digits (S (Z.to_nat (Z.log2 n))) n.

(** Rounding to the nearest integer, ties to even. *)
Definition round_half_even (a : Q) : Z :=
  let f := Qfloor a in
  let r := a - inject_Z f in
  if qltb r (1 # 2) then f
  else if qltb (1 # 2) r then (f + 1)%Z
  else if Z.even f then f else (f + 1)%Z.

(** [format(q, '.2f')]: the sign, the integer part, a point and two
    decimals of the value rounded to hundredths. *)
Definition format_2f_chars (q : Q) : list ascii :=
  let n := round_half_even (Qabs q * 100) in
  (if qltb q 0 then ["-"%char] else []) ++ map digit_char (z_digits (n / 100)) ++
  "."%char :: map digit_char [Z.to_nat ((n mod 100) / 10); Z.to_nat (n mod 10)].

Definition format_2f (q : Q) : string := string_of_list_ascii (format_2f_chars q).

(** [f"{v:.2f}"]: numbers go through [float()] ([OverflowError] on a huge
    [int]); [str] has no [f] format ([ValueError]); [None], [list] and
    [dict] reject a format spec ([TypeError]). *)
Definition format_value_2f (v : pyval) : res string :=
  match v with
  | PStr _ => Raise ValueError
  | _ => let? q := py_float v in Ok (format_2f q)
  end.


(** [format(n, '0<w>d')] on an [int]: the sign, then zeros up to the
    width [w] (which counts the sign), then the digits of [|n|].  [str(n)]
    is the width [0]. *)
Definition format_0d_chars (w : nat) (n : Z) : list ascii :=
  let ds := map digit_char (z_digits (Z.abs n)) in
  let sign := if (n <? 0)%Z then ["-"%char] else [] in
  sign ++ repeat "0"%char (w - List.length sign - List.length ds) ++ ds.

Definition format_0d (w : nat) (n : Z) : string := string_of_list_ascii (format_0d_chars w n).

Definition py_str_int (n : Z) : string := format_0d 0 n.

(** ** Reading back what [format_2f] prints *)

Lemma digit_val_char (d : nat) : (d < 10)%nat -> digit_val (digit_char d) = Some d.
Proof.
  intros Hd. unfold digit_val, digit_char. rewrite nat_ascii_embedding by lia.
  replace ((48 <=? 48 + d)%nat && (48 + d <=? 57)%nat) with true
    by (symmetry; apply andb_true_intro; split; apply Nat.leb_le; lia).
  f_equal. lia.
Qed.

(** What may follow a digit part without extending it. *)
Definition digits_end (rest : list ascii) : Prop :=
  match rest with
  | [] => True
  | c :: _ => digit_val c = None /\ Ascii.eqb c "_"%char = false
  end.

Lemma read_digits_chars (ds : list nat) (rest : list ascii) (b : bool) :
  Forall (fun d => d < 10)%nat ds -> digits_end rest ->
  read_digits b (map digit_char ds ++ rest) = (ds, rest).
Proof.
  revert b. induction ds as [|d ds IH]; intros b Hds Hr; cbn [map app].
  - destruct rest as [|c r]; [reflexivity|]. destruct Hr as [H1 H2].
    cbn [read_digits]. rewrite H1, H2, andb_false_r. reflexivity.
  - inversion Hds; subst. cbn [read_digits].
    rewrite digit_val_char by assumption. rewrite IH by assumption. reflexivity.
Qed.

Lemma digits_value_acc (ds : list nat) (acc : Z) :
  fold_left (fun acc d => acc * 10 + Z.of_nat d)%Z ds acc =
  (acc * 10 ^ Z.of_nat (List.length ds) + digits_value ds)%Z.
Proof.
  unfold digits_value. revert acc. induction ds as [|d ds IH]; intros acc; cbn [fold_left List.length]; [lia|].
  rewrite (IH (acc * 10 + Z.of_nat d)%Z), (IH (0 * 10 + Z.of_nat d)%Z).
  rewrite Nat2Z.inj_succ, Z.pow_succ_r by lia. lia.
Qed.

Lemma digits_value_app (ds1 ds2 : list nat) :
  digits_value (ds1 ++ ds2) = (digits_value ds1 * 10 ^ Z.of_nat (List.length ds2) + digits_value ds2)%Z.
Proof. unfold digits_value at 1. rewrite fold_left_app. apply digits_value_acc. Qed.

(** [dec_digits] with enough fuel spells [n] in base ten. *)
Lemma dec_digits_spec (fuel : nat) : forall n,
  (0 <= n)%Z -> (Z.log2 n < Z.of_nat fuel)%Z ->
  dec_digits fuel n <> [] /\ Forall (fun d => d < 10)%nat (dec_digits fuel n) /\
  digits_value (dec_digits fuel n) = n.
Proof.
  induction fuel as [|f IH]; intros n Hn Hf; [pose proof (Z.log2_nonneg n); lia|].
  simpl. destruct (n <? 10)%Z eqn:E.
  - apply Z.ltb_lt in E. repeat split; [discriminate | constructor; [lia | constructor] |].
    unfold digits_value; simpl. lia.
  - apply Z.ltb_ge in E.
    assert (Hq : (0 < n / 10)%Z) by (apply Z.div_str_pos; lia).
    assert (Hl : (Z.log2 (n / 10) < Z.log2 n)%Z).
    { apply Z.log2_lt_pow2; [exact Hq|].
      destruct (Z.log2_spec n) as [_ Hs]; [lia|].
      rewrite Z.pow_succ_r in Hs by apply Z.log2_nonneg.
      pose proof (Z.mul_div_le n 10 ltac:(lia)). lia. }
    destruct (IH (n / 10)%Z) as (_ & Hf1 & Hv); [lia | lia |].
    pose proof (Z.mod_pos_bound n 10 ltac:(lia)).
    repeat split.
    + intros Hnil. apply app_eq_nil in Hnil. destruct Hnil as [_ Hnil]. discriminate.
    + apply Forall_app. split; [exact Hf1 | constructor; [lia | constructor]].
    + rewrite digits_value_app, Hv. unfold digits_value; cbn [fold_left List.length].
      rewrite Z2Nat.id by lia. pose proof (Z.div_mod n 10 ltac:(lia)). lia.
Qed.

Lemma z_digits_spec (n : Z) :
  (0 <= n)%Z ->
  z_digits n <> [] /\ Forall (fun d => d < 10)%nat (z_digits n) /\ digits_value (z_digits n) = n.
Proof.
  intros Hn. apply dec_digits_spec; [exact Hn|]. rewrite Nat2Z.inj_succ, Z2Nat.id; [lia|].
  apply Z.log2_nonneg.
Qed.

Lemma digit_char_nat (d : nat) : (d < 10)%nat -> nat_of_ascii (digit_char d) = (48 + d)%nat.
Proof. intros Hd. unfold digit_char. apply nat_ascii_embedding. lia. Qed.

Lemma ascii_neq_nat (a b : ascii) : nat_of_ascii a <> nat_of_ascii b -> Ascii.eqb a b = false.
Proof.
  intros H. destruct (Ascii.eqb a b) eqn:E; [|reflexivity].
  apply Ascii.eqb_eq in E. subst. contradiction.
Qed.

(** A digit is not a space, a sign, a point or an underscore. *)
Lemma digit_char_plain (d : nat) :
  (d < 10)%nat ->
  is_space (digit_char d) = false /\ Ascii.eqb (digit_char d) "-"%char = false /\
  Ascii.eqb (digit_char d) "+"%char = false.
Proof.
  intros Hd. split; [|split; apply ascii_neq_nat; rewrite digit_char_nat by exact Hd; cbn; lia].
  unfold is_space. rewrite digit_char_nat by exact Hd.
  apply orb_false_intro; [apply Nat.eqb_neq; lia|].
  apply andb_false_intro2, Nat.leb_gt. lia.
Qed.

Lemma drop_spaces_id (c : ascii) (l : list ascii) :
  is_space c = false -> drop_spaces (c :: l) = c :: l.
Proof. intros H. cbn [drop_spaces]. rewrite H. reflexivity. Qed.

(** [strip] keeps a text that starts and ends with a visible character. *)
Lemma strip_id (c d : ascii) (m : list ascii) :
  is_space c = false -> is_space d = false -> strip (c :: m ++ [d]) = c :: m ++ [d].
Proof.
  intros Hc Hd. unfold strip. rewrite drop_spaces_id by exact Hc.
  rewrite app_comm_cons, rev_unit, drop_spaces_id by exact Hd.
  rewrite <- rev_unit, rev_involutive. reflexivity.
Qed.

(** Rounding half to even is within one half, and keeps a non-negative
    value non-negative. *)
Lemma round_half_even_spec (a : Q) :
  Qabs (inject_Z (round_half_even a) - a) <= 1 # 2 /\ (0 <= a -> (0 <= round_half_even a)%Z).
Proof.
  pose proof (Qfloor_le a) as H1. pose proof (Qlt_floor a) as H2.
  unfold round_half_even. set (f := Qfloor a) in *.
  rewrite inject_Z_plus in H2. change (inject_Z 1) with 1 in H2.
  split.
  - qcase; try destruct (Z.even f); rewrite ?inject_Z_plus; change (inject_Z 1) with 1;
      apply Qabs_case; intros _; lra.
  - intros Ha. assert (0 <= Qfloor a)%Z.
    { rewrite <- (Qfloor_Z 0). apply Qfloor_resp_le. exact Ha. }
    qcase; try destruct (Z.even f); lia.
Qed.

(** [float()] reads back a fixed-point text: sign, integer digits, point,
    two decimals. *)
Lemma parse_fixed (neg : bool) (ip : list nat) (a b : nat) :
  ip <> [] -> Forall (fun d => d < 10)%nat ip -> (a < 10)%nat -> (b < 10)%nat ->
  parse_float_chars ((if neg then ["-"%char] else []) ++ map digit_char ip ++
                     "."%char :: map digit_char [a; b]) =
  Some (inject_Z (if neg then - digits_value (ip ++ [a; b]) else digits_value (ip ++ [a; b]))%Z
        * Qpower 10 (-2)).
Proof.
  intros Hne Hip Ha Hb.
  destruct (digit_char_plain b Hb) as (Hsb & _ & _).
  set (rest := map digit_char ip ++ "."%char :: map digit_char [a; b]).
  assert (Hs : strip ((if neg then ["-"%char] else []) ++ rest) =
               (if neg then ["-"%char] else []) ++ rest).
  { assert (Hr : rest = (map digit_char ip ++ ["."%char; digit_char a]) ++ [digit_char b])
      by (subst rest; rewrite <- app_assoc; reflexivity).
    rewrite Hr. destruct neg; cbn [app].
    - apply strip_id; [reflexivity | exact Hsb].
    - destruct ip as [|i0 ip']; [contradiction|]. inversion Hip; subst.
      destruct (digit_char_plain i0 ltac:(assumption)) as (Hs0 & _ & _).
      apply strip_id; assumption. }
  assert (Hsg : read_sign ((if neg then ["-"%char] else []) ++ rest) = (neg, rest)).
  { destruct neg; [reflexivity|]. cbn [app]. subst rest.
    destruct ip as [|i0 ip']; [contradiction|]. inversion Hip; subst.
    destruct (digit_char_plain i0 ltac:(assumption)) as (_ & Hm & Hp).
    cbn [map app read_sign]. rewrite Hm, Hp. reflexivity. }
  unfold parse_float_chars. rewrite Hs, Hsg. subst rest.
  rewrite read_digits_chars by (try exact Hip; split; reflexivity).
  cbn beta iota. rewrite Ascii.eqb_refl.
  pose proof (read_digits_chars [a; b] [] false) as Hr. rewrite app_nil_r in Hr.
  rewrite Hr by first [exact I | repeat (apply Forall_cons; [assumption|]); apply Forall_nil].
  destruct ip as [|i0 ip']; [contradiction|]. reflexivity.
Qed.

(** [float()] of [format(q, '.2f')] is [q] rounded to hundredths, half
    to even, and that value is within [1/200] of [q]. *)
Lemma format_2f_roundtrip (q : Q) :
  let n := round_half_even (Qabs q * 100) in
  parse_float (format_2f q) = Some (inject_Z (if qltb q 0 then - n else n)%Z * Qpower 10 (-2)) /\
  Qabs (inject_Z (if qltb q 0 then - n else n)%Z * Qpower 10 (-2) - q) <= 1 # 200.
Proof.
  intros n. pose proof (Qabs_nonneg q) as Hq.
  destruct (round_half_even_spec (Qabs q * 100)) as [Hb Hn]. fold n in Hb, Hn.
  specialize (Hn ltac:(lra)).
  destruct (z_digits_spec (n / 100)%Z) as (Hne & Hf & Hv); [apply Z.div_pos; lia|].
  pose proof (Z.mod_pos_bound n 100 ltac:(lia)). pose proof (Z.mod_pos_bound n 10 ltac:(lia)).
  pose proof (Z.div_mod n 100 ltac:(lia)). pose proof (Z.div_mod n 10 ltac:(lia)).
  pose proof (Z.div_mod (n mod 100) 10 ltac:(lia)). pose proof (Z.mod_pos_bound (n mod 100) 10 ltac:(lia)).
  split.
  - unfold parse_float, format_2f. rewrite list_ascii_of_string_of_list_ascii.
    unfold format_2f_chars. fold n. rewrite parse_fixed by (auto; lia).
    do 3 f_equal. rewrite digits_value_app, Hv. unfold digits_value; cbn [fold_left List.length].
    rewrite !Z2Nat.id by (apply Z.div_pos || apply Z.mod_pos_bound; lia).
    destruct (qltb q 0); cbn; lia.
  - change (Qpower 10 (-2)) with (1 # 100). revert Hb. qcase; rewrite ?inject_Z_opp;
      [rewrite (Qabs_neg q) by lra | rewrite (Qabs_pos q) by lra]; intros Hb;
      apply Qabs_case; intros ?; revert Hb; apply Qabs_case; intros ? Hb; lra.
Qed.

(** ** Reading back a formatted integer *)

(** [strip] keeps a text whose first and last characters are visible. *)
Lemma strip_ends (l : list ascii) (c d : ascii) :
  hd_error l = Some c -> hd_error (rev l) = Some d ->
  is_space c = false -> is_space d = false -> strip l = l.
Proof.
  intros Hc Hd Sc Sd. unfold strip. destruct l as [|c' l']; [discriminate|].
  injection Hc as ->. rewrite drop_spaces_id by exact Sc.
  destruct (rev (c :: l')) as [|d' r] eqn:E; [discriminate|]. injection Hd as ->.
  rewrite drop_spaces_id by exact Sd. rewrite <- E, rev_involutive. reflexivity.
Qed.

Lemma digits_value_zeros (k : nat) (ds : list nat) :
  digits_value (repeat 0%nat k ++ ds) = digits_value ds.
Proof.
  rewrite digits_value_app. enough (digits_value (repeat 0%nat k) = 0%Z) as -> by lia.
  unfold digits_value. induction k as [|k IH]; [reflexivity|].
  simpl. exact IH.
Qed.

Lemma length_string_of_list_ascii (l : list ascii) :
  String.length (string_of_list_ascii l) = List.length l.
Proof. induction l as [|c l IH]; simpl; [reflexivity | now rewrite IH]. Qed.

(** [float()] reads back a signed digit string. *)
Lemma parse_int (neg : bool) (D : list nat) :
  D <> [] -> Forall (fun d => d < 10)%nat D ->
  parse_float_chars ((if neg then ["-"%char] else []) ++ map digit_char D) =
  Some (inject_Z (if neg then - digits_value D else digits_value D)%Z * Qpower 10 0).
Proof.
  intros Hne HD. destruct (exists_last Hne) as (D' & dl & ED).
  assert (Hdl : (dl < 10)%nat).
  { rewrite ED in HD. apply Forall_app in HD. destruct HD as [_ H]. inversion H. assumption. }
  destruct D as [|d0 D0]; [contradiction|]. inversion HD as [|? ? Hd0 HD0]; subst.
  destruct (digit_char_plain dl Hdl) as (Hsl & _ & _).
  destruct (digit_char_plain d0 Hd0) as (Hs0 & Hm & Hp).
  unfold parse_float_chars.
  rewrite (strip_ends _ (if neg then "-"%char else digit_char d0) (digit_char dl)).
  2: { destruct neg; reflexivity. }
  2: { rewrite rev_app_distr, <- map_rev, ED, rev_unit. reflexivity. }
  2: { destruct neg; [reflexivity | exact Hs0]. }
  2: { exact Hsl. }
  assert (Hsg : read_sign ((if neg then ["-"%char] else []) ++ map digit_char (d0 :: D0)) =
                (neg, map digit_char (d0 :: D0))).
  { destruct neg; [reflexivity|]. cbn [app map read_sign]. rewrite Hm, Hp. reflexivity. }
  rewrite Hsg. rewrite <- (app_nil_r (map digit_char (d0 :: D0))).
  rewrite read_digits_chars by (first [exact I | constructor; assumption]).
  rewrite app_nil_r. reflexivity.
Qed.

(** The digits [format_0d] writes: zeros, then the digits of [|n|]. *)
Lemma format_0d_digits (w : nat) (n : Z) :
  exists D, D <> [] /\ Forall (fun d => d < 10)%nat D /\ digits_value D = Z.abs n /\
    format_0d_chars w n = (if (n <? 0)%Z then ["-"%char] else []) ++ map digit_char D.
Proof.
  destruct (z_digits_spec (Z.abs n) (Z.abs_nonneg n)) as (Hne & Hf & Hv).
  set (k := (w - List.length (if (n <? 0)%Z then ["-"%char] else []) -
             List.length (map digit_char (z_digits (Z.abs n))))%nat).
  exists (repeat 0%nat k ++ z_digits (Z.abs n)). repeat split.
  - intros H. apply app_eq_nil in H. tauto.
  - apply Forall_app. split; [apply Forall_forall; intros x Hx; apply repeat_spec in Hx; lia | exact Hf].
  - rewrite digits_value_zeros. exact Hv.
  - unfold format_0d_chars. fold k. rewrite map_app. f_equal. f_equal.
    induction k as [|k IH]; [reflexivity|]. cbn [repeat map]. rewrite IH. reflexivity.
Qed.

Lemma format_0d_parse (w : nat) (n : Z) :
  exists r, parse_float (format_0d w n) = Some r /\ r == inject_Z n.
Proof.
  destruct (format_0d_digits w n) as (D & Hne & HD & Hv & E).
  unfold parse_float, format_0d. rewrite list_ascii_of_string_of_list_ascii, E, parse_int by assumption.
  eexists. split; [reflexivity|]. rewrite Hv. change (Qpower 10 0) with 1. rewrite Qmult_1_r.
  destruct (Z.ltb_spec n 0); [replace (- Z.abs n)%Z with n by lia | replace (Z.abs n) with n by lia]; reflexivity.
Qed.

Lemma format_0d_min_length (w : nat) (n : Z) : (w <= String.length (format_0d w n))%nat.
Proof.
  unfold format_0d. rewrite length_string_of_list_ascii. unfold format_0d_chars.
  rewrite !length_app, repeat_length. lia.
Qed.


(** A number below [10^(k+1)] has at most [k+1] digits. *)
Lemma dec_digits_length (fuel : nat) : forall n k,
  (0 <= n < 10 ^ Z.of_nat (S k))%Z -> (List.length (dec_digits fuel n) <= S k)%nat.
Proof.
  induction fuel as [|f IH]; intros n k H; simpl; [lia|].
  destruct (n <? 10)%Z eqn:E; simpl; [lia|]. apply Z.ltb_ge in E.
  rewrite length_app. simpl. destruct k as [|k]; [simpl in H; lia|].
  assert ((n / 10) < 10 ^ Z.of_nat (S k))%Z.
  { apply Z.div_lt_upper_bound; [lia|]. rewrite Nat2Z.inj_succ, Z.pow_succ_r in H by lia. lia. }
  specialize (IH (n / 10)%Z k ltac:(split; [apply Z.div_pos; lia | assumption])). lia.
Qed.

(** A non-negative number that fits in [w] digits prints in exactly [w]
    characters. *)
Lemma format_0d_length (w : nat) (n : Z) :
  (1 <= w)%nat -> (0 <= n < 10 ^ Z.of_nat w)%Z -> String.length (format_0d w n) = w.
Proof.
  intros Hw Hn. unfold format_0d. rewrite length_string_of_list_ascii. unfold format_0d_chars.
  replace (n <? 0)%Z with false by (symmetry; apply Z.ltb_ge; lia).
  rewrite Z.abs_eq by lia. cbn [List.length app]. rewrite length_app, repeat_length, length_map.
  destruct w as [|k]; [lia|].
  pose proof (dec_digits_length (S (Z.to_nat (Z.log2 n))) n k Hn). unfold z_digits. lia.
Qed.

