(* ===== verification/GameLoop.v ===== *)
(** * GameLoop: the frame of [main()] in [src/Game.py] (lines 406-491)

    The world is the state [main] keeps between frames: the player, the
    groups [mobs], [bullets] and [particles], the fifty stars, [score],
    [last_shot] and [running].  One [frame] is one pass of the
    [while running] loop: events, auto-shoot, engine particle, the star
    and sprite updates, [pygame.sprite.groupcollide] and
    [pygame.sprite.spritecollide] as pygame's [sprite.py] computes them,
    and the score and respawns of the hits.  Every random draw and the
    clock are inputs of the frame ([frame_input]); [current_tilt] is the
    value the listener thread last wrote (see [System]).  Drawing and the
    HUD change no state and are not modelled. *)

From Stdlib Require Import QArith Qabs Lqa ZArith Lia List Bool.
From S2P Require Import Prelude Motion Sprites.
Import ListNotations.

(** ** Sprite geometry *)

(** [rect.centerx], [rect.centery] and [rect.bottom]: pygame computes the
    centre as [x + (w >> 1)]. *)
Definition centerx (r : rect) : Z := (rx r + Z.shiftr (rw r) 1)%Z.
Definition centery (r : rect) : Z := (ry r + Z.shiftr (rh r) 1)%Z.
Definition bottom (r : rect) : Z := (ry r + rh r)%Z.

Definition player_rect (pl : player) : rect :=
  {| rx := rect_x pl; ry := rect_y pl; rw := rect_w pl; rh := rect_h pl |}.

(** ** The groups of [pygame.sprite] *)

(** [update()] of a group whose sprites may [kill()] themselves; a group
    keeps the order in which its sprites were added. *)
Fixpoint update_group {A : Type} (f : A -> option A) (l : list A) : list A :=
  match l with
  | [] => []
  | a :: l' => match f a with Some a' => a' :: update_group f l' | None => update_group f l' end
  end.

(** [Enemy.update] of every mob; [ds i] is the draw of the [i]-th mob's
    [reset_pos]. *)
Fixpoint mobs_update (ds : nat -> reset_draw) (ms : list enemy) : list enemy :=
  match ms with
  | [] => []
  | m :: ms' => enemy_update (ds O) m :: mobs_update (fun i => ds (S i)) ms'
  end.

(** [Star.update] of [star_bg], with the redraw of each star. *)
Fixpoint stars_update (xs : list Z) (ss : list star) : list star :=
  match ss with
  | [] => []
  | s :: ss' => star_update (hd 0%Z xs) s :: stars_update (tl xs) ss'
  end.

(** [spritecollide(sprite, group, True)]: the bullets whose rect meets the
    sprite's are killed and returned, the others stay. *)
Definition spritecollide_kill (r : rect) (bs : list bullet) : list bullet * list bullet :=
  partition (fun b => colliderect r (b_rect b)) bs.

(** [groupcollide(mobs, bullets, True, True)]: each mob in turn takes the
    bullets it meets among those still alive; a mob that took one is
    killed and reported.  The result is the surviving mobs, the killed
    mobs (the keys of [hits], in order) and the surviving bullets. *)
Fixpoint groupcollide (ms : list enemy) (bs : list bullet)
    : list enemy * list enemy * list bullet :=
  match ms with
  | [] => ([], [], bs)
  | m :: ms' =>
      let '(hit, rest) := spritecollide_kill (e_rect m) bs in
      let '(surv, crashed, bs') := groupcollide ms' rest in
      match hit with
      | [] => (m :: surv, crashed, bs')
      | _ :: _ => (surv, m :: crashed, bs')
      end
  end.

(** [spritecollide(player, mobs, False)] is non-empty. *)
Definition player_hit (pl : player) (ms : list enemy) : bool :=
  existsb (fun m => colliderect (player_rect pl) (e_rect m)) ms.

(** ** The world and one frame *)

Record world : Type := {
  w_player : player;
  w_mobs : list enemy;
  w_bullets : list bullet;
  w_particles : list particle;
  w_stars : list star;
  w_score : Z;
  w_last_shot : Q;
  w_running : bool
}.

(** The draws and readings of one frame. *)
Record frame_input : Type := {
  fi_quit : bool;                        (* a [QUIT] event in the queue *)
  fi_now : Q;                            (* [time.time()] *)
  fi_tilt : Q;                           (* [current_tilt] *)
  fi_engine_roll : Q;                    (* [random.random()] *)
  fi_engine_v : Q * Q;                   (* [uniform(-1, 1)], [uniform(2, 5)] *)
  fi_star_x : list Z;                    (* the redraws of the stars *)
  fi_mob_draw : nat -> reset_draw;       (* the resets of the mobs *)
  fi_spark_v : nat -> Q * Q;             (* the explosion velocities *)
  fi_new_enemy : nat -> Z * bool * reset_draw  (* the [Enemy()] of each hit *)
}.

Section Frame.
Variable rot_size : Z -> Z * Z.

(** Lines 455-460: a bullet from the nose every 0.2 s. *)
Definition auto_shoot (now last_shot : Q) (pl : player) (bs : list bullet) : list bullet * Q :=
  if qltb (1 # 5) (now - last_shot)
  then (bs ++ [bullet_new (centerx (player_rect pl)) (rect_y pl)], now)
  else (bs, last_shot).

(** Lines 463-468: an engine particle with probability one half. *)
Definition engine_particle (roll : Q) (v : Q * Q) (pl : player) (ps : list particle) : list particle :=
  if qltb roll (1 # 2)
  then ps ++ [particle_new (centerx (player_rect pl)) (bottom (player_rect pl) - 5) (fst v) (snd v) 20]
  else ps.

(** Lines 478-483: fifteen particles at the centre of the [j]-th hit. *)
Definition explosion (sparks : nat -> Q * Q) (j : nat) (m : enemy) : list particle :=
  map (fun i => let v := sparks (15 * j + i)%nat in
                particle_new (centerx (e_rect m)) (centery (e_rect m)) (fst v) (snd v) 30)
      (seq 0 15).

Fixpoint explosions (sparks : nat -> Q * Q) (j : nat) (hits : list enemy) : list particle :=
  match hits with
  | [] => []
  | m :: hs => explosion sparks j m ++ explosions sparks (S j) hs
  end.

(** Lines 485-487: one new [Enemy()] per hit. *)
Definition respawn (news : nat -> Z * bool * reset_draw) (n : nat) : list enemy :=
  map (fun j => let '(sz, spin, d) := news j in enemy_new sz spin d) (seq 0 n).

(** One pass of the [while running] loop (lines 447-491). *)
Definition frame (fi : frame_input) (w : world) : world :=
  let running := if fi_quit fi then false else w_running w in
  let pl := w_player w in
  let '(bs, last_shot) := auto_shoot (fi_now fi) (w_last_shot w) pl (w_bullets w) in
  let ps := engine_particle (fi_engine_roll fi) (fi_engine_v fi) pl (w_particles w) in
  let stars := stars_update (fi_star_x fi) (w_stars w) in
  let pl' := player_update rot_size (fi_tilt fi) pl in
  let ms := mobs_update (fi_mob_draw fi) (w_mobs w) in
  let bs' := update_group bullet_update bs in
  let ps' := update_group particle_update ps in
  let '(surv, hits, bs'') := groupcollide ms bs' in
  let score := (w_score w + 100 * Z.of_nat (length hits))%Z in
  let ps'' := ps' ++ explosions (fi_spark_v fi) 0 hits in
  let ms' := surv ++ respawn (fi_new_enemy fi) (length hits) in
  let running' := if player_hit pl' ms' then false else running in
  {| w_player := pl'; w_mobs := ms'; w_bullets := bs''; w_particles := ps'';
     w_stars := stars; w_score := score; w_last_shot := last_shot; w_running := running' |}.

(** The game: frames run while [running] holds. *)
Fixpoint run_game (fis : list frame_input) (w : world) : world :=
  match fis with
  | [] => w
  | fi :: fis' => if w_running w then run_game fis' (frame fi w) else w
  end.

(** Lines 425-445: the setup after the menu; [stars] are the fifty
    [Star()] and [enemies] the six [Enemy()] draws. *)
Definition game_setup (stars : list star) (enemies : list (Z * bool * reset_draw)) : world :=
  {| w_player := player_init;
     w_mobs := map (fun '(sz, spin, d) => enemy_new sz spin d) enemies;
     w_bullets := []; w_particles := []; w_stars := stars;
     w_score := 0; w_last_shot := 0; w_running := true |}.
End Frame.

(** ** Collisions *)

Local Open Scope nat_scope.

Lemma partition_length {A : Type} (f : A -> bool) (l : list A) :
  length (fst (partition f l)) + length (snd (partition f l)) = length l.
Proof.
  induction l as [|a l IH]; [reflexivity|]. simpl.
  destruct (partition f l) as [y n]; simpl in *. destruct (f a); simpl; lia.
Qed.

(** Every mob is either kept or killed, and every killed mob took at least
    one bullet of its own. *)
Lemma groupcollide_counts (ms : list enemy) : forall bs,
  let '(surv, crashed, bs') := groupcollide ms bs in
  length surv + length crashed = length ms /\ length crashed + length bs' <= length bs /\
  incl surv ms /\ incl crashed ms.
Proof.
  induction ms as [|m ms IH]; intros bs; simpl.
  - repeat split; auto using incl_refl; intros ? [].
  - unfold spritecollide_kill.
    pose proof (partition_length (fun b => colliderect (e_rect m) (b_rect b)) bs) as Hp.
    destruct (partition _ bs) as [hit rest]; simpl in Hp.
    specialize (IH rest). destruct (groupcollide ms rest) as [[surv crashed] bs'].
    destruct IH as (H1 & H2 & H3 & H4).
    destruct hit; simpl in *; repeat split; try lia;
      auto using incl_cons, in_eq, incl_tl.
Qed.

Lemma mobs_update_length (ds : nat -> reset_draw) (ms : list enemy) :
  length (mobs_update ds ms) = length ms.
Proof. revert ds; induction ms; intros; simpl; auto. Qed.

Lemma mobs_update_wf (ds : nat -> reset_draw) (ms : list enemy) :
  Forall enemy_wf ms -> Forall enemy_wf (mobs_update ds ms).
Proof.
  revert ds; induction ms as [|m ms IH]; intros ds H; inversion H; subst; simpl; constructor; auto.
  apply (enemy_update_cases (ds O) m); assumption.
Qed.

Lemma update_group_length {A : Type} (f : A -> option A) (l : list A) :
  length (update_group f l) <= length l.
Proof. induction l as [|a l IH]; simpl; [lia|]. destruct (f a); simpl; lia. Qed.

Lemma respawn_wf (news : nat -> Z * bool * reset_draw) (n : nat) :
  length (respawn news n) = n /\ Forall enemy_wf (respawn news n).
Proof.
  unfold respawn. rewrite length_map, length_seq. split; [reflexivity|].
  apply Forall_map, Forall_forall. intros j _. destruct (news j) as [[sz spin] d]. apply enemy_new_wf.
Qed.

Section Run.
Variable rot_size : Z -> Z * Z.

(** What a frame keeps of the world: six mobs of the enemy shape, and a
    non-negative score made of hundreds. *)
Definition world_ok (w : world) : Prop :=
  length (w_mobs w) = 6 /\ Forall enemy_wf (w_mobs w) /\
  (0 <= w_score w)%Z /\ (w_score w mod 100 = 0)%Z.

(** The effect of a frame on the mobs, the bullets and the score. *)
Lemma frame_accounting (fi : frame_input) (w : world) :
  let w' := frame rot_size fi w in
  exists hits, length (w_mobs w') = length (w_mobs w) /\
    (Forall enemy_wf (w_mobs w) -> Forall enemy_wf (w_mobs w')) /\
    w_score w' = (w_score w + 100 * Z.of_nat hits)%Z /\
    hits + length (w_bullets w') <= S (length (w_bullets w)).
Proof.
  unfold frame. destruct (auto_shoot _ _ _ _) as [bs last] eqn:Hs.
  assert (Hbs : length bs <= S (length (w_bullets w))).
  { unfold auto_shoot in Hs. destruct (qltb _ _); injection Hs as <- _;
      rewrite ?length_app; simpl; lia. }
  pose proof (groupcollide_counts (mobs_update (fi_mob_draw fi) (w_mobs w))
               (update_group bullet_update bs)) as Hg.
  destruct (groupcollide _ _) as [[surv hits] bs'].
  destruct Hg as (H1 & H2 & H3 & _). rewrite mobs_update_length in H1.
  pose proof (update_group_length bullet_update bs).
  destruct (respawn_wf (fi_new_enemy fi) (length hits)) as [Hr Hrw].
  exists (length hits). cbn [w_mobs w_score w_bullets]. rewrite length_app, Hr.
  repeat split; try lia.
  intros Hw. apply Forall_app. split; [|exact Hrw].
  apply incl_Forall with (l1 := mobs_update (fi_mob_draw fi) (w_mobs w)); auto using mobs_update_wf.
Qed.

Lemma frame_ok (fi : frame_input) (w : world) : world_ok w -> world_ok (frame rot_size fi w).
Proof.
  intros (H1 & H2 & H3 & H4). destruct (frame_accounting fi w) as (hits & E1 & E2 & E3 & _).
  unfold world_ok. rewrite E1, E3. repeat split; auto; [lia|].
  rewrite Z.mul_comm, Z_mod_plus_full. exact H4.
Qed.

Lemma game_setup_ok (stars : list star) (enemies : list (Z * bool * reset_draw)) :
  length enemies = 6 -> world_ok (game_setup stars enemies).
Proof.
  intros Hlen. unfold world_ok, game_setup; cbn [w_mobs w_score].
  rewrite length_map. repeat split; auto; [|lia].
  apply Forall_map, Forall_forall. intros [[sz spin] d] _. apply enemy_new_wf.
Qed.

Lemma run_game_ok (fis : list frame_input) (w : world) :
  world_ok w -> world_ok (run_game rot_size fis w).
Proof.
  revert w. induction fis as [|fi fis IH]; intros w Hw; simpl; [exact Hw|].
  destruct (w_running w); [apply IH, frame_ok, Hw | exact Hw].
Qed.

(** C8: through any sequence of frames after the setup, the game has six
    mobs, each in its lane with its speed and rotation in range, and the
    score is a non-negative multiple of 100: each killed mob is replaced
    by exactly one new [Enemy()]. *)
Theorem game_invariant (stars : list star) (enemies : list (Z * bool * reset_draw))
    (fis : list frame_input) :
  length enemies = 6 ->
  world_ok (run_game rot_size fis (game_setup stars enemies)).
Proof.
  intros Hlen. apply run_game_ok, game_setup_ok, Hlen.
Qed.

(** C9: every hundred points of a frame costs a bullet: the score gained
    in a frame is 100 per killed mob, and the bullets left after the frame
    are at most the bullets before it, plus the one auto-shoot may add,
    minus one per killed mob. *)
Theorem score_costs_bullets (fi : frame_input) (w : world) :
  (0 <= w_score (frame rot_size fi w) - w_score w)%Z /\
  ((w_score (frame rot_size fi w) - w_score w) / 100 +
     Z.of_nat (length (w_bullets (frame rot_size fi w))) <= Z.of_nat (length (w_bullets w)) + 1)%Z.
Proof.
  destruct (frame_accounting fi w) as (hits & _ & _ & E & Hb). rewrite E.
  replace (w_score w + 100 * Z.of_nat hits - w_score w)%Z with (Z.of_nat hits * 100)%Z by lia.
  rewrite Z.div_mul by lia. lia.
Qed.
End Run.

(** Witness. *)

Lemma game_invariant_witness :
  let enemies := [(0%Z, true, {| d_x := 1; d_y := 2; d_speed := 3 |});
                  (5%Z, false, {| d_x := 100; d_y := 20; d_speed := 0 |});
                  (9%Z, true, {| d_x := 300; d_y := 40; d_speed := 1 |});
                  (2%Z, false, {| d_x := 500; d_y := 60; d_speed := 2 |});
                  (15%Z, true, {| d_x := 650; d_y := 80; d_speed := 3 |});
                  (7%Z, false, {| d_x := 720; d_y := 99; d_speed := 0 |})] in
  length enemies = 6 /\
  world_ok (run_game (fun _ => (50, 60)%Z) [] (game_setup [] enemies)).
Proof. cbv zeta. split; [reflexivity | apply game_invariant; reflexivity]. Defined.
