(* ===== verification/Collision.v ===== *)
(** * Collision: what pygame's collision tests mean for the game

    The game loop ([GameLoop]) decides hits and the end of the game with
    [Rect.colliderect] (pygame's [_pg_do_rects_intersect], [Sprites]),
    [pygame.sprite.groupcollide(mobs, bullets, True, True)] (line 475)
    and [spritecollide(player, mobs, False)] (line 490).  This file states
    what they compute in the game's terms: two rectangles of non-negative
    size collide exactly when they share a pixel; [groupcollide] keeps
    exactly the bullets no mob touches and kills a mob exactly when it
    touches a bullet no earlier mob touches (each bullet goes to the first
    mob in the group's order that touches it); and a frame ends the game
    exactly when the ship shares a pixel with a mob. *)

From Stdlib Require Import QArith Qabs Lqa ZArith Lia List Bool.
From S2P Require Import Prelude Motion Sprites GameLoop.
Import ListNotations.

(** ** The geometric reading of a rectangle *)

(** The pixel [(x, y)] is covered by [r]: a [Rect] covers the columns
    [[x, x + w)] and rows [[y, y + h)]. *)
Definition in_rect (r : rect) (x y : Z) : Prop :=
  (rx r <= x < rx r + rw r /\ ry r <= y < ry r + rh r)%Z.

Definition sizes_nonneg (r : rect) : Prop := (0 <= rw r /\ 0 <= rh r)%Z.

(** Two rectangles of non-negative size collide when they share a pixel. *)
Lemma colliderect_pixel (a b : rect) :
  sizes_nonneg a -> sizes_nonneg b ->
  colliderect a b = true <-> exists x y, in_rect a x y /\ in_rect b x y.
Proof.
  intros [Ha1 Ha2] [Hb1 Hb2]. unfold colliderect, in_rect. split.
  - destruct ((rw a =? 0) || (rh a =? 0) || (rw b =? 0) || (rh b =? 0))%Z eqn:Ez; [discriminate|].
    rewrite !orb_false_iff, !Z.eqb_neq in Ez. rewrite !andb_true_iff, !Z.ltb_lt.
    intros H. exists (Z.max (rx a) (rx b)), (Z.max (ry a) (ry b)). lia.
  - intros (x & y & Pa & Pb).
    replace ((rw a =? 0) || (rh a =? 0) || (rw b =? 0) || (rh b =? 0))%Z with false
      by (symmetry; rewrite !orb_false_iff, !Z.eqb_neq; lia).
    rewrite !andb_true_iff, !Z.ltb_lt. lia.
Qed.

(** ** [groupcollide] gives each bullet to the first mob it touches *)

(** The reading of [groupcollide(mobs, bullets, True, True)] on the group
    as it was when the call started: a bullet survives when no mob
    touches it, and the mob at a position dies when it touches a bullet
    that no mob before it touches ([pre] is the list of those mobs). *)
Definition touches (m : enemy) (b : bullet) : bool := colliderect (e_rect m) (b_rect b).

Definition untouched_by (pre : list enemy) (b : bullet) : bool :=
  forallb (fun p => negb (touches p b)) pre.

Definition taken (pre : list enemy) (m : enemy) (bs : list bullet) : bool :=
  existsb (fun b => touches m b && untouched_by pre b) bs.

(** Each mob paired with the mobs before it in the group. *)
Fixpoint with_prefix (pre : list enemy) (ms : list enemy) : list (list enemy * enemy) :=
  match ms with
  | [] => []
  | m :: ms' => (pre, m) :: with_prefix (pre ++ [m]) ms'
  end.

Lemma untouched_by_snoc (pre : list enemy) (m : enemy) (b : bullet) :
  untouched_by (pre ++ [m]) b = untouched_by pre b && negb (touches m b).
Proof. unfold untouched_by. rewrite forallb_app. cbn. now rewrite andb_true_r. Qed.

Lemma taken_filter (pre : list enemy) (m : enemy) (bs : list bullet) :
  taken pre m bs = existsb (touches m) (filter (untouched_by pre) bs).
Proof.
  unfold taken. induction bs as [|b bs IH]; cbn [existsb filter]; [reflexivity|].
  rewrite IH. destruct (untouched_by pre b); cbn [existsb]; destruct (touches m b); reflexivity.
Qed.

(** C10: [groupcollide(mobs, bullets, True, True)] in closed form: the
    bullets it keeps are exactly those no mob touches, in their order; a
    mob is killed exactly when it touches a bullet that no earlier mob of
    the group touches, and the surviving and killed mobs keep the
    group's order. *)
Theorem groupcollide_spec (ms : list enemy) (bs : list bullet) :
  groupcollide ms bs =
  (map snd (filter (fun pm => negb (taken (fst pm) (snd pm) bs)) (with_prefix [] ms)),
   map snd (filter (fun pm => taken (fst pm) (snd pm) bs) (with_prefix [] ms)),
   filter (untouched_by ms) bs).
Proof.
  (* the alive bullets a mob meets are those no earlier mob touched *)
  assert (G : forall pre, groupcollide ms (filter (untouched_by pre) bs) =
    (map snd (filter (fun pm => negb (taken (fst pm) (snd pm) bs)) (with_prefix pre ms)),
     map snd (filter (fun pm => taken (fst pm) (snd pm) bs) (with_prefix pre ms)),
     filter (untouched_by (pre ++ ms)) bs)).
  { induction ms as [|m ms IH]; intros pre; cbn [groupcollide with_prefix filter map].
    - now rewrite app_nil_r.
    - unfold spritecollide_kill. rewrite partition_as_filter, filter_filter.
      rewrite (filter_ext _ (untouched_by (pre ++ [m]))) by (intros b; now rewrite untouched_by_snoc).
      rewrite IH, <- app_assoc. cbn [fst snd app]. rewrite taken_filter.
      destruct (existsb (touches m) (filter (untouched_by pre) bs)) eqn:E.
      + destruct (filter (fun x => colliderect (e_rect m) (b_rect x)) _) eqn:Eh; [|reflexivity].
        apply existsb_filter_nil in Eh. unfold touches in E. congruence.
      + apply existsb_filter_nil in E. unfold touches in E. now rewrite E. }
  specialize (G []). cbn [app] in G.
  replace (filter (untouched_by []) bs) with bs in G by (symmetry; apply filter_true).
  exact G.
Qed.

(** ** The end of the game *)

Section GameOver.
Variable rot_size : Z -> Z * Z.
(** The rotated ship image has a non-negative size. *)
Hypothesis rot_nonneg : forall b, (0 <= fst (rot_size b) /\ 0 <= snd (rot_size b))%Z.

(** C11: a running frame without a [QUIT] event ends the game exactly
    when, after the updates and respawns, the ship shares a pixel with a
    mob. *)
Theorem frame_ends_on_contact (fi : frame_input) (w : world) :
  world_ok w -> w_running w = true -> fi_quit fi = false ->
  (w_running (frame rot_size fi w) = false <->
   exists m x y, In m (w_mobs (frame rot_size fi w)) /\
     in_rect (player_rect (w_player (frame rot_size fi w))) x y /\ in_rect (e_rect m) x y).
Proof.
  intros Hw Hr Hq. pose proof (frame_ok rot_size fi w Hw) as (_ & Hwf & _).
  (* the [running] the frame leaves: the events' [QUIT], then the ship
     after its update against the mobs after the respawns *)
  assert (Hrun : w_running (frame rot_size fi w) =
    if player_hit (w_player (frame rot_size fi w)) (w_mobs (frame rot_size fi w)) then false
    else if fi_quit fi then false else w_running w).
  { unfold frame. destruct (auto_shoot _ _ _ _) as [bs last].
    destruct (groupcollide _ _) as [[surv hits] bs']. reflexivity. }
  rewrite Hrun. set (w' := frame rot_size fi w) in *.
  assert (Hp : sizes_nonneg (player_rect (w_player w'))).
  { subst w'. unfold frame. destruct (auto_shoot _ _ _ _) as [bs last].
    destruct (groupcollide _ _) as [[surv hits] bs']. cbn [w_player].
    unfold sizes_nonneg, player_rect; cbn [rw rh].
    rewrite player_update_size, player_update_height. apply rot_nonneg. }
  rewrite Hq, Hr. unfold player_hit.
  destruct (existsb _ _) eqn:E; split; try congruence; intros H.
  - apply existsb_exists in E as (m & Hm & Hc).
    assert (Hm' : sizes_nonneg (e_rect m)).
    { rewrite Forall_forall in Hwf. destruct (Hwf m Hm) as (Hw1 & Hh & _). unfold sizes_nonneg. lia. }
    destruct (proj1 (colliderect_pixel _ _ Hp Hm') Hc) as (x & y & P1 & P2). exists m, x, y. tauto.
  - exfalso. destruct H as (m & x & y & Hm & P1 & P2).
    assert (Hm' : sizes_nonneg (e_rect m)).
    { rewrite Forall_forall in Hwf. destruct (Hwf m Hm) as (Hw1 & Hh & _). unfold sizes_nonneg. lia. }
    assert (Hc : colliderect (player_rect (w_player w')) (e_rect m) = true)
      by (apply (colliderect_pixel _ _ Hp Hm'); eauto).
    assert (existsb (fun m => colliderect (player_rect (w_player w')) (e_rect m)) (w_mobs w') = true)
      by (apply existsb_exists; eauto).
    congruence.
Qed.
End GameOver.

(** Witnesses. *)

(** The first frame of a game whose six enemies all start above the ship,
    with no [QUIT]. *)
Definition sample_enemies : list (Z * bool * reset_draw) :=
  map (fun k => (Z.of_nat k, true, {| d_x := 100 * Z.of_nat k; d_y := 0; d_speed := 0 |})) (seq 0 6).

Definition sample_frame_input : frame_input :=
  {| fi_quit := false; fi_now := 1; fi_tilt := 0; fi_engine_roll := 1; fi_engine_v := (0, 0);
     fi_star_x := []; fi_mob_draw := fun _ => {| d_x := 0; d_y := 0; d_speed := 0 |};
     fi_spark_v := fun _ => (0, 0); fi_new_enemy := fun _ => (0%Z, true, {| d_x := 0; d_y := 0; d_speed := 0 |}) |}.

Lemma frame_ends_on_contact_witness :
  world_ok (game_setup [] sample_enemies) /\
  (w_running (frame (fun _ => (50, 60)%Z) sample_frame_input (game_setup [] sample_enemies)) = false <->
   exists m x y, In m (w_mobs (frame (fun _ => (50, 60)%Z) sample_frame_input (game_setup [] sample_enemies))) /\
     in_rect (player_rect (w_player (frame (fun _ => (50, 60)%Z) sample_frame_input (game_setup [] sample_enemies)))) x y /\
     in_rect (e_rect m) x y).
Proof.
  assert (Hw : world_ok (game_setup [] sample_enemies)) by (apply game_setup_ok; reflexivity).
  split; [exact Hw|].
  apply frame_ends_on_contact; [intros b; cbn; lia | exact Hw | reflexivity | reflexivity].
Defined.
