(* ===== verification/Hud.v ===== *)
(** * Hud: the numbers the screens of [src/Game.py] print

    [draw_hud] (lines 284-328) prints the score as [{score:05d}] and the
    time as [{minutes:02d}:{seconds:02d}] of [elapsed = int(now -
    start_time)] (line 504); the game-over screen prints
    [FINAL SCORE: {score}] (line 513); the main menu prints a connection
    status, blinks its launch hint on [int(time.time() * 2) % 2] and draws
    a tilt marker at [int(WIDTH // 2 + current_tilt * 10)] (lines
    371-382).  The texts are modelled as strings through [PyFormat]; the
    fonts, colours and glow are drawing only. *)

From Stdlib Require Import QArith Qabs Lqa ZArith Lia List Bool String Ascii.
From S2P Require Import Prelude PyValue PyFormat Motion.
Import ListNotations.


(** [elapsed = int(now - start_time)] (line 504). *)
Definition elapsed_of (now start_time : Q) : Z := q_trunc (now - start_time).

(** [minutes = elapsed_time // 60], [seconds = elapsed_time % 60] and
    [f"{minutes:02d}:{seconds:02d}"] (lines 325-328). *)
Definition hud_time_text (elapsed : Z) : string :=
  String.append (format_0d 2 (elapsed / 60)) (String.append ":" (format_0d 2 (elapsed mod 60))).


(** The menu's connection status (lines 371-373). *)
Definition menu_status (iottalk_connected : bool) : string :=
  if iottalk_connected then "SYSTEM ONLINE" else "WAITING FOR LINK...".

(** [if int(time.time() * 2) % 2 == 0] shows the launch hint (line 376). *)
Definition menu_blink_on (now : Q) : bool := (q_trunc (now * 2) mod 2 =? 0)%Z.

(** [int(marker_x)] with [marker_x = WIDTH//2 + (current_tilt * 10)]
    (lines 381-382); the track is drawn at [[WIDTH//2 - 100, WIDTH//2 + 100]]
    (line 380). *)
Definition menu_marker (current_tilt : Q) : Z := q_trunc (inject_Z (WIDTH / 2) + current_tilt * 10).

(** ** The printed time reads back *)

(** C18: the time the HUD prints reads back, for every elapsed time
    (negative ones included, should the clock go back): the text is
    [m:ss] with exactly two characters of seconds, and
    [float(m) * 60 + float(ss)] is the elapsed time, with the seconds in
    [[0, 60)]. *)
Theorem hud_time_roundtrip (e : Z) :
  exists a b ra rb, hud_time_text e = String.append a (String.append ":" b) /\
    String.length b = 2%nat /\
    parse_float a = Some ra /\ parse_float b = Some rb /\
    ra * 60 + rb == inject_Z e /\ 0 <= rb < 60.
Proof.
  pose proof (Z.mod_pos_bound e 60 ltac:(lia)) as Hs.
  destruct (format_0d_parse 2 (e / 60)) as (ra & Ha & Ea).
  destruct (format_0d_parse 2 (e mod 60)) as (rb & Hb & Eb).
  exists (format_0d 2 (e / 60)), (format_0d 2 (e mod 60)), ra, rb.
  repeat split; try assumption.
  - apply format_0d_length; cbn; lia.
  - rewrite Ea, Eb. change 60 with (inject_Z 60). rewrite <- inject_Z_mult, <- inject_Z_plus.
    unfold Qeq; simpl. pose proof (Z.div_mod e 60 ltac:(lia)). lia.
  - rewrite Eb. change 0 with (inject_Z 0). rewrite <- Zle_Qle. lia.
  - rewrite Eb. change 60 with (inject_Z 60). rewrite <- Zlt_Qlt. lia.
Qed.


(** C20: the menu's tilt marker stays on its track [[300, 500]] whenever
    [current_tilt] is in [[-10, 10]]; a value outside, such as the
    unclamped one a frame can read between lines 89 and 91, puts it off
    the track. *)
Theorem menu_marker_on_track (t : Q) :
  -10 <= t <= 10 -> (300 <= menu_marker t <= 500)%Z.
Proof.
  intros Ht. unfold menu_marker. apply q_trunc_between; change (inject_Z (WIDTH / 2)) with 400;
    [change (inject_Z 300) with 300 | change (inject_Z 500) with 500]; lra.
Qed.

Lemma menu_marker_off_track : (menu_marker (3883880 # 50000) > 500)%Z.
Proof. vm_compute. reflexivity. Qed.

(** Witnesses. *)

Lemma menu_marker_on_track_witness : -10 <= 7 <= 10 /\ (300 <= menu_marker 7 <= 500)%Z.
Proof. split; [lra | apply menu_marker_on_track; lra]. Defined.

