(* ===== verification/Main.v ===== *)
(** * Main: [main()] of [src/Game.py] with its listener thread

    [main] (lines 406-516) starts the listener thread, runs [main_menu]
    (lines 331-403) until its event loop sees [QUIT] or the space key,
    then sets the game up and runs the frames of [GameLoop] until
    [running] is false, and shows the final score.  The game thread is
    one state machine ([main_state], [main_frame]): each of its steps
    reads [current_tilt] once.  It is an instance of [System]'s two-thread
    model, so every interleaving with the listener's assignments is
    covered, and the invariants of [System] on [current_tilt] hold for it
    unchanged. *)

From Stdlib Require Import QArith Qabs Lqa ZArith Lia List Bool String.
From S2P Require Import Prelude PyValue PyFormat TiltController Motion System Sprites GameLoop Hud.
Import ListNotations.

(** ** The menu *)

(** The pygame events the loops look at. *)
Inductive event : Type :=
| EvQuit
| EvKeyDown (key : Z)
| EvOther.

Definition K_SPACE : Z := 32.

(** [for event in pygame.event.get()] of the menu (lines 396-400): the
    first [QUIT] returns [False], the first space key-down [True]. *)
Fixpoint menu_choice (evs : list event) : option bool :=
  match evs with
  | [] => None
  | EvQuit :: _ => Some false
  | EvKeyDown k :: evs' => if (k =? K_SPACE)%Z then Some true else menu_choice evs'
  | EvOther :: evs' => menu_choice evs'
  end.

(** The menu's state: its forty stars and the preview plane. *)
Record menu : Type := { m_stars : list star; m_preview_x : Q }.

(** Lines 334-338: [preview_x = WIDTH // 2]. *)
Definition menu_init (stars : list star) : menu :=
  {| m_stars := stars; m_preview_x := inject_Z (WIDTH / 2) |}.

(** One pass of the menu's [while True] (lines 340-403): the stars, the
    preview, then the events. *)
Definition menu_frame (current_tilt : Q) (star_xs : list Z) (evs : list event) (m : menu)
    : menu * option bool :=
  ({| m_stars := stars_update star_xs (m_stars m);
      m_preview_x := preview_step current_tilt (m_preview_x m) |}, menu_choice evs).

(** ** The game thread of [main] *)

Inductive main_state : Type :=
| InMenu (m : menu)
| InGame (w : world)
| GameOver (score : Z)
| Quit.

Section MainThread.
Variable rot_size : Z -> Z * Z.

(** One step of the game thread reading [current_tilt = t]: a menu pass
    that goes on, quits (lines 421-423) or launches the game with its
    fifty stars and six [Enemy()] draws (lines 425-445); a frame of the
    game while [running]; the game-over screen once it is not
    (lines 509-516). *)
Inductive main_frame (t : Q) : main_state -> main_state -> Prop :=
| mf_menu (m : menu) (xs : list Z) (evs : list event) :
    menu_choice evs = None -> main_frame t (InMenu m) (InMenu (fst (menu_frame t xs evs m)))
| mf_quit (m : menu) (evs : list event) :
    menu_choice evs = Some false -> main_frame t (InMenu m) Quit
| mf_launch (m : menu) (evs : list event) (stars : list star) (enemies : list (Z * bool * reset_draw)) :
    menu_choice evs = Some true -> List.length enemies = 6%nat ->
    main_frame t (InMenu m) (InGame (game_setup stars enemies))
| mf_game (w : world) (fi : frame_input) :
    w_running w = true -> fi_tilt fi = t -> main_frame t (InGame w) (InGame (frame rot_size fi w))
| mf_over (w : world) :
    w_running w = false -> main_frame t (InGame w) (GameOver (w_score w)).
End MainThread.

(** The event that decides the menu, if any: [QUIT] quits, the space key
    launches. *)
Definition decisive (e : event) : option bool :=
  match e with
  | EvQuit => Some false
  | EvKeyDown k => if (k =? K_SPACE)%Z then Some true else None
  | EvOther => None
  end.

(** What the game thread keeps true: the preview plane within
    [[30, WIDTH - 30]], the game's invariant ([GameLoop.world_ok]), and a
    final score that is a non-negative multiple of 100. *)
Definition main_ok (g : main_state) : Prop :=
  match g with
  | InMenu m => 30 <= m_preview_x m <= inject_Z WIDTH - 30
  | InGame w => world_ok w
  | GameOver sc => (0 <= sc)%Z /\ (sc mod 100 = 0)%Z
  | Quit => True
  end.

(** ** The menu decides on its first decisive event *)

(** C19: the menu's event loop returns on the first event that decides:
    it quits exactly when a [QUIT] comes before every space key-down, and
    launches exactly when a space key-down comes first; other events and
    keys are skipped. *)
Theorem menu_choice_first (evs : list event) (b : bool) :
  menu_choice evs = Some b <->
  exists pre e post, evs = pre ++ e :: post /\ Forall (fun x => decisive x = None) pre /\
    decisive e = Some b.
Proof.
  split.
  - induction evs as [|e evs IH]; [discriminate|]. intros H.
    destruct (decisive e) as [b'|] eqn:Ed.
    + exists [], e, evs. split; [reflexivity|]. split; [constructor|].
      destruct e as [|k|]; cbn in *; try discriminate; [congruence|].
      destruct (k =? K_SPACE)%Z; congruence.
    + destruct IH as (pre & e' & post & -> & Hpre & He').
      { destruct e as [|k|]; cbn in *; try discriminate; [|exact H].
        destruct (k =? K_SPACE)%Z; [discriminate | exact H]. }
      exists (e :: pre), e', post. split; [reflexivity|]. split; [constructor; assumption | exact He'].
  - intros (pre & e & post & -> & Hpre & He). induction Hpre as [|x pre Hx Hpre IH]; cbn [app].
    + destruct e as [|k|]; cbn in *; [exact He | | discriminate].
      destruct (k =? K_SPACE)%Z; [exact He | discriminate].
    + destruct x as [|k|]; cbn in Hx |- *; [discriminate | | exact IH].
      destruct (k =? K_SPACE)%Z; [discriminate | exact IH].
Qed.

(** ** Every interleaving of [main] with the listener *)

Section MainInvariants.
Variable p : tilt_params.
Variable rot_size : Z -> Z * Z.
Variable stars0 : list star.

Lemma main_frame_ok (t : Q) (g g' : main_state) :
  main_ok g -> main_frame rot_size t g g' -> main_ok g'.
Proof.
  intros Hg H. destruct H as [m xs evs _ | | m evs stars enemies _ Hlen | w fi _ _ | w _];
    cbn [main_ok fst menu_frame m_preview_x] in *.
  - apply preview_step_bounds.
  - exact I.
  - apply game_setup_ok. exact Hlen.
  - apply frame_ok. exact Hg.
  - destruct Hg as (_ & _ & ? & ?). split; assumption.
Qed.

(** C7: under every interleaving of the listener's assignments with the
    steps of [main] (menu passes, the launch, the frames, the game-over
    screen), the preview plane stays within [[30, WIDTH - 30]], the game
    keeps six well-formed mobs and a non-negative score made of hundreds,
    and the final score shown is such a score. *)
Theorem main_invariant (s : sys main_state) :
  reachable p (main_frame rot_size) (InMenu (menu_init stars0)) s -> main_ok (game s).
Proof.
  apply reachable_game_inv; [|exact main_frame_ok].
  cbn. change (inject_Z WIDTH) with 800. change (inject_Z (WIDTH / 2)) with 400. lra.
Qed.
End MainInvariants.

(** Witnesses. *)

Lemma main_invariant_witness : main_ok (game (sys_init (InMenu (menu_init [])))).
Proof.
  apply (main_invariant game_params (fun _ => (50, 60)%Z) []). constructor.
Defined.
