(* ===== verification/SA.v ===== *)
(** * SA: the device application of [src/SA.py]

    [SA.py] is the IoTtalk device description the DAN library loads: its
    settings are constants and its two callbacks only print.  The printed
    lines are the model: [Dummy_Control] formats the first sample with
    [:.2f] ([PyFormat.format_value_2f]), and [on_register] prints the
    registration result, raising [KeyError] when a field is missing after
    the lines already printed.  [str(v)] of a value other than a formatted
    number is left as the value itself ([TextValue]). *)

From Stdlib Require Import QArith Qabs Qround Lqa ZArith Lia List Bool String Ascii.
From S2P Require Import Prelude PyValue PyFormat.
Import ListNotations.

(** ** The callbacks *)

(** A printed line: text, or text followed by [str(v)]. *)
Inductive line : Type :=
| Text (s : string)
| TextValue (prefix : string) (v : pyval).

Definition data_prefix : string := "收到手機數據: ".

(** [Dummy_Control(data)] (lines 18-28). *)
Definition Dummy_Control (data : pyval) : res line :=
  match data with
  | PList (x :: _) => let? s := format_value_2f x in Ok (Text (data_prefix ++ s))
  | _ => Ok (TextValue data_prefix data)
  end.

(** [r[key]] on the registration result. *)
Definition py_getitem (r : pyval) (key : string) : res pyval :=
  match r with
  | PDict kv => match find (fun kv => String.eqb (fst kv) key) kv with
                | Some (_, v) => Ok v
                | None => Raise KeyError
                end
  | _ => Raise TypeError
  end.

Definition rule : string := "==================================================".

(** [on_register(r)] (lines 30-36): the lines printed, and how the call
    ends; a missing key stops it after the lines before. *)
Definition on_register (r : pyval) : list line * res unit :=
  match py_getitem r "d_name" with
  | Raise e => ([], Raise e)
  | Ok name =>
      let printed := [TextValue "Device name: " name; Text rule; Text "✅ Dummy_Device 註冊成功！"] in
      match py_getitem r "server" with
      | Raise e => (printed, Raise e)
      | Ok server =>
          (printed ++ [TextValue "伺服器: " server; TextValue "裝置名稱: " name; Text rule], Ok tt)
      end
  end.

(** C16: [Dummy_Control] raises only on a non-empty list whose first item
    has no [.2f] format: a [str] ([ValueError]), [None], a list or a dict
    ([TypeError]), or an [int] too large for a float ([OverflowError]);
    every other sample is printed. *)
Theorem Dummy_Control_raise (data : pyval) (e : pyexc) :
  Dummy_Control data = Raise e ->
  exists x rest, data = PList (x :: rest) /\
    ((e = ValueError /\ exists s, x = PStr s) \/
     (e = TypeError /\ (x = PNone \/ (exists l, x = PList l) \/ (exists kv, x = PDict kv))) \/
     (e = OverflowError /\ exists z, x = PInt z /\ (float_int_limit <= Z.abs z)%Z)).
Proof.
  destruct data as [| | | | |[|x rest]|]; try discriminate. intros H.
  exists x, rest. split; [reflexivity|].
  unfold Dummy_Control, format_value_2f in H.
  destruct x; cbn [py_float res_bind] in H; try discriminate; try (injection H as <-; eauto 7; fail).
  destruct (float_int_limit <=? Z.abs z)%Z eqn:E; cbn [res_bind] in H; [|discriminate].
  injection H as <-. apply Z.leb_le in E. eauto 7.
Qed.

(** C15: every line [Dummy_Control] prints is [收到手機數據: ] followed
    either by the sample's first item formatted with [.2f], whose
    [float()] reads back that item's value within [1/200], or, when the
    sample is not a non-empty list, by the sample itself. *)
Theorem Dummy_Control_prints (data : pyval) (l : line) :
  Dummy_Control data = Ok l ->
  match l with
  | Text t => exists x rest q s r, data = PList (x :: rest) /\ py_float x = Ok q /\
      t = (data_prefix ++ s)%string /\ parse_float s = Some r /\ Qabs (r - q) <= 1 # 200
  | TextValue pre v => pre = data_prefix /\ v = data /\ forall x rest, data <> PList (x :: rest)
  end.
Proof.
  unfold Dummy_Control.
  destruct data as [| | | | |[|x rest]|]; try (intros [= <-]; repeat split; discriminate).
  unfold format_value_2f. destruct (match x with PStr _ => _ | _ => _ end) as [s|e] eqn:E;
    cbn [res_bind]; [intros [= <-] | discriminate].
  assert (Hq : exists q, py_float x = Ok q /\ s = format_2f q).
  { destruct x; try discriminate; cbn [py_float] in E |- *;
      try (destruct (float_int_limit <=? Z.abs z)%Z); try (destruct (parse_float s0));
      cbn [res_bind] in E; try discriminate; injection E as <-; eauto. }
  destruct Hq as (q & Hx & ->). destruct (format_2f_roundtrip q) as [Hp Hb].
  exists x, rest, q, (format_2f q). eexists. repeat split; eassumption.
Qed.

(** Witnesses. *)

Lemma Dummy_Control_raise_witness :
  Dummy_Control (PList [PStr "up"; PFloat 1]) = Raise ValueError /\
  exists x rest, PList [PStr "up"; PFloat 1] = PList (x :: rest) /\
    ((ValueError = ValueError /\ exists s, x = PStr s) \/
     (ValueError = TypeError /\ (x = PNone \/ (exists l, x = PList l) \/ (exists kv, x = PDict kv))) \/
     (ValueError = OverflowError /\ exists z, x = PInt z /\ (float_int_limit <= Z.abs z)%Z)).
Proof.
  split; [reflexivity|]. apply (Dummy_Control_raise (PList [PStr "up"; PFloat 1]) ValueError).
  reflexivity.
Defined.

Lemma Dummy_Control_prints_witness :
  Dummy_Control (PList [PFloat (1234 # 1000)]) = Ok (Text (data_prefix ++ "1.23")) /\
  exists x rest q s r, PList [PFloat (1234 # 1000)] = PList (x :: rest) /\ py_float x = Ok q /\
    (data_prefix ++ "1.23")%string = (data_prefix ++ s)%string /\ parse_float s = Some r /\
    Qabs (r - q) <= 1 # 200.
Proof.
  assert (H : Dummy_Control (PList [PFloat (1234 # 1000)]) = Ok (Text (data_prefix ++ "1.23")))
    by (vm_compute; reflexivity).
  split; [exact H|]. exact (Dummy_Control_prints _ _ H).
Defined.
